(** * Projects-UX plugin: peer state store, project lifecycle and the
      two-step destructive-operation guard.

    Shallow embedding of [extensions/projects-ux/index.ts].

    Modelling conventions.
    - A JavaScript string is a Rocq [string]; characters are the 7-bit
      ASCII ones ([toLowerCase] maps [A-Z] to [a-z], white space is
      TAB, LF, VT, FF, CR and SPACE); bytes above 127 are opaque
      characters that are neither letters nor white space.
    - An optional field ([f?: T]) is an [option]; JavaScript truthiness of
      a string is non-emptiness, of an optional boolean is [Some true].
    - Numbers that the code only compares and subtracts (message ids,
      millisecond clocks, the project limit) are integers in [Z].
    - The store file is the value of type [gmap string PeerState] that
      [loadStore] would read from it; [writeJsonAtomic] replaces it.
    - The clock, the random source and the outcome of the backup copy are
      read from an explicit environment [Env], one per handler invocation.
    - The handlers are given first as functions of the store they read:
      the commands of what [loadStore] reads from the file, the hooks of
      what [loadStoreCached] returns.  The last part of the definitions
      puts them on the store file and the cache variables together
      ([Sys]): there [withPeerState] writes the file and leaves the
      cache, and the hooks read and write through the cache. *)

From Stdlib Require Import ZArith String Ascii List Bool Lia.
From Stdlib Require Import Numbers.DecimalString.
From stdpp Require Import base option list gmap strings.

Import ListNotations.
Local Open Scope string_scope.
Local Open Scope Z_scope.

(** ** JavaScript string primitives *)

Module Js.

Definition chars (s : string) : list ascii := list_ascii_of_string s.
Definition str (l : list ascii) : string := string_of_list_ascii l.

Definition code (c : ascii) : nat := nat_of_ascii c.

Definition isUpper (c : ascii) : bool :=
  (65 <=? code c)%nat && (code c <=? 90)%nat.
Definition isLower (c : ascii) : bool :=
  (97 <=? code c)%nat && (code c <=? 122)%nat.
Definition isDigit (c : ascii) : bool :=
  (48 <=? code c)%nat && (code c <=? 57)%nat.
(** [\s] and the characters removed by [trim]. *)
Definition isSpace (c : ascii) : bool :=
  ((9 <=? code c)%nat && (code c <=? 13)%nat) || (code c =? 32)%nat.

Definition lowerChar (c : ascii) : ascii :=
  if isUpper c then ascii_of_nat (code c + 32) else c.

(** [s.toLowerCase()] *)
Definition toLowerCase (s : string) : string :=
  str (List.map lowerChar (chars s)).

Fixpoint dropWhile (f : ascii -> bool) (l : list ascii) : list ascii :=
  match l with
  | [] => []
  | c :: r => if f c then dropWhile f r else l
  end.

Definition dropWhileEnd (f : ascii -> bool) (l : list ascii) : list ascii :=
  rev (dropWhile f (rev l)).

Definition trimChars (l : list ascii) : list ascii :=
  dropWhileEnd isSpace (dropWhile isSpace l).

(** [s.trim()] *)
Definition trim (s : string) : string := str (trimChars (chars s)).

(** [s.slice(0, n)] *)
Definition sliceTo (n : nat) (s : string) : string :=
  str (firstn n (chars s)).

(** [s.slice(n)] *)
Definition sliceFrom (n : nat) (s : string) : string :=
  str (skipn n (chars s)).

(** [s.replace(/[^...]+/g, "-")] where [ok] decides the characters of
    the negated class: every maximal run of characters outside the
    class becomes one hyphen.  [inRun] tells that the previous
    character already belonged to the run being replaced. *)
Fixpoint replaceRuns (ok : ascii -> bool) (inRun : bool) (l : list ascii)
  : list ascii :=
  match l with
  | [] => []
  | c :: r =>
      if ok c then c :: replaceRuns ok false r
      else if inRun then replaceRuns ok true r
      else "-"%char :: replaceRuns ok true r
  end.

Definition isHyphen (c : ascii) : bool := (code c =? 45)%nat.

(** [s.replace(/^-+|-+$/g, "")] *)
Definition stripHyphens (l : list ascii) : list ascii :=
  dropWhileEnd isHyphen (dropWhile isHyphen l).

Fixpoint stripPrefix (p l : list ascii) : option (list ascii) :=
  match p, l with
  | [], _ => Some l
  | _ :: _, [] => None
  | a :: p', b :: l' => if Ascii.eqb a b then stripPrefix p' l' else None
  end.

(** [s.startsWith(p)] *)
Definition startsWith (s p : string) : bool :=
  match stripPrefix (chars p) (chars s) with Some _ => true | None => false end.

Fixpoint includesChars (p l : list ascii) : bool :=
  match stripPrefix p l with
  | Some _ => true
  | None => match l with [] => false | _ :: r => includesChars p r end
  end.

(** [s.includes(p)] *)
Definition includes (s p : string) : bool := includesChars (chars p) (chars s).

(** The tokens of [s.split(/\s+/)] for a trimmed, non-empty [s]: the
    maximal runs of characters that are not white space.  [cur] is the
    token being read, in reverse. *)
Fixpoint splitWsAux (cur : list ascii) (l : list ascii) : list string :=
  match l with
  | [] => match cur with [] => [] | _ => [str (rev cur)] end
  | c :: r =>
      if isSpace c
      then match cur with
           | [] => splitWsAux [] r
           | _ => str (rev cur) :: splitWsAux [] r
           end
      else splitWsAux (c :: cur) r
  end.

Definition splitWs (s : string) : list string := splitWsAux [] (chars s).

(** [parts[i] ?? ""] *)
Definition part (parts : list string) (i : nat) : string :=
  nth i parts "".

(** Truthiness of a string. *)
Definition truthy (s : string) : bool := negb (String.eqb s "").

(** [String(n)] for an integer. *)
Definition ofZ (n : Z) : string := NilZero.string_of_int (Z.to_int n).

(** [s.padStart(2, "0")] *)
Definition padStart2 (s : string) : string :=
  match String.length s with
  | O => "00"
  | S O => "0" ++ s
  | _ => s
  end.

Definition hexDigit (n : N) : ascii :=
  match String.get (N.to_nat n) "0123456789abcdef" with
  | Some c => c
  | None => "0"%char
  end.

(** [Buffer.toString("hex")] *)
Fixpoint hex (bs : list Byte.byte) : string :=
  match bs with
  | [] => ""
  | b :: r =>
      let n := Byte.to_N b in
      String (hexDigit (N.div n 16)) (String (hexDigit (N.modulo n 16)) (hex r))
  end.

End Js.

(** ** Identifiers and peer keys *)

Definition isSlugChar (c : ascii) : bool := Js.isLower c || Js.isDigit c.

(** [slugifyId]: trim, lower-case, replace every run outside [a-z0-9] by a
    hyphen, strip the hyphens at both ends, keep 48 characters. *)
Definition slugifyId (input : string) : string :=
  Js.sliceTo 48
    (Js.str (Js.stripHyphens
       (Js.replaceRuns isSlugChar false
          (Js.chars (Js.toLowerCase (Js.trim input)))))).

Definition isRoomKeyChar (c : ascii) : bool :=
  Js.isLower c || Js.isDigit c || (Js.code c =? 95)%nat || Js.isHyphen c.

(** [sanitizeRoomKeySuffixToken]: the same pipeline over [a-z0-9_-], 80
    characters. *)
Definition sanitizeRoomKeySuffixToken (input : string) : string :=
  Js.sliceTo 80
    (Js.str (Js.stripHyphens
       (Js.replaceRuns isRoomKeyChar false
          (Js.chars (Js.toLowerCase (Js.trim input)))))).

(** [randomNonce(bytes)]: [bytes] random bytes in hexadecimal; [entropy]
    is the random source. *)
Definition randomNonce (entropy : nat -> Byte.byte) (bytes : nat) : string :=
  Js.hex (List.map entropy (seq 0 bytes)).

(** The fields of [Date] read by [formatBackupStamp]. *)
Record DateParts := {
  fullYear : Z; month0 : Z; date : Z; hours : Z; minutes : Z; seconds : Z
}.

Definition formatBackupStamp (d : DateParts) : string :=
  let pad n := Js.padStart2 (Js.ofZ n) in
  Js.ofZ (fullYear d) ++ pad (month0 d + 1) ++ pad (date d) ++ "-"
  ++ pad (hours d) ++ pad (minutes d) ++ pad (seconds d).

(** The context of a command invocation. *)
Record CommandCtx := {
  channel : option string;
  senderId : option string;
  args : option string;
  messageId : option Z
}.

Definition buildPeerKeyFromCommandCtx (ctx : CommandCtx) : string :=
  let channel := Js.toLowerCase (default "unknown" (channel ctx)) in
  let senderId := default "unknown" (senderId ctx) in
  channel ++ ":" ++ senderId.

(** The character class [[^:]]. *)
Definition noColon (c : ascii) : bool := negb (Ascii.eqb c ":"%char).

(** [sessionKey.toLowerCase().match(/:telegram:dm:([^:]+)$/)]: the
    leftmost position at which the marker is followed, up to the end, by
    one or more characters other than a colon. *)
Fixpoint matchTelegramDm (l : list ascii) : option (list ascii) :=
  let here :=
    match Js.stripPrefix (Js.chars ":telegram:dm:") l with
    | Some rest =>
        match rest with
        | [] => None
        | _ :: _ =>
            if forallb noColon rest then Some rest else None
        end
    | None => None
    end in
  match here with
  | Some rest => Some rest
  | None => match l with [] => None | _ :: r => matchTelegramDm r end
  end.

Definition extractTelegramDmPeerIdFromSessionKey (sessionKey : string)
  : option string :=
  Js.str <$> matchTelegramDm (Js.chars (Js.toLowerCase sessionKey)).

(** The context of the [before_agent_start] hook. *)
Record HookCtx := {
  sessionKey : option string;
  channelId : option string;
  conversationId : option string
}.

Definition buildPeerKeyFromBeforeAgentStart (ctx : HookCtx) : string :=
  let sessionKeyRaw := default "" (sessionKey ctx) in
  let sessionKey := Js.toLowerCase sessionKeyRaw in
  let channel := Js.toLowerCase (default "unknown" (channelId ctx)) in
  let fallback :=
    let conv := Js.trim (default "" (conversationId ctx)) in
    if Js.truthy conv then channel ++ ":" ++ conv
    else if Js.truthy sessionKeyRaw then channel ++ ":" ++ sessionKeyRaw
    else channel ++ ":unknown" in
  if String.eqb channel "telegram" || Js.includes sessionKey ":telegram:"
  then match extractTelegramDmPeerIdFromSessionKey sessionKey with
       | Some peer => if Js.truthy peer then "telegram:" ++ peer else fallback
       | None => fallback
       end
  else fallback.

(** ** Data model *)

Module Project.
Record t := mk {
  id : string;
  name : string;
  archived : option bool;
  createdAt : string;
  lastUsedAt : option string;
  note : option string;
  tokens : option (list string)
}.

Definition setName (v : string) (p : t) : t :=
  mk (id p) v (archived p) (createdAt p) (lastUsedAt p) (note p) (tokens p).
Definition setTokens (v : option (list string)) (p : t) : t :=
  mk (id p) (name p) (archived p) (createdAt p) (lastUsedAt p) (note p) v.
Definition setLastUsedAt (v : option string) (p : t) : t :=
  mk (id p) (name p) (archived p) (createdAt p) v (note p) (tokens p).

(** [!p.archived] *)
Definition live (p : t) : bool :=
  match archived p with Some true => false | _ => true end.
End Project.

Inductive WipeKind := KindAll | KindProject.

Module PendingWipe.
Record t := mk {
  nonce : string;
  createdAtMs : Z;
  kind : WipeKind;
  projectId : option string;
  stamp : string;
  backupDir : string
}.
End PendingWipe.

Module PeerState.
Record t := mk {
  version : Z;
  projectsEnabled : option bool;
  activeProjectId : string;
  previousProjectId : option string;
  effectiveFromMessageId : option Z;
  lastProjectId : option string;
  pendingReset : option bool;
  projects : list Project.t;
  globalTokens : option (list string);
  pendingWipe : option PendingWipe.t
}.

Definition setProjectsEnabled (v : option bool) (s : t) : t :=
  mk (version s) v (activeProjectId s) (previousProjectId s)
     (effectiveFromMessageId s) (lastProjectId s) (pendingReset s)
     (projects s) (globalTokens s) (pendingWipe s).
Definition setActiveProjectId (v : string) (s : t) : t :=
  mk (version s) (projectsEnabled s) v (previousProjectId s)
     (effectiveFromMessageId s) (lastProjectId s) (pendingReset s)
     (projects s) (globalTokens s) (pendingWipe s).
Definition setPreviousProjectId (v : option string) (s : t) : t :=
  mk (version s) (projectsEnabled s) (activeProjectId s) v
     (effectiveFromMessageId s) (lastProjectId s) (pendingReset s)
     (projects s) (globalTokens s) (pendingWipe s).
Definition setEffectiveFromMessageId (v : option Z) (s : t) : t :=
  mk (version s) (projectsEnabled s) (activeProjectId s)
     (previousProjectId s) v (lastProjectId s) (pendingReset s)
     (projects s) (globalTokens s) (pendingWipe s).
Definition setLastProjectId (v : option string) (s : t) : t :=
  mk (version s) (projectsEnabled s) (activeProjectId s)
     (previousProjectId s) (effectiveFromMessageId s) v (pendingReset s)
     (projects s) (globalTokens s) (pendingWipe s).
Definition setPendingReset (v : option bool) (s : t) : t :=
  mk (version s) (projectsEnabled s) (activeProjectId s)
     (previousProjectId s) (effectiveFromMessageId s) (lastProjectId s) v
     (projects s) (globalTokens s) (pendingWipe s).
Definition setProjects (v : list Project.t) (s : t) : t :=
  mk (version s) (projectsEnabled s) (activeProjectId s)
     (previousProjectId s) (effectiveFromMessageId s) (lastProjectId s)
     (pendingReset s) v (globalTokens s) (pendingWipe s).
Definition setGlobalTokens (v : option (list string)) (s : t) : t :=
  mk (version s) (projectsEnabled s) (activeProjectId s)
     (previousProjectId s) (effectiveFromMessageId s) (lastProjectId s)
     (pendingReset s) (projects s) v (pendingWipe s).
Definition setPendingWipe (v : option PendingWipe.t) (s : t) : t :=
  mk (version s) (projectsEnabled s) (activeProjectId s)
     (previousProjectId s) (effectiveFromMessageId s) (lastProjectId s)
     (pendingReset s) (projects s) (globalTokens s) v.
End PeerState.

(** [Store.peers]: the persisted document. *)
Abbreviation Store := (gmap string PeerState.t).

(** ** Configuration and environment *)

(** The plugin configuration after the defaults of the entry function
    are applied.  [projectsUxDir] is [path.dirname(storagePath)] and
    [projectsUxParentDir] is [path.dirname(projectsUxDir)]. *)
Record Config := {
  storagePath : string;
  defaultProjectName : string;
  maxProjects : Z;
  maxInjectedNoteChars : Z;
  maxPrefixChars : Z;
  hardIsolationEnabled : bool;
  projectsUxDir : string;
  projectsUxParentDir : string
}.

(** Outcome of [fs.cp(projectsUxDir, backupTarget)]. *)
Inductive CopyResult := CopyOk | CopyENOENT | CopyFailed (code : string).

(** What one handler invocation reads from the outside world:
    [Date.now()], [new Date().toISOString()], the local-time fields of
    [new Date()], the bytes of [crypto.randomBytes], the time-and-random
    tail of [randomId] and the outcome of the backup copy.  All other
    file-system calls are taken to succeed. *)
Record Env := {
  nowMs : Z;
  nowIso : string;
  nowDate : DateParts;
  entropy : nat -> Byte.byte;
  randomTail : string;
  backupCopy : CopyResult
}.

(** ** [node:path], POSIX flavour *)

Module Path.

Definition isSlash (c : ascii) : bool := Ascii.eqb c "/"%char.

(** The segments that the separators cut a path into, empty ones
    included; [cur] is the segment being read, in reverse. *)
Fixpoint segmentsAux (cur : list ascii) (l : list ascii) : list (list ascii) :=
  match l with
  | [] => [rev cur]
  | c :: r =>
      if isSlash c then rev cur :: segmentsAux [] r
      else segmentsAux (c :: cur) r
  end.

Definition isDot (seg : list ascii) : bool :=
  match seg with
  | [c] => Ascii.eqb c "."%char
  | _ => false
  end.

Definition isDotDot (seg : list ascii) : bool :=
  match seg with
  | [c; d] => Ascii.eqb c "."%char && Ascii.eqb d "."%char
  | _ => false
  end.

(** [normalizeString(path, allowAboveRoot, "/")] on the segments of the
    path: empty and [.] segments are dropped, [..] removes the segment
    kept last, or is kept itself when the path is relative and there is
    nothing to remove.  [kept] holds the segments kept so far, last one
    first. *)
Fixpoint normalizeSegments (allowAboveRoot : bool) (kept : list (list ascii))
  (segs : list (list ascii)) : list (list ascii) :=
  match segs with
  | [] => rev kept
  | seg :: rest =>
      match seg with
      | [] => normalizeSegments allowAboveRoot kept rest
      | _ :: _ =>
          if isDot seg then normalizeSegments allowAboveRoot kept rest
          else if isDotDot seg then
            match kept with
            | top :: below =>
                if isDotDot top
                then normalizeSegments allowAboveRoot
                       (if allowAboveRoot then seg :: kept else kept) rest
                else normalizeSegments allowAboveRoot below rest
            | [] =>
                normalizeSegments allowAboveRoot
                  (if allowAboveRoot then [seg] else []) rest
            end
          else normalizeSegments allowAboveRoot (seg :: kept) rest
      end
  end.

Fixpoint joinSegments (segs : list (list ascii)) : list ascii :=
  match segs with
  | [] => []
  | [seg] => seg
  | seg :: rest => (seg ++ "/"%char :: joinSegments rest)%list
  end.

(** [path.normalize(path)] *)
Definition normalize (path : string) : string :=
  match Js.chars path with
  | [] => "."
  | c :: _ =>
      let isAbsolute := isSlash c in
      let trailingSeparator :=
        match rev (Js.chars path) with
        | d :: _ => isSlash d
        | [] => false
        end in
      let res :=
        joinSegments
          (normalizeSegments (negb isAbsolute) []
             (segmentsAux [] (Js.chars path))) in
      match res with
      | [] => if isAbsolute then "/" else if trailingSeparator then "./" else "."
      | _ :: _ =>
          let res := if trailingSeparator then (res ++ ["/"%char])%list else res in
          Js.str (if isAbsolute then "/"%char :: res else res)
      end
  end.

(** [path.join(a, b)] *)
Definition join (a b : string) : string :=
  if Js.truthy a
  then if Js.truthy b then normalize (a ++ "/" ++ b) else normalize a
  else if Js.truthy b then normalize b else ".".

End Path.

(** [path.join(a, b)] *)
Definition pathJoin (a b : string) : string := Path.join a b.

(** [randomId(prefix)] *)
Definition randomId (env : Env) (prefix : string) : string :=
  prefix ++ "-" ++ randomTail env.

Definition wipeConfirmTtlMs : Z := 2 * 60 * 1000.

(** ** Project lifecycle *)

(** [`proj-${slugifyId(defaultProjectName) || "general"}`] *)
Definition defaultProjectIdOf (defaultProjectName : string) : string :=
  "proj-" ++ (if Js.truthy (slugifyId defaultProjectName)
              then slugifyId defaultProjectName else "general").

(** The test of the migration loop of [ensureDefaultProject]. *)
Definition isLegacyInbox (p : Project.t) : bool :=
  let name := Js.toLowerCase (Js.trim (Project.name p)) in
  let id := Js.toLowerCase (Js.trim (Project.id p)) in
  String.eqb name "inbox" || String.eqb id "proj-inbox"
  || Js.startsWith id "inbox-".

Definition needsRename (d : string) (p : Project.t) : bool :=
  isLegacyInbox p && negb (String.eqb (Project.name p) d).

Definition renameLegacy (d : string) (p : Project.t) : Project.t :=
  if needsRename d p then Project.setName d p else p.

(** [!Array.isArray(p.tokens)] *)
Definition lacksTokens (p : Project.t) : bool :=
  match Project.tokens p with None => true | Some _ => false end.

Definition initTokens (p : Project.t) : Project.t :=
  if lacksTokens p then Project.setTokens (Some []) p else p.

(** [peer.projects.find((p) => !p.archived) ?? peer.projects[0]] *)
Definition firstLive (ps : list Project.t) : option Project.t :=
  match List.find Project.live ps with
  | Some p => Some p
  | None => head ps
  end.

(** The project created for an empty collection. *)
Definition defaultProject (env : Env) (defaultProjectName : string) : Project.t :=
  Project.mk (defaultProjectIdOf defaultProjectName) defaultProjectName None
    (nowIso env) (Some (nowIso env)) None (Some []).

(** [ensureDefaultProject(peer, defaultProjectName)]: the peer after the
    call and the returned [changed]. *)
Definition ensureDefaultProject (env : Env) (peer : PeerState.t)
  (defaultProjectName : string) : PeerState.t * bool :=
  (* migration of the legacy default *)
  let changed := existsb (needsRename defaultProjectName) (PeerState.projects peer) in
  let peer :=
    PeerState.setProjects
      (List.map (renameLegacy defaultProjectName) (PeerState.projects peer)) peer in
  (* the default project of an empty collection *)
  let '(peer, changed) :=
    match PeerState.projects peer with
    | [] =>
        let id := defaultProjectIdOf defaultProjectName in
        let p := defaultProject env defaultProjectName in
        (PeerState.setPendingReset (Some false)
           (PeerState.setLastProjectId (Some id)
              (PeerState.setActiveProjectId id
                 (PeerState.setProjects [p] peer))), true)
    | _ :: _ => (peer, changed)
    end in
  (* token arrays *)
  let changed := changed || existsb lacksTokens (PeerState.projects peer) in
  let peer :=
    PeerState.setProjects (List.map initTokens (PeerState.projects peer)) peer in
  let '(peer, changed) :=
    match PeerState.globalTokens peer with
    | None => (PeerState.setGlobalTokens (Some []) peer, true)
    | Some _ => (peer, changed)
    end in
  (* the active project *)
  let '(peer, changed) :=
    if Js.truthy (PeerState.activeProjectId peer) then (peer, changed)
    else match firstLive (PeerState.projects peer) with
         | Some first =>
             (PeerState.setActiveProjectId (Project.id first) peer, true)
         | None => (peer, changed)
         end in
  (* Classic unless explicitly enabled *)
  match PeerState.projectsEnabled peer with
  | None => (PeerState.setProjectsEnabled (Some false) peer, true)
  | Some _ => (peer, changed)
  end.

(** Index and value of the first element satisfying [f]
    ([Array.prototype.find], with the position of the object found). *)
Fixpoint findIdx {A} (f : A -> bool) (l : list A) : option (nat * A) :=
  match l with
  | [] => None
  | x :: r =>
      if f x then Some (O, x)
      else match findIdx f r with
           | Some (i, y) => Some (S i, y)
           | None => None
           end
  end.

(** [findProject(peer, key)] *)
Definition findProject (peer : PeerState.t) (key : string)
  : option (nat * Project.t) :=
  let trimmed := Js.trim key in
  if negb (Js.truthy trimmed) then None
  else match findIdx (fun p => String.eqb (Project.id p) trimmed)
               (PeerState.projects peer) with
       | Some r => Some r
       | None =>
           let lower := Js.toLowerCase trimmed in
           findIdx (fun p => String.eqb (Js.toLowerCase (Project.name p)) lower)
             (PeerState.projects peer)
       end.

(** The peer that [withPeerState] starts from when the store has none of
    the supported version. *)
Definition emptyPeer : PeerState.t :=
  PeerState.mk 1 (Some false) "" None None None None [] None None.

(** [withPeerState(filePath, peerKey, fn)]: the store written back and
    the result of [fn]. *)
Definition withPeerState {T} (disk : Store) (peerKey : string)
  (fn : PeerState.t -> PeerState.t * T) : Store * T :=
  let peer :=
    match disk !! peerKey with
    | Some existing =>
        if PeerState.version existing =? 1 then existing else emptyPeer
    | None => emptyPeer
    end in
  let '(peer, result) := fn peer in
  (<[peerKey := peer]> disk, result).

(** ** Replies *)

(** The [error] strings of [backupAndWipeOneProject]. *)
Inductive WipeOneError :=
| BackupFailed (code : string)
| NoPeerState
| DefaultCannotBeWiped
| UnknownProjectId (projectId : string).

(** The replies that refuse a command: one constructor per return site. *)
Inductive Refusal :=
| UsageNew
| UsageSwitch
| NoStateYet
| RefusedDefault
| RefusedUnknown (projectId : string)
| UnknownResetAction
| NoWipePending
| NonceExpired
| MismatchAll
| MismatchProject
| WipeOneRefused (e : WipeOneError)
| ProjectLimit (maxProjects : Z)
| ProjectNotFound (key : string).

Definition wipeOneErrorText (e : WipeOneError) : string :=
  match e with
  | BackupFailed code => "Backup failed; aborting wipe. (" ++ code ++ ")"
  | NoPeerState => "Refused: no peer state."
  | DefaultCannotBeWiped => "Refused: default project cannot be wiped."
  | UnknownProjectId projectId => "Refused: unknown projectId: " ++ projectId
  end.

(** The [text] of a refusal. *)
Definition refusalText (r : Refusal) : string :=
  match r with
  | UsageNew => "Usage: /projects new <name>"
  | UsageSwitch => "Usage: /projects switch <name|id>"
  | NoStateYet => "No Projects state yet for this DM."
  | RefusedDefault => "Refused: default project cannot be wiped."
  | RefusedUnknown projectId => "Refused: unknown projectId: " ++ projectId
  | UnknownResetAction => "Unknown reset action."
  | NoWipePending => "No wipe pending. Use /projects → More… → Reset…"
  | NonceExpired => "Refused: nonce expired. Re-run Reset…"
  | MismatchAll => "Refused: nonce mismatch or wrong scope. Re-run Reset…"
  | MismatchProject => "Refused: nonce mismatch or wrong projectId. Re-run Reset…"
  | WipeOneRefused e => wipeOneErrorText e
  | ProjectLimit maxProjects =>
      "Project limit reached (" ++ Js.ofZ maxProjects
      ++ "). Archive old projects first."
  | ProjectNotFound key => "Project not found: " ++ key
  end.

(** The replies of [handleProjectsCommand], with the values their text
    and buttons are built from. *)
Inductive Reply :=
| Refuse (r : Refusal)
| Help
| More
| MemoryHelp
| ResetMenu
| Status (peer : option PeerState.t)
| DebugNoPeer
| Debug (peer : PeerState.t)
| ListNoPeer
| Listing (peer : PeerState.t)
| NoRemovable
| Picker (candidates : list Project.t)
| ArmedProject (project : Project.t) (pending : PendingWipe.t)
| ArmedAll (pending : PendingWipe.t)
| Cancelled
| WipedAll (backupDir : string)
| WipedProject (projectName projectId backupDir : string)
    (projectsEnabled : bool) (activeProjectName : string)
| ProjectsOn (project : option Project.t)
| ProjectsOff
| SwitchedExisting (project : Project.t)
| Created (project : Project.t)
| Switched (project : Project.t).

(** A handler returns a reply or rejects with an error code. *)
Inductive Outcome :=
| Returned (r : Reply)
| Threw (code : string).

(** What [backupAndWipeOneProject] resolves to. *)
Inductive WipeOneResult :=
| WipeOneOk (backupDir projectName : string) (projectsEnabled : bool)
    (activeProjectName : string)
| WipeOneErr (e : WipeOneError).

(** [p.id === projectId] *)
Definition hasId (projectId : string) (p : Project.t) : bool :=
  String.eqb (Project.id p) projectId.

(** [o === s] for an optional string [o]. *)
Definition isSomeStr (o : option string) (s : string) : bool :=
  match o with Some x => String.eqb x s | None => false end.

(** ** Destructive operations *)

Section Plugin.

Context (cfg : Config).

Definition defaultProjectId : string :=
  defaultProjectIdOf (defaultProjectName cfg).

(** [wipeProjectsUxForPeer(peerKey, messageId)] *)
Definition wipeProjectsUxForPeer (env : Env) (disk : Store)
  (peerKey : string) (messageId : option Z) : Store * PeerState.t :=
  let freshPeer :=
    PeerState.mk 1 (Some false) "" (Some "") messageId (Some "")
      (Some false) [] (Some []) None in
  let '(freshPeer, _) :=
    ensureDefaultProject env freshPeer (defaultProjectName cfg) in
  (<[peerKey := freshPeer]> disk, freshPeer).

(** [backupAndResetProjectsUx(peerKey, pending, messageId)]: any backup
    failure other than ENOENT is rethrown before the store is touched. *)
Definition backupAndResetProjectsUx (env : Env) (disk : Store)
  (peerKey : string) (pending : PendingWipe.t) (messageId : option Z)
  : Store * (string + string) :=
  match backupCopy env with
  | CopyFailed code => (disk, inr code)
  | CopyOk | CopyENOENT =>
      let '(disk, _) := wipeProjectsUxForPeer env disk peerKey messageId in
      (disk, inl (PendingWipe.backupDir pending))
  end.

(** The mutation of [backupAndWipeOneProject] between its two calls of
    [ensureDefaultProject]. *)
Definition removeProject (peer : PeerState.t) (projectId : string)
  (messageId : option Z) : PeerState.t :=
  let peer :=
    PeerState.setProjects
      (List.filter (fun p => negb (hasId projectId p)) (PeerState.projects peer))
      peer in
  let wasActive := String.eqb (PeerState.activeProjectId peer) projectId in
  let wasPrev := isSomeStr (PeerState.previousProjectId peer) projectId in
  let wasLast := isSomeStr (PeerState.lastProjectId peer) projectId in
  let peer :=
    if wasActive || wasPrev || wasLast
    then PeerState.setPendingReset (Some true)
           (PeerState.setLastProjectId (Some defaultProjectId)
              (PeerState.setPreviousProjectId None
                 (PeerState.setActiveProjectId defaultProjectId peer)))
    else peer in
  let peer :=
    match PeerState.projectsEnabled peer with
    | None => PeerState.setProjectsEnabled (Some false) peer
    | Some _ => peer
    end in
  match messageId with
  | Some m => PeerState.setEffectiveFromMessageId (Some m) peer
  | None => peer
  end.

(** [backupAndWipeOneProject(peerKey, pending, projectId, messageId)] *)
Definition backupAndWipeOneProject (env : Env) (disk : Store)
  (peerKey : string) (pending : PendingWipe.t) (projectId : string)
  (messageId : option Z) : Store * WipeOneResult :=
  match backupCopy env with
  | CopyFailed code => (disk, WipeOneErr (BackupFailed code))
  | CopyOk | CopyENOENT =>
      match disk !! peerKey with
      | None => (disk, WipeOneErr NoPeerState)
      | Some peer =>
          let peer := PeerState.setPendingWipe None peer in
          let '(peer, _) :=
            ensureDefaultProject env peer (defaultProjectName cfg) in
          if String.eqb projectId defaultProjectId
          then (disk, WipeOneErr DefaultCannotBeWiped)
          else
            match List.find (fun p => hasId projectId p && Project.live p)
                    (PeerState.projects peer) with
            | None => (disk, WipeOneErr (UnknownProjectId projectId))
            | Some target =>
                let peer := removeProject peer projectId messageId in
                let '(peer, _) :=
                  ensureDefaultProject env peer (defaultProjectName cfg) in
                let active :=
                  match List.find (hasId (PeerState.activeProjectId peer))
                          (PeerState.projects peer) with
                  | Some p => Some p
                  | None => head (PeerState.projects peer)
                  end in
                (<[peerKey := peer]> disk,
                 WipeOneOk (PendingWipe.backupDir pending)
                   (Project.name target)
                   (match PeerState.projectsEnabled peer with
                    | Some true => true | _ => false end)
                   (match active with
                    | Some p => Project.name p
                    | None => defaultProjectName cfg
                    end))
            end
      end
  end.

(** ** The [projects] command *)

(** [if (changed) { store.peers[peerKey] = peer; await writeStoreAndRefreshCache(store) }] *)
Definition persistIfChanged (disk : Store) (peerKey : string)
  (peer : PeerState.t) (changed : bool) : Store :=
  if changed then <[peerKey := peer]> disk else disk.

(** The bookkeeping shared by [on], [new] and [switch] once a project is
    chosen; [touch] is the position of the chosen project when its
    [lastUsedAt] is refreshed. *)
Definition activate (env : Env) (peer : PeerState.t)
  (touch : option nat) (chosen : Project.t) : PeerState.t :=
  let peer :=
    PeerState.setPreviousProjectId
      (if Js.truthy (PeerState.activeProjectId peer)
       then Some (PeerState.activeProjectId peer)
       else PeerState.previousProjectId peer) peer in
  let peer := PeerState.setActiveProjectId (Project.id chosen) peer in
  let peer := PeerState.setLastProjectId (Some (Project.id chosen)) peer in
  let peer :=
    match touch with
    | Some i =>
        PeerState.setProjects
          (alter (Project.setLastUsedAt (Some (nowIso env))) i
             (PeerState.projects peer)) peer
    | None => peer
    end in
  PeerState.setPendingReset (Some true) peer.

(** [if (ctx.channel === "telegram" && typeof messageId === "number")
    peer.effectiveFromMessageId = messageId] *)
Definition stampMessageId (ctx : CommandCtx) (peer : PeerState.t) : PeerState.t :=
  match channel ctx, messageId ctx with
  | Some c, Some m =>
      if String.eqb c "telegram"
      then PeerState.setEffectiveFromMessageId (Some m) peer else peer
  | _, _ => peer
  end.

(** [/projects] without arguments. *)
Definition cmdStatus (env : Env) (disk : Store) (peerKey : string)
  : Store * Outcome :=
  match disk !! peerKey with
  | Some peer =>
      let '(peer, changed) :=
        ensureDefaultProject env peer (defaultProjectName cfg) in
      (persistIfChanged disk peerKey peer changed,
       Returned (Status (Some peer)))
  | None => (disk, Returned (Status None))
  end.

Definition cmdDebug (env : Env) (disk : Store) (peerKey : string)
  : Store * Outcome :=
  match disk !! peerKey with
  | None => (disk, Returned DebugNoPeer)
  | Some peer =>
      let '(peer, changed) :=
        ensureDefaultProject env peer (defaultProjectName cfg) in
      (persistIfChanged disk peerKey peer changed, Returned (Debug peer))
  end.

Definition cmdList (env : Env) (disk : Store) (peerKey : string)
  : Store * Outcome :=
  match disk !! peerKey with
  | None => (disk, Returned ListNoPeer)
  | Some peer =>
      let '(peer, changed) :=
        ensureDefaultProject env peer (defaultProjectName cfg) in
      (persistIfChanged disk peerKey peer changed, Returned (Listing peer))
  end.

(** The pending operation armed at this instant. *)
Definition newPending (env : Env) (kind : WipeKind)
  (projectId : option string) : PendingWipe.t :=
  let stamp := formatBackupStamp (nowDate env) in
  PendingWipe.mk (randomNonce (entropy env) 4) (nowMs env) kind projectId
    stamp (pathJoin (projectsUxParentDir cfg) ("backup_projects_ux_" ++ stamp)).

(** [/projects reset ...] *)
Definition cmdReset (env : Env) (disk : Store) (peerKey : string)
  (parts : list string) : Store * Outcome :=
  let action := Js.toLowerCase (Js.part parts 1) in
  if negb (Js.truthy action) then (disk, Returned ResetMenu)
  else if String.eqb action "remove" then
    let projectId := Js.part parts 2 in
    match disk !! peerKey with
    | None => (disk, Returned (Refuse NoStateYet))
    | Some peer =>
        let '(peer, changed) :=
          ensureDefaultProject env peer (defaultProjectName cfg) in
        let disk := persistIfChanged disk peerKey peer changed in
        let candidates :=
          List.filter
            (fun p => Project.live p && negb (hasId defaultProjectId p))
            (PeerState.projects peer) in
        if negb (Js.truthy projectId) then
          match candidates with
          | [] => (disk, Returned NoRemovable)
          | _ :: _ => (disk, Returned (Picker candidates))
          end
        else if String.eqb projectId defaultProjectId then
          (disk, Returned (Refuse RefusedDefault))
        else
          match List.find (fun p => hasId projectId p && Project.live p)
                  (PeerState.projects peer) with
          | None => (disk, Returned (Refuse (RefusedUnknown projectId)))
          | Some project =>
              let pending := newPending env KindProject (Some projectId) in
              let peer := PeerState.setPendingWipe (Some pending) peer in
              (<[peerKey := peer]> disk,
               Returned (ArmedProject project pending))
          end
    end
  else (disk, Returned (Refuse UnknownResetAction)).

(** The peer that [/projects wipe] starts from when the store has none. *)
Definition wipeFreshPeer : PeerState.t :=
  PeerState.mk 1 (Some false) "" None None None None [] (Some []) None.

(** [clearPending()] of the wipe branch: the peer and the store after it. *)
Definition clearPending (disk : Store) (peerKey : string)
  (peer : PeerState.t) : Store * PeerState.t :=
  match PeerState.pendingWipe peer with
  | Some _ =>
      let peer := PeerState.setPendingWipe None peer in
      (<[peerKey := peer]> disk, peer)
  | None => (disk, peer)
  end.

Definition isKindAll (k : WipeKind) : bool :=
  match k with KindAll => true | KindProject => false end.

(** [/projects wipe ...] *)
Definition cmdWipe (env : Env) (ctx : CommandCtx) (disk : Store)
  (peerKey : string) (parts : list string) : Store * Outcome :=
  let peer := default wipeFreshPeer (disk !! peerKey) in
  let action := Js.toLowerCase (Js.part parts 1) in
  if String.eqb action "cancel" then
    (fst (clearPending disk peerKey peer), Returned Cancelled)
  else if String.eqb action "confirm" then
    let argNonce := Js.part parts 2 in
    match PeerState.pendingWipe peer with
    | None => (disk, Returned (Refuse NoWipePending))
    | Some pending =>
        let expired :=
          nowMs env - PendingWipe.createdAtMs pending >? wipeConfirmTtlMs in
        let mismatch :=
          negb (Js.truthy argNonce)
          || negb (String.eqb argNonce (PendingWipe.nonce pending))
          || negb (isKindAll (PendingWipe.kind pending)) in
        if expired then
          (fst (clearPending disk peerKey peer), Returned (Refuse NonceExpired))
        else if mismatch then
          (fst (clearPending disk peerKey peer), Returned (Refuse MismatchAll))
        else
          let disk := fst (clearPending disk peerKey peer) in
          match backupAndResetProjectsUx env disk peerKey pending
                  (messageId ctx) with
          | (disk, inl backupDir) => (disk, Returned (WipedAll backupDir))
          | (disk, inr code) => (disk, Threw code)
          end
    end
  else if String.eqb action "project"
          && String.eqb (Js.toLowerCase (Js.part parts 2)) "confirm" then
    let argNonce := Js.part parts 3 in
    let projectId := Js.part parts 4 in
    match PeerState.pendingWipe peer with
    | None => (disk, Returned (Refuse NoWipePending))
    | Some pending =>
        let expired :=
          nowMs env - PendingWipe.createdAtMs pending >? wipeConfirmTtlMs in
        let mismatch :=
          negb (Js.truthy argNonce)
          || negb (String.eqb argNonce (PendingWipe.nonce pending))
          || isKindAll (PendingWipe.kind pending)
          || match PendingWipe.projectId pending with
             | None => true
             | Some armed =>
                 negb (Js.truthy armed) || negb (String.eqb armed projectId)
             end in
        if expired then
          (fst (clearPending disk peerKey peer), Returned (Refuse NonceExpired))
        else if mismatch then
          (fst (clearPending disk peerKey peer),
           Returned (Refuse MismatchProject))
        else
          let disk := fst (clearPending disk peerKey peer) in
          match backupAndWipeOneProject env disk peerKey pending projectId
                  (messageId ctx) with
          | (disk, WipeOneErr e) => (disk, Returned (Refuse (WipeOneRefused e)))
          | (disk, WipeOneOk backupDir projectName projectsEnabled
                     activeProjectName) =>
              (disk, Returned (WipedProject projectName projectId backupDir
                                 projectsEnabled activeProjectName))
          end
    end
  else
    let pending := newPending env KindAll None in
    let peer := PeerState.setPendingWipe (Some pending) peer in
    (<[peerKey := peer]> disk, Returned (ArmedAll pending)).

(** [a ?? b] on the results of [find]. *)
Definition orElse {A} (a b : option A) : option A :=
  match a with Some _ => a | None => b end.

(** [/projects on] *)
Definition cmdOn (env : Env) (ctx : CommandCtx) (disk : Store)
  (peerKey : string) : Store * Outcome :=
  let '(disk, project) :=
    withPeerState disk peerKey (fun peer =>
      let '(peer, _) :=
        ensureDefaultProject env peer (defaultProjectName cfg) in
      let peer := PeerState.setProjectsEnabled (Some true) peer in
      let last :=
        match PeerState.lastProjectId peer with
        | Some l =>
            if Js.truthy l
            then findIdx (fun p => hasId l p && Project.live p)
                   (PeerState.projects peer)
            else None
        | None => None
        end in
      let active :=
        if Js.truthy (PeerState.activeProjectId peer)
        then findIdx
               (fun p => hasId (PeerState.activeProjectId peer) p
                         && Project.live p)
               (PeerState.projects peer)
        else None in
      let chosen :=
        orElse last
          (orElse active
             (orElse (findIdx Project.live (PeerState.projects peer))
                (findIdx (fun _ => true) (PeerState.projects peer)))) in
      let peer :=
        match chosen with
        | Some (i, c) => activate env peer (Some i) c
        | None => peer
        end in
      (stampMessageId ctx peer,
       option_map (fun ic => Project.setLastUsedAt (Some (nowIso env)) (snd ic))
         chosen)) in
  (disk, Returned (ProjectsOn project)).

(** [/projects off] *)
Definition cmdOff (env : Env) (ctx : CommandCtx) (disk : Store)
  (peerKey : string) : Store * Outcome :=
  let '(disk, _) :=
    withPeerState disk peerKey (fun peer =>
      let '(peer, _) :=
        ensureDefaultProject env peer (defaultProjectName cfg) in
      let peer := PeerState.setProjectsEnabled (Some false) peer in
      (stampMessageId ctx peer, tt)) in
  (disk, Returned ProjectsOff).

(** [/projects new <name>]; [args] is the trimmed argument string. *)
Definition cmdNew (env : Env) (ctx : CommandCtx) (disk : Store)
  (peerKey : string) (args : string) : Store * Outcome :=
  let name := Js.trim (Js.sliceFrom 3 args) in
  if negb (Js.truthy name) then (disk, Returned (Refuse UsageNew))
  else
    let '(disk, res) :=
      withPeerState disk peerKey (fun peer =>
        let '(peer, _) :=
          ensureDefaultProject env peer (defaultProjectName cfg) in
        let peer := PeerState.setProjectsEnabled (Some true) peer in
        match findIdx
                (fun p => Project.live p
                          && String.eqb (Js.toLowerCase (Project.name p))
                               (Js.toLowerCase name))
                (PeerState.projects peer) with
        | Some (i, existing) =>
            let peer := activate env peer (Some i) existing in
            (stampMessageId ctx peer,
             SwitchedExisting
               (Project.setLastUsedAt (Some (nowIso env)) existing))
        | None =>
            let id := slugifyId name in
            let finalId :=
              if Js.truthy id then "proj-" ++ id else randomId env "proj" in
            if Z.of_nat (List.length (List.filter Project.live (PeerState.projects peer)))
               >=? maxProjects cfg
            then (peer, Refuse (ProjectLimit (maxProjects cfg)))
            else
              let project :=
                Project.mk finalId name None (nowIso env) (Some (nowIso env))
                  None None in
              let peer :=
                PeerState.setProjects (PeerState.projects peer ++ [project])%list
                  peer in
              let peer := activate env peer None project in
              (stampMessageId ctx peer, Created project)
        end) in
    (disk, Returned res).

(** [/projects switch <name|id>]; [args] is the trimmed argument string. *)
Definition cmdSwitch (env : Env) (ctx : CommandCtx) (disk : Store)
  (peerKey : string) (args : string) : Store * Outcome :=
  let key := Js.trim (Js.sliceFrom 6 args) in
  if negb (Js.truthy key) then (disk, Returned (Refuse UsageSwitch))
  else
    let '(disk, res) :=
      withPeerState disk peerKey (fun peer =>
        let '(peer, _) :=
          ensureDefaultProject env peer (defaultProjectName cfg) in
        let peer := PeerState.setProjectsEnabled (Some true) peer in
        match findProject peer key with
        | None => (peer, Refuse (ProjectNotFound key))
        | Some (i, project) =>
            if negb (Project.live project)
            then (peer, Refuse (ProjectNotFound key))
            else
              let peer := activate env peer (Some i) project in
              (stampMessageId ctx peer,
               Switched (Project.setLastUsedAt (Some (nowIso env)) project))
        end) in
    (disk, Returned res).

(** [(ctx.args ?? "").trim()] *)
Definition ctxArgs (ctx : CommandCtx) : string :=
  Js.trim (default "" (args ctx)).

(** [args ? args.split(/\s+/) : []] *)
Definition ctxParts (ctx : CommandCtx) : list string :=
  if Js.truthy (ctxArgs ctx) then Js.splitWs (ctxArgs ctx) else [].

(** [(parts[0] ?? "").toLowerCase()] *)
Definition ctxSub (ctx : CommandCtx) : string :=
  Js.toLowerCase (Js.part (ctxParts ctx) 0).

(** [handleProjectsCommand(ctx)] on the store [disk]: the store it leaves
    behind and what it returns. *)
Definition handleProjectsCommand (env : Env) (ctx : CommandCtx)
  (disk : Store) : Store * Outcome :=
  let peerKey := buildPeerKeyFromCommandCtx ctx in
  let args := ctxArgs ctx in
  if String.eqb args "new" then (disk, Returned (Refuse UsageNew))
  else
    let parts := ctxParts ctx in
    let sub := ctxSub ctx in
    if negb (Js.truthy sub) then cmdStatus env disk peerKey
    else if String.eqb sub "help" then (disk, Returned Help)
    else if String.eqb sub "debug" then cmdDebug env disk peerKey
    else if String.eqb sub "more" then (disk, Returned More)
    else if String.eqb sub "memory" then (disk, Returned MemoryHelp)
    else if String.eqb sub "reset" then cmdReset env disk peerKey parts
    else if String.eqb sub "wipe" then cmdWipe env ctx disk peerKey parts
    else if String.eqb sub "on" then cmdOn env ctx disk peerKey
    else if String.eqb sub "off" then cmdOff env ctx disk peerKey
    else if String.eqb sub "list" then cmdList env disk peerKey
    else if String.eqb sub "new" then cmdNew env ctx disk peerKey args
    else if String.eqb sub "switch" then cmdSwitch env ctx disk peerKey args
    else (disk, Returned Help).

(** ** The [resolve_room_key] hook *)

Inductive PeerKind := Dm | OtherKind.

Record RoomKeyEvent := {
  evChannel : option string;
  evPeerKind : option PeerKind;
  evPeerId : option string;
  evMessageId : option Z;
  evRoomKey : option string
}.

(** The handler on the store [store] returned by [loadStoreCached]: the
    store it leaves behind and the replacement room key, if any. *)
Definition resolveRoomKey (env : Env) (event : RoomKeyEvent) (store : Store)
  : Store * option string :=
  if negb (hardIsolationEnabled cfg) then (store, None)
  else if negb (isSomeStr (evChannel event) "telegram") then (store, None)
  else if negb (match evPeerKind event with Some Dm => true | _ => false end)
  then (store, None)
  else
    let peerId := Js.trim (default "" (evPeerId event)) in
    if negb (Js.truthy peerId) then (store, None)
    else
      let peerKey := "telegram:" ++ peerId in
      match store !! peerKey with
      | None => (store, None)
      | Some peer =>
          let '(peer, changed) :=
            ensureDefaultProject env peer (defaultProjectName cfg) in
          let store := persistIfChanged store peerKey peer changed in
          if negb (match PeerState.projectsEnabled peer with
                   | Some true => true | _ => false end)
          then (store, None)
          else
            let activeId :=
              match evMessageId event, PeerState.effectiveFromMessageId peer with
              | Some msgId, Some effectiveFrom =>
                  if msgId <? effectiveFrom
                  then default (PeerState.activeProjectId peer)
                         (PeerState.previousProjectId peer)
                  else PeerState.activeProjectId peer
              | _, _ => PeerState.activeProjectId peer
              end in
            let suffix := sanitizeRoomKeySuffixToken activeId in
            if negb (Js.truthy suffix) then (store, None)
            else
              let base := Js.trim (default "" (evRoomKey event)) in
              if negb (Js.truthy base) then (store, None)
              else (store, Some (base ++ ":proj:" ++ suffix))
      end.

End Plugin.

(** ** Self-healing, field by field

    What [ensureDefaultProject] leaves in each field, used to state and
    prove the properties below; [ensureDefaultProject_eq] relates them to
    the function. *)

Definition healedProjects (env : Env) (d : string) (ps : list Project.t)
  : list Project.t :=
  match ps with
  | [] => [defaultProject env d]
  | _ :: _ => List.map initTokens (List.map (renameLegacy d) ps)
  end.

Definition healedActive (env : Env) (d : string) (peer : PeerState.t) : string :=
  let act :=
    match PeerState.projects peer with
    | [] => defaultProjectIdOf d
    | _ :: _ => PeerState.activeProjectId peer
    end in
  if Js.truthy act then act
  else match firstLive (healedProjects env d (PeerState.projects peer)) with
       | Some first => Project.id first
       | None => act
       end.

Definition healed (env : Env) (d : string) (peer : PeerState.t) : PeerState.t :=
  PeerState.mk (PeerState.version peer)
    (Some (default false (PeerState.projectsEnabled peer)))
    (healedActive env d peer)
    (PeerState.previousProjectId peer)
    (PeerState.effectiveFromMessageId peer)
    (match PeerState.projects peer with
     | [] => Some (defaultProjectIdOf d)
     | _ :: _ => PeerState.lastProjectId peer
     end)
    (match PeerState.projects peer with
     | [] => Some false
     | _ :: _ => PeerState.pendingReset peer
     end)
    (healedProjects env d (PeerState.projects peer))
    (Some (default [] (PeerState.globalTokens peer)))
    (PeerState.pendingWipe peer).

Definition healChanged (d : string) (peer : PeerState.t) : bool :=
  existsb (needsRename d) (PeerState.projects peer)
  || match PeerState.projects peer with [] => true | _ :: _ => false end
  || existsb lacksTokens (PeerState.projects peer)
  || match PeerState.globalTokens peer with None => true | Some _ => false end
  || match PeerState.projects peer with
     | [] => false
     | _ :: _ => negb (Js.truthy (PeerState.activeProjectId peer))
     end
  || match PeerState.projectsEnabled peer with None => true | Some _ => false end.

(** ** Concrete configuration and environment for the examples *)

Definition cfg0 : Config :=
  {| storagePath := "/home/u/.openclaw/projects-ux/state.json";
     defaultProjectName := "General";
     maxProjects := 50;
     maxInjectedNoteChars := 600;
     maxPrefixChars := 240;
     hardIsolationEnabled := true;
     projectsUxDir := "/home/u/.openclaw/projects-ux";
     projectsUxParentDir := "/home/u/.openclaw" |}.

(** An environment whose clock shows [t] milliseconds and whose random
    bytes spell [deadbeef]. *)
Definition env0 (t : Z) : Env :=
  {| nowMs := t;
     nowIso := "2026-01-05T09:30:07.000Z";
     nowDate := {| fullYear := 2026; month0 := 0; date := 5; hours := 9;
                   minutes := 30; seconds := 7 |};
     entropy := fun n =>
       match n with
       | O => Byte.xde | 1%nat => Byte.xad | 2%nat => Byte.xbe | _ => Byte.xef
       end;
     randomTail := "mk2f9c1a-5e3a9b1c";
     backupCopy := CopyOk |}.

Definition ctx0 (a : string) (m : Z) : CommandCtx :=
  {| channel := Some "telegram"; senderId := Some "u1"; args := Some a;
     messageId := Some m |}.

(** The store after the commands [cmds], each given with its message id,
    which is also the clock reading. *)
Definition run (cmds : list (string * Z)) (disk : Store) : Store :=
  fold_left
    (fun disk c =>
       fst (handleProjectsCommand cfg0 (env0 (snd c)) (ctx0 (fst c) (snd c)) disk))
    cmds disk.

Definition generalProject : Project.t :=
  {| Project.id := "proj-general"; Project.name := "General";
     Project.archived := None;
     Project.createdAt := "2026-01-05T09:30:07.000Z";
     Project.lastUsedAt := Some "2026-01-05T09:30:07.000Z";
     Project.note := None; Project.tokens := Some [] |}.

(** A stored peer whose active id names no project of its collection. *)
Definition danglingPeer : PeerState.t :=
  {| PeerState.version := 1; PeerState.projectsEnabled := Some true;
     PeerState.activeProjectId := "proj-old";
     PeerState.previousProjectId := None;
     PeerState.effectiveFromMessageId := None;
     PeerState.lastProjectId := Some "proj-old";
     PeerState.pendingReset := Some false;
     PeerState.projects := [generalProject];
     PeerState.globalTokens := Some [];
     PeerState.pendingWipe := None |}.

(** A stored peer without active id whose only project has the empty id. *)
Definition emptyIdPeer : PeerState.t :=
  {| PeerState.version := 1; PeerState.projectsEnabled := Some false;
     PeerState.activeProjectId := "";
     PeerState.previousProjectId := None;
     PeerState.effectiveFromMessageId := None;
     PeerState.lastProjectId := None;
     PeerState.pendingReset := Some false;
     PeerState.projects :=
       [{| Project.id := ""; Project.name := "Scratch";
           Project.archived := None;
           Project.createdAt := "2026-01-05T09:30:07.000Z";
           Project.lastUsedAt := None; Project.note := None;
           Project.tokens := Some [] |}];
     PeerState.globalTokens := Some [];
     PeerState.pendingWipe := None |}.

(** A stored peer without active id, with an archived and a live project. *)
Definition unsetActivePeer : PeerState.t :=
  {| PeerState.version := 1; PeerState.projectsEnabled := None;
     PeerState.activeProjectId := "";
     PeerState.previousProjectId := None;
     PeerState.effectiveFromMessageId := None;
     PeerState.lastProjectId := None;
     PeerState.pendingReset := None;
     PeerState.projects :=
       [{| Project.id := "proj-done"; Project.name := "Done";
           Project.archived := Some true;
           Project.createdAt := "2025-12-01T08:00:00.000Z";
           Project.lastUsedAt := None; Project.note := None;
           Project.tokens := None |};
        generalProject];
     PeerState.globalTokens := None;
     PeerState.pendingWipe := None |}.


(** A direct message of peer [u1] numbered [m] on room key [base]. *)
Definition dmEvent (m : Z) (base : string) : RoomKeyEvent :=
  {| evChannel := Some "telegram"; evPeerKind := Some Dm;
     evPeerId := Some "u1"; evMessageId := Some m; evRoomKey := Some base |}.

(** ** Vocabulary of the destructive-operation guard *)

(** [/projects wipe confirm <nonce>] *)
Definition isConfirmAll (ctx : CommandCtx) : Prop :=
  ctxSub ctx = "wipe"
  /\ Js.toLowerCase (Js.part (ctxParts ctx) 1) = "confirm".

(** [/projects wipe project confirm <nonce> <id>] *)
Definition isConfirmProject (ctx : CommandCtx) : Prop :=
  ctxSub ctx = "wipe"
  /\ Js.toLowerCase (Js.part (ctxParts ctx) 1) = "project"
  /\ Js.toLowerCase (Js.part (ctxParts ctx) 2) = "confirm".

(** The reply says that a wipe was done.  What the store then holds is
    the matter of [carriedOut] below. *)
Definition answersWiped (o : Outcome) : Prop :=
  match o with
  | Returned (WipedAll _) | Returned (WipedProject _ _ _ _ _) => True
  | _ => False
  end.

(** The command was refused. *)
Definition refused (o : Outcome) : Prop :=
  match o with
  | Returned (Refuse _) => True
  | _ => False
  end.

(** The confirmation [ctx], read at clock [now], matches the armed
    operation [pending]: the command is the one of the armed kind, it
    carries the armed nonce (and, for one project, the armed project id),
    and at most [wipeConfirmTtlMs] have passed since arming. *)
Definition matchesArm (pending : PendingWipe.t) (now : Z) (ctx : CommandCtx)
  : Prop :=
  now - PendingWipe.createdAtMs pending <= wipeConfirmTtlMs
  /\ match PendingWipe.kind pending with
     | KindAll =>
         isConfirmAll ctx
         /\ Js.part (ctxParts ctx) 2 = PendingWipe.nonce pending
     | KindProject =>
         isConfirmProject ctx
         /\ Js.part (ctxParts ctx) 3 = PendingWipe.nonce pending
         /\ PendingWipe.projectId pending = Some (Js.part (ctxParts ctx) 4)
     end.

(** The pending wipe stored for [peerKey], if any. *)
Definition pendingOf (disk : Store) (peerKey : string) : option PendingWipe.t :=
  match disk !! peerKey with
  | Some peer => PeerState.pendingWipe peer
  | None => None
  end.

(** The projects stored for [peerKey]. *)
Definition projectsOf (disk : Store) (peerKey : string) : list Project.t :=
  match disk !! peerKey with
  | Some peer => PeerState.projects peer
  | None => []
  end.

(** The project collection needs no healing. *)
Definition projectsHealed (d : string) (ps : list Project.t) : Prop :=
  ps <> [] /\ existsb (needsRename d) ps = false
  /\ existsb lacksTokens ps = false.

(** What arming leaves in the store: the pending operation with a
    non-empty nonce and, for one project, the id of a live project of the
    healed collection other than the default project. *)
Definition wellArmed (cfg : Config) (peer : PeerState.t)
  (pending : PendingWipe.t) : Prop :=
  PeerState.pendingWipe peer = Some pending
  /\ Js.truthy (PendingWipe.nonce pending) = true
  /\ match PendingWipe.kind pending with
     | KindAll => True
     | KindProject =>
         exists projectId project,
           PendingWipe.projectId pending = Some projectId
           /\ Js.truthy projectId = true
           /\ String.eqb projectId (defaultProjectId cfg) = false
           /\ projectsHealed (defaultProjectName cfg) (PeerState.projects peer)
           /\ List.find (fun p => hasId projectId p && Project.live p)
                (PeerState.projects peer) = Some project
     end.

(** The state that a wipe of all projects leaves for the peer: Classic
    mode, the default project alone and active, no tokens, nothing
    pending. *)
Definition wipedAllState (cfg : Config) (after : PeerState.t) : Prop :=
  PeerState.projectsEnabled after = Some false
  /\ (exists p,
         PeerState.projects after = [p]
         /\ Project.id p = defaultProjectId cfg
         /\ Project.name p = defaultProjectName cfg
         /\ Project.tokens p = Some [])
  /\ PeerState.activeProjectId after = defaultProjectId cfg
  /\ PeerState.globalTokens after = Some []
  /\ PeerState.pendingWipe after = None.

(** The wipe armed as [pending] on the stored peer [armed] was carried
    out: [o] is the reply that says so, with the backup directory that
    was armed, and [after], the peer that the store holds afterwards, has
    lost what was to be wiped.  For a wipe of all projects [after] is the
    reset state.  For a wipe of one project no project of [after] has the
    target id, every project of [armed] with another id is still there,
    the global tokens and the projects-enabled flag are kept (an unset
    one being initialised) and no wipe is pending. *)
Definition carriedOut (cfg : Config) (pending : PendingWipe.t)
  (armed after : PeerState.t) (o : Outcome) : Prop :=
  match PendingWipe.kind pending with
  | KindAll =>
      o = Returned (WipedAll (PendingWipe.backupDir pending))
      /\ wipedAllState cfg after
  | KindProject =>
      exists projectId target enabled activeName,
        PendingWipe.projectId pending = Some projectId
        /\ In target (PeerState.projects armed)
        /\ Project.id target = projectId
        /\ o = Returned (WipedProject (Project.name target) projectId
                           (PendingWipe.backupDir pending) enabled activeName)
        /\ (forall q, In q (PeerState.projects after) -> Project.id q <> projectId)
        /\ (forall q,
               In q (PeerState.projects armed) -> Project.id q <> projectId ->
               In q (PeerState.projects after))
        /\ PeerState.globalTokens after
           = Some (default [] (PeerState.globalTokens armed))
        /\ PeerState.projectsEnabled after
           = Some (default false (PeerState.projectsEnabled armed))
        /\ PeerState.pendingWipe after = None
  end.

(** An environment like [env0] whose backup copy fails with [code]. *)
Definition envFail (t : Z) (code : string) : Env :=
  {| nowMs := t; nowIso := nowIso (env0 t); nowDate := nowDate (env0 t);
     entropy := entropy (env0 t); randomTail := randomTail (env0 t);
     backupCopy := CopyFailed code |}.

(** The backup failed and the operation was abandoned. *)
Definition aborted (code : string) (o : Outcome) : Prop :=
  o = Threw code \/ o = Returned (Refuse (WipeOneRefused (BackupFailed code))).

(** The peer that [withPeerState] hands to its callback. *)
Definition startPeer (disk : Store) (peerKey : string) : PeerState.t :=
  match disk !! peerKey with
  | Some existing =>
      if PeerState.version existing =? 1 then existing else emptyPeer
  | None => emptyPeer
  end.

(** A configuration that allows one project only. *)
Definition cfgOne : Config :=
  {| storagePath := storagePath cfg0;
     defaultProjectName := "General";
     maxProjects := 1;
     maxInjectedNoteChars := 600;
     maxPrefixChars := 240;
     hardIsolationEnabled := false;
     projectsUxDir := projectsUxDir cfg0;
     projectsUxParentDir := projectsUxParentDir cfg0 |}.

(** A peer stored by a version whose default project was called Inbox. *)
Definition legacyPeer : PeerState.t :=
  {| PeerState.version := 1; PeerState.projectsEnabled := Some true;
     PeerState.activeProjectId := "proj-inbox";
     PeerState.previousProjectId := None;
     PeerState.effectiveFromMessageId := None;
     PeerState.lastProjectId := Some "proj-inbox";
     PeerState.pendingReset := Some false;
     PeerState.projects :=
       [{| Project.id := "proj-inbox"; Project.name := "Inbox";
           Project.archived := None;
           Project.createdAt := "2025-11-02T10:00:00.000Z";
           Project.lastUsedAt := None; Project.note := None;
           Project.tokens := None |}];
     PeerState.globalTokens := None;
     PeerState.pendingWipe := None |}.

(** Case analysis on every test and every scrutinee of the goal. *)
Ltac split_cases :=
  repeat match goal with
         | |- context [if ?b then _ else _] => destruct b
         | |- context [match ?x with _ => _ end] => destruct x eqn:?
         end.

(** Puts the equations between pairs back into the goal. *)
Ltac revert_pairs :=
  repeat match goal with
         | H : _ = (_, _) |- _ => revert H
         end.

(** ** Prompt framing: the [before_agent_start] hook *)

(** The line separator of [prefixLines.join("\n")]. *)
Definition newline : string := String (ascii_of_nat 10) "".

(** [clampText(text, maxChars)] *)
Definition clampText (text : string) (maxChars : Z) : string :=
  if maxChars <=? 0 then ""
  else if Z.of_nat (String.length text) >? maxChars
       then Js.sliceTo (Z.to_nat maxChars) text
       else text.

(** The one-shot instruction pushed after a switch. *)
Definition guardrailLine : string :=
  "Ignore any context not explicitly stated in this project's messages or notes. "
  ++ "If information is missing, proceed with minimal assumptions and state them.".

(** Truthiness of an optional boolean. *)
Definition isTrue (o : option bool) : bool :=
  match o with Some true => true | _ => false end.

(** The lines of the preface for the active project [active]. *)
Definition prefixLinesOf (cfg : Config) (peer : PeerState.t)
  (active : Project.t) : list string :=
  let basePrefix :=
    "Active project: " ++ Project.name active ++ " (" ++ Project.id active
    ++ ")." in
  let note :=
    match Project.note active with
    | Some n =>
        if Js.truthy n then Js.trim (clampText n (maxInjectedNoteChars cfg))
        else ""
    | None => ""
    end in
  ([basePrefix]
   ++ (if isTrue (PeerState.pendingReset peer) then [guardrailLine] else [])
   ++ (if Js.truthy note then ["Project notes (user-provided):"; note] else []))%list.

(** The [before_agent_start] handler on the store [store] returned by
    [loadStoreCached]: the store it leaves behind and the
    [prependContext] it returns, if any. *)
Definition beforeAgentStart (cfg : Config) (env : Env) (ctx : HookCtx)
  (store : Store) : Store * option string :=
  let peerKey := buildPeerKeyFromBeforeAgentStart ctx in
  match store !! peerKey with
  | None => (store, None)
  | Some peer =>
      let '(peer, changed) :=
        ensureDefaultProject env peer (defaultProjectName cfg) in
      let store := persistIfChanged store peerKey peer changed in
      if negb (isTrue (PeerState.projectsEnabled peer)) then (store, None)
      else
        match List.find (hasId (PeerState.activeProjectId peer))
                (PeerState.projects peer) with
        | None => (store, None)
        | Some active =>
            let prefixLines := prefixLinesOf cfg peer active in
            let store :=
              if isTrue (PeerState.pendingReset peer)
              then <[peerKey := PeerState.setPendingReset (Some false) peer]> store
              else store in
            (store,
             Some (clampText (String.concat newline prefixLines)
                     (maxPrefixChars cfg)))
        end
  end.

(** ** The [memory] command *)

(** The replies of the [memory] handler, one constructor per return
    site, with the values their text is built from. *)
Inductive MemoryReply :=
| MemHelp
| MemNoState
| MemUsageGlobalRemember
| MemSavedGlobally (token : string)
| MemNoGlobalTokens
| MemGlobalTokens (tokens : list string)
| MemProjectsOff
| MemNoActiveProject
| MemUsageRemember
| MemSaved (projectName token : string)
| MemNoTokens (projectName : string)
| MemTokens (projectName : string) (tokens : list string).

(** [tokens.includes(token)] *)
Definition includesToken (tokens : list string) (token : string) : bool :=
  existsb (String.eqb token) tokens.

(** [if (!tokens.includes(token)) tokens.push(token)] *)
Definition pushToken (tokens : list string) (token : string) : list string :=
  if includesToken tokens token then tokens else (tokens ++ [token])%list.

(** The handler of the [memory] command on the store [disk]. *)
Definition handleMemoryCommand (cfg : Config) (env : Env) (ctx : CommandCtx)
  (disk : Store) : Store * MemoryReply :=
  let peerKey := buildPeerKeyFromCommandCtx ctx in
  let parts := ctxParts ctx in
  let sub := ctxSub ctx in
  if negb (Js.truthy sub) || String.eqb sub "help" then (disk, MemHelp)
  else
    match disk !! peerKey with
    | None => (disk, MemNoState)
    | Some peer =>
        let '(peer, changed) :=
          ensureDefaultProject env peer (defaultProjectName cfg) in
        let disk := persistIfChanged disk peerKey peer changed in
        let isGlobal := String.eqb sub "global" in
        let sub2 := if isGlobal then Js.toLowerCase (Js.part parts 1) else sub in
        let rest :=
          Js.trim (String.concat " " (skipn (if isGlobal then 2 else 1) parts)) in
        if isGlobal then
          if negb (Js.truthy sub2) then (disk, MemHelp)
          else if String.eqb sub2 "remember" then
            let token := Js.trim rest in
            if negb (Js.truthy token) then (disk, MemUsageGlobalRemember)
            else
              let globalTokens := default [] (PeerState.globalTokens peer) in
              let peer :=
                PeerState.setGlobalTokens (Some (pushToken globalTokens token))
                  peer in
              (<[peerKey := peer]> disk, MemSavedGlobally token)
          else if String.eqb sub2 "list" then
            match default [] (PeerState.globalTokens peer) with
            | [] => (disk, MemNoGlobalTokens)
            | tokens => (disk, MemGlobalTokens tokens)
            end
          else (disk, MemHelp)
        else if negb (isTrue (PeerState.projectsEnabled peer)) then
          (disk, MemProjectsOff)
        else
          match findIdx (hasId (PeerState.activeProjectId peer))
                  (PeerState.projects peer) with
          | None => (disk, MemNoActiveProject)
          | Some (i, active) =>
              let tokens := default [] (Project.tokens active) in
              if String.eqb sub "remember" then
                let token := Js.trim rest in
                if negb (Js.truthy token) then (disk, MemUsageRemember)
                else
                  let active :=
                    Project.setTokens (Some (pushToken tokens token)) active in
                  let peer :=
                    PeerState.setProjects
                      (<[i := active]> (PeerState.projects peer)) peer in
                  (<[peerKey := peer]> disk,
                   MemSaved (Project.name active) token)
              else if String.eqb sub "list" then
                match tokens with
                | [] => (disk, MemNoTokens (Project.name active))
                | _ => (disk, MemTokens (Project.name active) tokens)
                end
              else (disk, MemHelp)
          end
    end.

(** ** The in-memory store cache *)

(** [cachedStore], [cachedStoreLoadedAtMs], [cachedStoreMtimeMs] *)
Record Cache := {
  cachedStore : option Store;
  cachedStoreLoadedAtMs : Z;
  cachedStoreMtimeMs : Z
}.

(** The store file as the cache sees it: what [loadStore] reads from it
    and the [mtimeMs] of [fs.stat], [None] when [stat] throws. *)
Record StoreFile := {
  fileStore : Store;
  fileMtimeMs : option Z
}.

Definition emptyCache : Cache :=
  {| cachedStore := None; cachedStoreLoadedAtMs := 0; cachedStoreMtimeMs := 0 |}.

Definition cacheTtlMs : Z := 1000.

(** [loadStoreCached()] at clock reading [now]: the store returned and
    the cache afterwards. *)
Definition loadStoreCached (now : Z) (file : StoreFile) (cache : Cache)
  : Store * Cache :=
  let reload (mtime : Z) :=
    (fileStore file,
     {| cachedStore := Some (fileStore file); cachedStoreLoadedAtMs := now;
        cachedStoreMtimeMs := mtime |}) in
  let refresh :=
    match fileMtimeMs file with
    | Some mtime =>
        match cachedStore cache with
        | Some store =>
            if mtime =? cachedStoreMtimeMs cache
            then (store,
                  {| cachedStore := Some store; cachedStoreLoadedAtMs := now;
                     cachedStoreMtimeMs := cachedStoreMtimeMs cache |})
            else reload mtime
        | None => reload mtime
        end
    | None => reload 0
    end in
  match cachedStore cache with
  | Some store =>
      if now - cachedStoreLoadedAtMs cache <? cacheTtlMs then (store, cache)
      else refresh
  | None => refresh
  end.

(** [writeStoreAndRefreshCache(store)] at clock reading [now], [mtime]
    being what [fs.stat] reports after the write: the file and the
    cache afterwards. *)
Definition writeStoreAndRefreshCache (store : Store) (now : Z)
  (mtime : option Z) : StoreFile * Cache :=
  ({| fileStore := store; fileMtimeMs := mtime |},
   {| cachedStore := Some store; cachedStoreLoadedAtMs := now;
      cachedStoreMtimeMs := default 0 mtime |}).

(** ** Character classes used in statements *)

(** [[0-9a-f]] *)
Definition isHexChar (c : ascii) : bool :=
  Js.isDigit c || ((97 <=? Js.code c)%nat && (Js.code c <=? 102)%nat).

(** [[a-z0-9-]] *)
Definition isSlugOrHyphen (c : ascii) : bool := isSlugChar c || Js.isHyphen c.

(** The id that [new] gives to a project called [name]. *)
Definition newProjectId (env : Env) (name : string) : string :=
  if Js.truthy (slugifyId name) then "proj-" ++ slugifyId name
  else randomId env "proj".

(** The calendar fields are those of a date of a four-digit year. *)
Definition dateInRange (d : DateParts) : Prop :=
  1000 <= fullYear d <= 9999 /\ 0 <= month0 d <= 11 /\ 1 <= date d <= 31
  /\ 0 <= hours d <= 23 /\ 0 <= minutes d <= 59 /\ 0 <= seconds d <= 59.

(** [n] prints, padded to two places, as two digits. *)
Definition twoDigits (n : Z) : bool :=
  (length (Js.chars (Js.padStart2 (Js.ofZ n))) =? 2)%nat
  && forallb Js.isDigit (Js.chars (Js.padStart2 (Js.ofZ n))).

(** [n] prints as four digits. *)
Definition fourDigits (n : Z) : bool :=
  (length (Js.chars (Js.ofZ n)) =? 4)%nat
  && forallb Js.isDigit (Js.chars (Js.ofZ n)).

(** ** Stores reached by writing one peer *)

(** [touched peerKey disk disk']: [disk'] is [disk] after zero or more
    writes of the entry of [peerKey]. *)
Inductive touched (peerKey : string) (disk : Store) : Store -> Prop :=
| touched_same : touched peerKey disk disk
| touched_write disk' peer :
    touched peerKey disk disk' ->
    touched peerKey disk (<[peerKey := peer]> disk').

(** The hook context of a direct message of peer [u1]. *)
Definition hookCtx0 : HookCtx :=
  {| sessionKey := Some "agent:main:telegram:dm:u1"; channelId := None;
     conversationId := None |}.

(** The stores returned by successive calls of [loadStoreCached] at the
    clock readings [times], the file staying as it is. *)
Fixpoint loadsAt (times : list Z) (file : StoreFile) (cache : Cache)
  : list Store :=
  match times with
  | [] => []
  | now :: rest =>
      let '(store, cache) := loadStoreCached now file cache in
      store :: loadsAt rest file cache
  end.

(** ** The confirm button *)

(** The [callback_data] of the confirm button of a reply that arms a
    wipe. *)
Definition confirmCallback (o : Outcome) : option string :=
  match o with
  | Returned (ArmedAll pending) =>
      Some ("/projects wipe confirm " ++ PendingWipe.nonce pending)
  | Returned (ArmedProject project pending) =>
      Some ("/projects wipe project confirm " ++ PendingWipe.nonce pending
            ++ " " ++ Project.id project)
  | _ => None
  end.

(** The string has no white space. *)
Definition noSpace (s : string) : Prop :=
  Forall (fun c => Js.isSpace c = false) (Js.chars s).

(** The replacement room key that [resolve_room_key] builds for the
    project id [projectId]. *)
Definition roomKeyFor (event : RoomKeyEvent) (projectId : string)
  : option string :=
  let suffix := sanitizeRoomKeySuffixToken projectId in
  if negb (Js.truthy suffix) then None
  else
    let base := Js.trim (default "" (evRoomKey event)) in
    if negb (Js.truthy base) then None
    else Some (base ++ ":proj:" ++ suffix).

(** ** Reading a nonce back *)



(** ** The handlers on the store file and the cache *)

(** The store file and the cache variables of the plugin. *)
Record Sys := {
  sysFile : StoreFile;
  sysCache : Cache
}.

(** What one write of the store file meets outside the plugin: the
    reading of [Date.now()] after it and the [mtimeMs] that [fs.stat]
    reports for the written file, [None] when [stat] throws. *)
Record WriteStamp := {
  stampNowMs : Z;
  stampMtimeMs : option Z
}.

(** [await writeJsonAtomic(filePath, store)] of [withPeerState]: the file
    is written, the cache variables stay as they are. *)
Definition sysWriteJsonAtomic (store : Store) (w : WriteStamp) (sys : Sys)
  : Sys :=
  {| sysFile := {| fileStore := store; fileMtimeMs := stampMtimeMs w |};
     sysCache := sysCache sys |}.

(** [await writeStoreAndRefreshCache(store)] *)
Definition sysWriteStoreAndRefreshCache (store : Store) (w : WriteStamp)
  : Sys :=
  let '(file, cache) :=
    writeStoreAndRefreshCache store (stampNowMs w) (stampMtimeMs w) in
  {| sysFile := file; sysCache := cache |}.

(** [const store = await loadStoreCached()] at clock reading [now]. *)
Definition sysLoadStoreCached (now : Z) (sys : Sys) : Store * Sys :=
  let '(store, cache) := loadStoreCached now (sysFile sys) (sysCache sys) in
  (store, {| sysFile := sysFile sys; sysCache := cache |}).

(** The commands that [handleProjectsCommand] serves through
    [withPeerState]: [on], [off], [new <name>] and [switch <key>]. *)
Definition servedByWithPeerState (ctx : CommandCtx) : bool :=
  String.eqb (ctxSub ctx) "on"
  || String.eqb (ctxSub ctx) "off"
  || (String.eqb (ctxSub ctx) "new"
      && Js.truthy (Js.trim (Js.sliceFrom 3 (ctxArgs ctx))))
  || (String.eqb (ctxSub ctx) "switch"
      && Js.truthy (Js.trim (Js.sliceFrom 6 (ctxArgs ctx)))).

(** [handleProjectsCommand(ctx)] on the file and the cache, for the
    commands served through [withPeerState]: [loadStore] reads the file,
    [writeJsonAtomic] writes it, and the cache variables are neither
    read nor refreshed.  The other commands are not described at this
    level. *)
Definition sysHandleProjectsCommand (cfg : Config) (env : Env)
  (ctx : CommandCtx) (w : WriteStamp) (sys : Sys) : option (Sys * Outcome) :=
  if servedByWithPeerState ctx
  then
    let r := handleProjectsCommand cfg env ctx (fileStore (sysFile sys)) in
    Some (sysWriteJsonAtomic (fst r) w sys, snd r)
  else None.

(** The [before_agent_start] handler on the file and the cache; [w1] and
    [w2] are what its first and its second write meet. *)
Definition sysBeforeAgentStart (cfg : Config) (env : Env)
  (w1 w2 : WriteStamp) (ctx : HookCtx) (sys : Sys) : Sys * option string :=
  let peerKey := buildPeerKeyFromBeforeAgentStart ctx in
  let '(store, sys) := sysLoadStoreCached (nowMs env) sys in
  match store !! peerKey with
  | None => (sys, None)
  | Some peer =>
      let '(peer, changed) :=
        ensureDefaultProject env peer (defaultProjectName cfg) in
      let '(store, sys) :=
        if changed
        then (<[peerKey := peer]> store,
              sysWriteStoreAndRefreshCache (<[peerKey := peer]> store) w1)
        else (store, sys) in
      if negb (isTrue (PeerState.projectsEnabled peer)) then (sys, None)
      else
        match List.find (hasId (PeerState.activeProjectId peer))
                (PeerState.projects peer) with
        | None => (sys, None)
        | Some active =>
            let prefixLines := prefixLinesOf cfg peer active in
            let sys :=
              if isTrue (PeerState.pendingReset peer)
              then sysWriteStoreAndRefreshCache
                     (<[peerKey := PeerState.setPendingReset (Some false) peer]>
                        store) w2
              else sys in
            (sys,
             Some (clampText (String.concat newline prefixLines)
                     (maxPrefixChars cfg)))
        end
  end.

(** The conditions that [resolve_room_key] checks before it loads the
    store. *)
Definition roomKeyGuards (cfg : Config) (event : RoomKeyEvent) : bool :=
  hardIsolationEnabled cfg
  && isSomeStr (evChannel event) "telegram"
  && match evPeerKind event with Some Dm => true | _ => false end
  && Js.truthy (Js.trim (default "" (evPeerId event))).

(** The [resolve_room_key] handler on the file and the cache; [w] is what
    its write meets. *)
Definition sysResolveRoomKey (cfg : Config) (env : Env) (w : WriteStamp)
  (event : RoomKeyEvent) (sys : Sys) : Sys * option string :=
  if negb (hardIsolationEnabled cfg) then (sys, None)
  else if negb (isSomeStr (evChannel event) "telegram") then (sys, None)
  else if negb (match evPeerKind event with Some Dm => true | _ => false end)
  then (sys, None)
  else
    let peerId := Js.trim (default "" (evPeerId event)) in
    if negb (Js.truthy peerId) then (sys, None)
    else
      let peerKey := "telegram:" ++ peerId in
      let '(store, sys) := sysLoadStoreCached (nowMs env) sys in
      match store !! peerKey with
      | None => (sys, None)
      | Some peer =>
          let '(peer, changed) :=
            ensureDefaultProject env peer (defaultProjectName cfg) in
          let sys :=
            if changed
            then sysWriteStoreAndRefreshCache (<[peerKey := peer]> store) w
            else sys in
          if negb (match PeerState.projectsEnabled peer with
                   | Some true => true | _ => false end)
          then (sys, None)
          else
            let activeId :=
              match evMessageId event,
                    PeerState.effectiveFromMessageId peer with
              | Some msgId, Some effectiveFrom =>
                  if msgId <? effectiveFrom
                  then default (PeerState.activeProjectId peer)
                         (PeerState.previousProjectId peer)
                  else PeerState.activeProjectId peer
              | _, _ => PeerState.activeProjectId peer
              end in
            let suffix := sanitizeRoomKeySuffixToken activeId in
            if negb (Js.truthy suffix) then (sys, None)
            else
              let base := Js.trim (default "" (evRoomKey event)) in
              if negb (Js.truthy base) then (sys, None)
              else (sys, Some (base ++ ":proj:" ++ suffix))
      end.

(** The store file with the store [store] and an [mtimeMs] of [mtime]. *)
Definition fileOf (store : Store) (mtime : Z) : StoreFile :=
  {| fileStore := store; fileMtimeMs := Some mtime |}.

(** A write that [stat] dates at [t], which the clock then shows too. *)
Definition stampAt (t : Z) : WriteStamp :=
  {| stampNowMs := t; stampMtimeMs := Some t |}.

(** * Properties *)

(** ** The model on the scenarios of [reset-wipe.test.mjs] and other
    concrete inputs *)

Example toLowerCase_ex : Js.toLowerCase "TeleGram:U1" = "telegram:u1".
Proof. reflexivity. Qed.

Example trim_ex : Js.trim "  wipe  confirm ab12 " = "wipe  confirm ab12".
Proof. reflexivity. Qed.

Example splitWs_ex :
  Js.splitWs "wipe  project confirm ab12 proj-p2"
  = ["wipe"; "project"; "confirm"; "ab12"; "proj-p2"].
Proof. reflexivity. Qed.

Example ofZ_ex : Js.padStart2 (Js.ofZ 7) = "07" /\ Js.ofZ 2026 = "2026".
Proof. split; reflexivity. Qed.

Example hex_ex : Js.hex [Byte.xde; Byte.xad; Byte.xbe; Byte.xef] = "deadbeef".
Proof. reflexivity. Qed.

Example pathJoin_ex :
  pathJoin "/home/u/.openclaw" "backup_projects_ux_20260105-093007"
  = "/home/u/.openclaw/backup_projects_ux_20260105-093007"
  /\ pathJoin "/" "backup" = "/backup"
  /\ pathJoin "." "backup" = "backup"
  /\ pathJoin "" "backup" = "backup"
  /\ pathJoin "state//../data/./" "backup" = "data/backup"
  /\ pathJoin "../.." "backup" = "../../backup"
  /\ pathJoin "/.." "backup" = "/backup"
  /\ Path.normalize "a/b/../../.." = ".."
  /\ Path.normalize "/a/./b//" = "/a/b/"
  /\ Path.normalize "./" = "./".
Proof. repeat split; reflexivity. Qed.

Example formatBackupStamp_ex :
  formatBackupStamp
    {| fullYear := 2026; month0 := 0; date := 5; hours := 9; minutes := 30;
       seconds := 7 |} = "20260105-093007".
Proof. reflexivity. Qed.

Example slugifyId_ex :
  slugifyId "  My Project!! v2 " = "my-project-v2" /\ slugifyId "General" = "general"
  /\ slugifyId "???" = "" /\ slugifyId "a b" = slugifyId "a-b".
Proof. repeat split; reflexivity. Qed.

Example peerKey_command_ex :
  buildPeerKeyFromCommandCtx
    {| channel := Some "Telegram"; senderId := Some "4711"; args := None;
       messageId := None |} = "telegram:4711".
Proof. reflexivity. Qed.

Example peerKey_hook_ex :
  buildPeerKeyFromBeforeAgentStart
    {| sessionKey := Some "agent:main:telegram:dm:4711"; channelId := None;
       conversationId := None |} = "telegram:4711".
Proof. reflexivity. Qed.

(** ** [ensureDefaultProject] *)

Lemma truthy_defaultProjectIdOf d : Js.truthy (defaultProjectIdOf d) = true.
Proof. reflexivity. Qed.

Lemma initTokens_defaultProject env d :
  initTokens (defaultProject env d) = defaultProject env d.
Proof. reflexivity. Qed.

Lemma existsb_lacksTokens_rename d ps :
  existsb lacksTokens (List.map (renameLegacy d) ps) = existsb lacksTokens ps.
Proof.
  induction ps as [|p ps IH]; simpl; [reflexivity|].
  rewrite IH. f_equal. unfold renameLegacy.
  destruct (needsRename d p); reflexivity.
Qed.

Lemma firstLive_nonempty p ps : exists f, firstLive (p :: ps) = Some f.
Proof.
  unfold firstLive. destruct (List.find Project.live (p :: ps)); eauto.
Qed.

Lemma ensureDefaultProject_eq env peer d :
  ensureDefaultProject env peer d = (healed env d peer, healChanged d peer).
Proof.
  destruct peer as [v en act prev eff last reset ps gt pw].
  unfold ensureDefaultProject, healed, healChanged, healedActive, healedProjects.
  cbn [PeerState.projects PeerState.setProjects PeerState.version
       PeerState.projectsEnabled PeerState.activeProjectId
       PeerState.previousProjectId PeerState.effectiveFromMessageId
       PeerState.lastProjectId PeerState.pendingReset PeerState.globalTokens
       PeerState.pendingWipe].
  destruct ps as [|p ps].
  - cbn. destruct gt, en; reflexivity.
  - cbn [List.map]. cbn [PeerState.projects PeerState.setProjects
       PeerState.version PeerState.projectsEnabled PeerState.activeProjectId
       PeerState.previousProjectId PeerState.effectiveFromMessageId
       PeerState.lastProjectId PeerState.pendingReset PeerState.globalTokens
       PeerState.pendingWipe PeerState.setGlobalTokens
       PeerState.setActiveProjectId PeerState.setProjectsEnabled].
    rewrite <- (existsb_lacksTokens_rename d (p :: ps)). cbn [List.map].
    destruct (firstLive_nonempty (initTokens (renameLegacy d p))
                (List.map initTokens (List.map (renameLegacy d) ps))) as [f Hf].
    destruct gt, en, (Js.truthy act) eqn:Ht; cbn;
      rewrite ?Ht; cbn; rewrite ?Hf; cbn;
      rewrite ?orb_true_r, ?orb_false_r; reflexivity.
Qed.

Lemma ensureDefaultProject_fst env peer d :
  fst (ensureDefaultProject env peer d) = healed env d peer.
Proof. rewrite ensureDefaultProject_eq. reflexivity. Qed.

Lemma ensureDefaultProject_snd env peer d :
  snd (ensureDefaultProject env peer d) = healChanged d peer.
Proof. rewrite ensureDefaultProject_eq. reflexivity. Qed.

Lemma live_renameLegacy d p : Project.live (renameLegacy d p) = Project.live p.
Proof. unfold renameLegacy. destruct (needsRename d p); reflexivity. Qed.

Lemma live_initTokens p : Project.live (initTokens p) = Project.live p.
Proof. unfold initTokens. destruct (lacksTokens p); reflexivity. Qed.

Lemma id_renameLegacy d p : Project.id (renameLegacy d p) = Project.id p.
Proof. unfold renameLegacy. destruct (needsRename d p); reflexivity. Qed.

Lemma id_initTokens p : Project.id (initTokens p) = Project.id p.
Proof. unfold initTokens. destruct (lacksTokens p); reflexivity. Qed.

Lemma needsRename_renameLegacy d p : needsRename d (renameLegacy d p) = false.
Proof.
  unfold renameLegacy. destruct (needsRename d p) eqn:E; [|exact E].
  unfold needsRename. cbn [Project.setName Project.name].
  rewrite String.eqb_refl. apply andb_false_r.
Qed.

Lemma needsRename_initTokens d p : needsRename d (initTokens p) = needsRename d p.
Proof. unfold initTokens. destruct (lacksTokens p); reflexivity. Qed.

Lemma lacksTokens_initTokens p : lacksTokens (initTokens p) = false.
Proof.
  unfold initTokens. destruct (lacksTokens p) eqn:E; [reflexivity | exact E].
Qed.

Lemma needsRename_defaultProject env d : needsRename d (defaultProject env d) = false.
Proof.
  unfold needsRename. cbn [defaultProject Project.name].
  rewrite String.eqb_refl. apply andb_false_r.
Qed.

Lemma healedProjects_nonempty env d ps : healedProjects env d ps <> [].
Proof. destruct ps; discriminate. Qed.

Lemma existsb_false_forall {A} (f : A -> bool) l :
  (forall x, In x l -> f x = false) -> existsb f l = false.
Proof.
  induction l as [|a l IH]; intros H; simpl; [reflexivity|].
  rewrite (H a (or_introl eq_refl)), IH; [reflexivity|].
  intros x Hx. apply H. right. exact Hx.
Qed.

Lemma healedProjects_noRename env d ps :
  existsb (needsRename d) (healedProjects env d ps) = false.
Proof.
  apply existsb_false_forall. intros x Hx. destruct ps as [|p ps].
  - destruct Hx as [<-|[]]. apply needsRename_defaultProject.
  - unfold healedProjects in Hx. apply in_map_iff in Hx as [y [<- Hy]].
    apply in_map_iff in Hy as [z [<- _]].
    rewrite needsRename_initTokens. apply needsRename_renameLegacy.
Qed.

Lemma healedProjects_hasTokens env d ps :
  existsb lacksTokens (healedProjects env d ps) = false.
Proof.
  apply existsb_false_forall. intros x Hx. destruct ps as [|p ps].
  - destruct Hx as [<-|[]]. reflexivity.
  - unfold healedProjects in Hx. apply in_map_iff in Hx as [y [<- _]].
    apply lacksTokens_initTokens.
Qed.

(** The ids and the archived flags of the collection survive healing. *)
Lemma healedProjects_ids env d p ps :
  List.map Project.id (healedProjects env d (p :: ps))
  = List.map Project.id (p :: ps).
Proof.
  unfold healedProjects. rewrite !List.map_map. apply List.map_ext.
  intros a. rewrite id_initTokens. apply id_renameLegacy.
Qed.

Lemma find_live_some ps :
  existsb Project.live ps = true ->
  exists f, List.find Project.live ps = Some f.
Proof.
  induction ps as [|p ps IH]; simpl; [discriminate|].
  destruct (Project.live p); eauto.
Qed.

Lemma existsb_live_healed env d p ps :
  existsb Project.live (healedProjects env d (p :: ps))
  = existsb Project.live (p :: ps).
Proof.
  unfold healedProjects. generalize (p :: ps). intros l.
  induction l as [|a l IH]; [reflexivity|]. cbn [List.map existsb].
  rewrite IH, live_initTokens, live_renameLegacy. reflexivity.
Qed.

Lemma truthy_false s : Js.truthy s = false <-> s = "".
Proof.
  unfold Js.truthy. destruct (String.eqb_spec s ""); simpl; split;
    congruence.
Qed.

Lemma truthy_true s : Js.truthy s = true <-> s <> "".
Proof.
  unfold Js.truthy. destruct (String.eqb_spec s ""); simpl; split;
    congruence.
Qed.

(** The active id after healing is non-empty as soon as no project has
    an empty id. *)
Lemma healedActive_truthy env d peer :
  (forall p, In p (PeerState.projects peer) -> Project.id p <> "") ->
  Js.truthy (healedActive env d peer) = true.
Proof.
  intros Hid. unfold healedActive.
  destruct (PeerState.projects peer) as [|p ps] eqn:E; [reflexivity|].
  destruct (Js.truthy (PeerState.activeProjectId peer)) eqn:Ht; [exact Ht|].
  destruct (firstLive_nonempty (initTokens (renameLegacy d p))
              (List.map initTokens (List.map (renameLegacy d) ps))) as [f Hf].
  cbn [healedProjects List.map]. rewrite Hf.
  assert (In (Project.id f) (List.map Project.id (p :: ps))) as Hin.
  { rewrite <- (healedProjects_ids env d). apply in_map.
    unfold firstLive in Hf. cbn [healedProjects List.map].
    destruct (List.find Project.live _) eqn:Hfind.
    - injection Hf as <-. apply find_some in Hfind. tauto.
    - cbn in Hf. injection Hf as <-. left. reflexivity. }
  apply in_map_iff in Hin as [q [Hq Hin]].
  apply truthy_true. rewrite <- Hq. apply Hid. exact Hin.
Qed.

(** A second call finds nothing to change exactly when the first one
    left a non-empty active id. *)
Lemma healChanged_healed env d peer :
  healChanged d (healed env d peer)
  = negb (Js.truthy (healedActive env d peer)).
Proof.
  unfold healChanged. cbn [healed PeerState.projects PeerState.globalTokens
    PeerState.projectsEnabled PeerState.activeProjectId].
  rewrite healedProjects_noRename, healedProjects_hasTokens.
  destruct (healedProjects env d (PeerState.projects peer)) eqn:E.
  - exfalso. exact (healedProjects_nonempty _ _ _ E).
  - cbn. rewrite orb_false_r. reflexivity.
Qed.

Example ensureDefaultProject_fresh :
  ensureDefaultProject (env0 0) emptyPeer "General"
  = ({| PeerState.version := 1; PeerState.projectsEnabled := Some false;
        PeerState.activeProjectId := "proj-general";
        PeerState.previousProjectId := None;
        PeerState.effectiveFromMessageId := None;
        PeerState.lastProjectId := Some "proj-general";
        PeerState.pendingReset := Some false;
        PeerState.projects := [generalProject];
        PeerState.globalTokens := Some [];
        PeerState.pendingWipe := None |}, true).
Proof. reflexivity. Qed.

Example ensureDefaultProject_unsetActive :
  let r := ensureDefaultProject (env0 0) unsetActivePeer "General" in
  PeerState.activeProjectId (fst r) = "proj-general" /\ snd r = true.
Proof. split; reflexivity. Qed.

Example ensureDefaultProject_legacy :
  ensureDefaultProject (env0 0) legacyPeer "General"
  = ({| PeerState.version := 1; PeerState.projectsEnabled := Some true;
        PeerState.activeProjectId := "proj-inbox";
        PeerState.previousProjectId := None;
        PeerState.effectiveFromMessageId := None;
        PeerState.lastProjectId := Some "proj-inbox";
        PeerState.pendingReset := Some false;
        PeerState.projects :=
          [{| Project.id := "proj-inbox"; Project.name := "General";
              Project.archived := None;
              Project.createdAt := "2025-11-02T10:00:00.000Z";
              Project.lastUsedAt := None; Project.note := None;
              Project.tokens := Some [] |}];
        PeerState.globalTokens := Some [];
        PeerState.pendingWipe := None |}, true).
Proof. reflexivity. Qed.

(** C3, as stated, fails: a stored peer whose non-empty active id names
    no project keeps that id through [ensureDefaultProject], so the active
    id does not resolve to a project of the collection. *)
Lemma C3_dangling_active_kept :
  let peer' := fst (ensureDefaultProject (env0 0) danglingPeer "General") in
  ~ (PeerState.projects peer' <> []
     /\ exists p, In p (PeerState.projects peer')
                  /\ Project.id p = PeerState.activeProjectId peer'
                  /\ Project.live p = true).
Proof.
  cbn. intros [_ [p [[<-|[]] [H _]]]]. discriminate H.
Qed.

(** C3 (amended): after [ensureDefaultProject] the project collection is
    non-empty; when the collection was empty, or the active id was unset
    (empty) and some project is not archived, the active id is the id of
    a project of the collection that is not archived; a non-empty active
    id of a non-empty collection is left as it is, whether or not it
    names a project. *)
Theorem C3_ensureDefault_active env peer d :
  let peer' := fst (ensureDefaultProject env peer d) in
  PeerState.projects peer' <> []
  /\ ((PeerState.projects peer = []
       \/ (PeerState.activeProjectId peer = ""
           /\ existsb Project.live (PeerState.projects peer) = true)) ->
      exists p, In p (PeerState.projects peer')
                /\ Project.id p = PeerState.activeProjectId peer'
                /\ Project.live p = true)
  /\ (PeerState.projects peer <> [] ->
      PeerState.activeProjectId peer <> "" ->
      PeerState.activeProjectId peer' = PeerState.activeProjectId peer).
Proof.
  cbv zeta. rewrite ensureDefaultProject_fst.
  cbn [healed PeerState.projects PeerState.activeProjectId].
  split; [apply healedProjects_nonempty|]. split.
  - intros [Hnil | [Hact Hlive]].
    + unfold healedActive. rewrite Hnil. cbn.
      exists (defaultProject env d). repeat split. left. reflexivity.
    + destruct (PeerState.projects peer) as [|q qs] eqn:E; [discriminate|].
      unfold healedActive. rewrite E, Hact. cbn [Js.truthy String.eqb negb].
      rewrite <- (existsb_live_healed env d) in Hlive.
      apply find_live_some in Hlive as [f Hf].
      unfold firstLive. rewrite Hf. exists f.
      apply find_some in Hf as [Hin Hl]. auto.
  - intros Hne Hact. unfold healedActive.
    destruct (PeerState.projects peer); [congruence|].
    apply truthy_true in Hact. rewrite Hact. reflexivity.
Qed.

Lemma C3_ensureDefault_active_witness :
  let peer' := fst (ensureDefaultProject (env0 0) unsetActivePeer "General") in
  (exists p, In p (PeerState.projects peer')
             /\ Project.id p = PeerState.activeProjectId peer'
             /\ Project.live p = true)
  /\ PeerState.activeProjectId
       (fst (ensureDefaultProject (env0 0) danglingPeer "General"))
     = "proj-old".
Proof.
  split.
  - apply (C3_ensureDefault_active (env0 0) unsetActivePeer "General").
    right. split; reflexivity.
  - apply (C3_ensureDefault_active (env0 0) danglingPeer "General");
      discriminate.
Defined.

(** The flag of a second call: it reports a change exactly when the
    active id that the first call left is empty. *)
Lemma second_call_changed env env' peer d :
  snd (ensureDefaultProject env' (fst (ensureDefaultProject env peer d)) d)
  = negb (Js.truthy
            (PeerState.activeProjectId (fst (ensureDefaultProject env peer d)))).
Proof.
  rewrite !ensureDefaultProject_fst, ensureDefaultProject_snd.
  apply healChanged_healed.
Qed.


(** ** Strings *)

Lemma str_chars s : Js.str (Js.chars s) = s.
Proof. apply string_of_list_ascii_of_string. Qed.

Lemma chars_str l : Js.chars (Js.str l) = l.
Proof. apply list_ascii_of_string_of_list_ascii. Qed.

Lemma chars_append a b : Js.chars (a ++ b) = (Js.chars a ++ Js.chars b)%list.
Proof.
  unfold Js.chars. induction a as [|c a IH]; [reflexivity|].
  change (String c a ++ b) with (String c (a ++ b)).
  cbn [list_ascii_of_string app]. f_equal. exact IH.
Qed.

Lemma str_app l k : Js.str (l ++ k)%list = Js.str l ++ Js.str k.
Proof.
  unfold Js.str. induction l as [|c l IH]; [reflexivity|].
  cbn [string_of_list_ascii app].
  change (String c (string_of_list_ascii l) ++ string_of_list_ascii k)
    with (String c (string_of_list_ascii l ++ string_of_list_ascii k)).
  f_equal. exact IH.
Qed.

Lemma toLowerCase_append a b :
  Js.toLowerCase (a ++ b) = Js.toLowerCase a ++ Js.toLowerCase b.
Proof.
  unfold Js.toLowerCase. rewrite chars_append, List.map_app. apply str_app.
Qed.

Lemma stripPrefix_app p l : Js.stripPrefix p (p ++ l)%list = Some l.
Proof.
  induction p as [|c p IH]; [reflexivity|].
  cbn. rewrite Ascii.eqb_refl. exact IH.
Qed.

Lemma stripPrefix_inv p l rest :
  Js.stripPrefix p l = Some rest -> l = (p ++ rest)%list.
Proof.
  revert l. induction p as [|a p IH]; intros l H.
  - cbn in H. injection H as ->. reflexivity.
  - destruct l as [|b l]; [discriminate|]. cbn in H.
    destruct (Ascii.eqb_spec a b); [|discriminate].
    subst. cbn. f_equal. apply IH. exact H.
Qed.

Lemma includesChars_app p pre l :
  Js.includesChars p (pre ++ p ++ l)%list = true.
Proof.
  induction pre as [|c pre IH]; cbn [app].
  - pose proof (stripPrefix_app p l) as H.
    destruct (p ++ l)%list; cbn [Js.includesChars]; rewrite H; reflexivity.
  - cbn [Js.includesChars].
    destruct (Js.stripPrefix p (c :: pre ++ p ++ l)%list); [reflexivity|].
    exact IH.
Qed.

(** The marker followed by a non-empty colon-free [s] is matched where it
    stands: at no earlier position can the match reach the end of the
    string without crossing the last colon of the marker. *)
Lemma matchTelegramDm_suffix pre s :
  s <> [] -> forallb noColon s = true ->
  matchTelegramDm (pre ++ Js.chars ":telegram:dm:" ++ s)%list = Some s.
Proof.
  intros Hne Hs. induction pre as [|c pre IH].
  - cbn [app]. destruct s as [|a s]; [congruence|].
    cbn -[forallb noColon]. rewrite Hs. reflexivity.
  - cbn [app matchTelegramDm].
    destruct (Js.stripPrefix (Js.chars ":telegram:dm:")
                (c :: pre ++ Js.chars ":telegram:dm:" ++ s)%list)
      as [rest|] eqn:E; [|exact IH].
    destruct rest as [|r rest]; [exact IH|].
    assert (forallb noColon (r :: rest) = false) as ->; [|exact IH].
    apply stripPrefix_inv in E.
    apply not_true_is_false. intros Hall.
    rewrite forallb_forall in Hall.
    assert (In ":"%char (r :: rest)) as Hin.
    { assert (length (c :: pre ++ Js.chars ":telegram:dm:" ++ s)%list
              = length (Js.chars ":telegram:dm:" ++ r :: rest)%list) as Hlen
        by (rewrite E; reflexivity).
      assert (drop 13 (c :: pre ++ Js.chars ":telegram:dm:" ++ s)%list
              = r :: rest) as Hdrop by (rewrite E; reflexivity).
      rewrite <- Hdrop.
      apply list_elem_of_In, list_elem_of_lookup.
      exists (length pre). rewrite lookup_drop.
      change (c :: pre ++ Js.chars ":telegram:dm:" ++ s)%list
        with ((c :: pre) ++ Js.chars ":telegram:dm:" ++ s)%list.
      rewrite lookup_app_r by (cbn; lia).
      replace (13 + length pre - length (c :: pre))%nat with 12%nat
        by (cbn; lia).
      reflexivity. }
    specialize (Hall _ Hin). discriminate Hall.
Qed.

(** ** Peer identity *)

Example peerKey_hook_fallbacks :
  buildPeerKeyFromBeforeAgentStart
    {| sessionKey := Some "agent:main:slack:C1"; channelId := Some "Slack";
       conversationId := Some " C1 " |} = "slack:C1"
  /\ buildPeerKeyFromBeforeAgentStart
       {| sessionKey := Some "agent:main:telegram:group:7:topic:2";
          channelId := None; conversationId := None |}
     = "unknown:agent:main:telegram:group:7:topic:2"
  /\ buildPeerKeyFromBeforeAgentStart
       {| sessionKey := None; channelId := None; conversationId := None |}
     = "unknown:unknown".
Proof. repeat split; reflexivity. Qed.

(** The hook rule lower-cases the session key before it extracts the peer
    id, the command rule keeps the sender id as it is, so the two keys
    differ for a sender id with an upper-case letter. *)
Lemma keys_differ_on_uppercase :
  buildPeerKeyFromCommandCtx
    {| channel := Some "telegram"; senderId := Some "U1"; args := None;
       messageId := None |}
  <> buildPeerKeyFromBeforeAgentStart
       {| sessionKey := Some ("agent:main" ++ ":telegram:dm:" ++ "U1");
          channelId := Some "telegram"; conversationId := None |}.
Proof. vm_compute. discriminate. Qed.

(** Where the two rules do agree: for every sender id [s] that is
    non-empty, contains no colon and no upper-case letter, the key derived
    from a command context with channel [telegram] and sender id [s]
    equals the key derived from a hook context whose session key ends in
    [:telegram:dm:] followed by [s], whatever the rest of either
    context. *)
Lemma peer_keys_agree (s pre : string) (a : option string)
  (m : option Z) (chan conv : option string) :
  s <> "" ->
  forallb noColon (Js.chars s) = true ->
  Js.toLowerCase s = s ->
  buildPeerKeyFromCommandCtx
    {| channel := Some "telegram"; senderId := Some s; args := a;
       messageId := m |}
  = buildPeerKeyFromBeforeAgentStart
      {| sessionKey := Some (pre ++ ":telegram:dm:" ++ s); channelId := chan;
         conversationId := conv |}.
Proof.
  intros Hne Hcolon Hlow.
  assert (forall x, Js.toLowerCase (x ++ ":telegram:dm:" ++ s)
                    = Js.toLowerCase x ++ ":telegram:dm:" ++ s) as Hl.
  { intros x. rewrite !toLowerCase_append, Hlow. reflexivity. }
  assert (Js.chars s <> []) as Hne'.
  { intros E. apply Hne. rewrite <- (str_chars s), E. reflexivity. }
  unfold buildPeerKeyFromBeforeAgentStart, buildPeerKeyFromCommandCtx,
    extractTelegramDmPeerIdFromSessionKey.
  cbn [sessionKey channelId conversationId channel senderId default
       from_option id].
  rewrite !Hl.
  assert (Js.includes (Js.toLowerCase pre ++ ":telegram:dm:" ++ s) ":telegram:"
          = true) as ->.
  { unfold Js.includes. rewrite !chars_append.
    change (Js.chars ":telegram:dm:")
      with (Js.chars ":telegram:" ++ Js.chars "dm:")%list.
    rewrite <- app_assoc. apply includesChars_app. }
  rewrite orb_true_r, !chars_append.
  rewrite (matchTelegramDm_suffix _ _ Hne' Hcolon).
  cbn [fmap option_fmap option_map]. rewrite str_chars.
  apply truthy_true in Hne. rewrite Hne. reflexivity.
Qed.

Example peer_keys_agree_ex :
  buildPeerKeyFromCommandCtx
    {| channel := Some "telegram"; senderId := Some "4711"; args := Some "on";
       messageId := Some 1 |}
  = buildPeerKeyFromBeforeAgentStart
      {| sessionKey := Some ("agent:main" ++ ":telegram:dm:" ++ "4711");
         channelId := None; conversationId := Some "4711" |}.
Proof.
  apply (peer_keys_agree "4711" "agent:main" (Some "on") (Some 1) None
           (Some "4711")); [discriminate | reflexivity | reflexivity].
Qed.

(** C8: the two rules disagree for a sender id with an upper-case
    letter.  The command rule, like the [resolve_room_key] hook, keeps the
    id as it is; [buildPeerKeyFromBeforeAgentStart] extracts it from the
    lower-cased session key.  After [/projects on] by sender [U1] the
    state is stored under [telegram:U1]: the routing hook finds it and
    returns the project room key, the framing hook looks under
    [telegram:u1], finds nothing and adds no preface.  The hooks are
    taken on the store written and, with the store file and the cache, at
    their first call, when nothing is cached. *)
Theorem C8_uppercase_sender_unframed :
  let command :=
    {| channel := Some "telegram"; senderId := Some "U1"; args := Some "on";
       messageId := Some 1 |} in
  let hook :=
    {| sessionKey := Some "agent:main:telegram:dm:U1";
       channelId := Some "telegram"; conversationId := None |} in
  let event :=
    {| evChannel := Some "telegram"; evPeerKind := Some Dm;
       evPeerId := Some "U1"; evMessageId := Some 2;
       evRoomKey := Some "agent:main:telegram:dm:U1" |} in
  let store := fst (handleProjectsCommand cfg0 (env0 1) command ∅) in
  buildPeerKeyFromCommandCtx command = "telegram:U1"
  /\ buildPeerKeyFromBeforeAgentStart hook = "telegram:u1"
  /\ buildPeerKeyFromCommandCtx command <> buildPeerKeyFromBeforeAgentStart hook
  /\ (PeerState.projectsEnabled <$> store !! "telegram:U1") = Some (Some true)
  /\ store !! "telegram:u1" = None
  /\ snd (resolveRoomKey cfg0 (env0 2) event store)
     = Some "agent:main:telegram:dm:U1:proj:proj-general"
  /\ snd (beforeAgentStart cfg0 (env0 2) hook store) = None
  /\ (let sys := {| sysFile := fileOf ∅ 0; sysCache := emptyCache |} in
      exists sys' project,
        sysHandleProjectsCommand cfg0 (env0 1) command (stampAt 1) sys
        = Some (sys', Returned (ProjectsOn (Some project)))
        /\ Project.id project = "proj-general"
        /\ snd (sysResolveRoomKey cfg0 (env0 2) (stampAt 2) event sys')
           = Some "agent:main:telegram:dm:U1:proj:proj-general"
        /\ snd (sysBeforeAgentStart cfg0 (env0 2) (stampAt 2) (stampAt 2)
                  hook sys') = None).
Proof.
  cbv zeta. split; [reflexivity|]. split; [vm_compute; reflexivity|].
  split; [vm_compute; discriminate|].
  split; [vm_compute; reflexivity|]. split; [vm_compute; reflexivity|].
  split; [vm_compute; reflexivity|]. split; [vm_compute; reflexivity|].
  eexists. eexists. split; [vm_compute; reflexivity|].
  split; [reflexivity|]. split; vm_compute; reflexivity.
Qed.

(** ** Routing-key suffix *)

Example sanitize_ex :
  sanitizeRoomKeySuffixToken "  Proj-My_Work!! 2 " = "proj-my_work-2"
  /\ sanitizeRoomKeySuffixToken "---" = ""
  /\ sanitizeRoomKeySuffixToken "" = "".
Proof. repeat split; reflexivity. Qed.

Lemma length_chars s : length (Js.chars s) = String.length s.
Proof.
  unfold Js.chars. induction s as [|c s IH]; [reflexivity|].
  cbn. f_equal. exact IH.
Qed.

Lemma Forall_dropWhile (P : ascii -> Prop) f l :
  Forall P l -> Forall P (Js.dropWhile f l).
Proof.
  induction 1 as [|c l Hc Hl IH]; cbn; [constructor|].
  destruct (f c); [exact IH | constructor; assumption].
Qed.

Lemma Forall_dropWhileEnd (P : ascii -> Prop) f l :
  Forall P l -> Forall P (Js.dropWhileEnd f l).
Proof.
  intros H. unfold Js.dropWhileEnd.
  apply Forall_rev, Forall_dropWhile, Forall_rev. exact H.
Qed.

Lemma Forall_replaceRuns (P : ascii -> Prop) ok b l :
  P "-"%char -> (forall c, ok c = true -> P c) ->
  Forall P (Js.replaceRuns ok b l).
Proof.
  intros Hh Hok. revert b.
  induction l as [|c l IH]; intros b; cbn; [constructor|].
  destruct (ok c) eqn:E.
  - constructor; [apply Hok; exact E | apply IH].
  - destruct b; [apply IH | constructor; [exact Hh | apply IH]].
Qed.

Lemma Forall_firstn (P : ascii -> Prop) n l :
  Forall P l -> Forall P (firstn n l).
Proof.
  intros H. revert n. induction H as [|c l Hc Hl IH]; intros [|n]; cbn;
    constructor; auto.
Qed.





Example resolveRoomKey_before_and_after_switch :
  let store := run [("new p2", 10)] ∅ in
  snd (resolveRoomKey cfg0 (env0 11) (dmEvent 9 "agent:main:telegram:dm:u1") store)
  = Some "agent:main:telegram:dm:u1:proj:proj-general"
  /\ snd (resolveRoomKey cfg0 (env0 11) (dmEvent 10 "agent:main:telegram:dm:u1") store)
     = Some "agent:main:telegram:dm:u1:proj:proj-p2"
  /\ snd (resolveRoomKey cfg0 (env0 11) (dmEvent 12 "agent:main:telegram:dm:u1")
            (run [("new p2", 10); ("off", 11)] ∅))
     = None.
Proof. repeat split; vm_compute; reflexivity. Qed.




(** ** Command dispatch *)


Lemma ctxSub_of_new ctx : ctxArgs ctx = "new" -> ctxSub ctx = "new".
Proof. intros H. unfold ctxSub, ctxParts. rewrite H. reflexivity. Qed.

Lemma handle_wipe cfg env ctx disk :
  ctxSub ctx = "wipe" ->
  handleProjectsCommand cfg env ctx disk
  = cmdWipe cfg env ctx disk (buildPeerKeyFromCommandCtx ctx) (ctxParts ctx).
Proof.
  intros H. unfold handleProjectsCommand.
  destruct (String.eqb_spec (ctxArgs ctx) "new") as [E|_].
  - apply ctxSub_of_new in E. rewrite E in H. discriminate H.
  - cbv zeta. rewrite H. reflexivity.
Qed.

Lemma handle_reset cfg env ctx disk :
  ctxSub ctx = "reset" ->
  handleProjectsCommand cfg env ctx disk
  = cmdReset cfg env disk (buildPeerKeyFromCommandCtx ctx) (ctxParts ctx).
Proof.
  intros H. unfold handleProjectsCommand.
  destruct (String.eqb_spec (ctxArgs ctx) "new") as [E|_].
  - apply ctxSub_of_new in E. rewrite E in H. discriminate H.
  - cbv zeta. rewrite H. reflexivity.
Qed.

Lemma handle_switch cfg env ctx disk :
  ctxSub ctx = "switch" ->
  handleProjectsCommand cfg env ctx disk
  = cmdSwitch cfg env ctx disk (buildPeerKeyFromCommandCtx ctx) (ctxArgs ctx).
Proof.
  intros H. unfold handleProjectsCommand.
  destruct (String.eqb_spec (ctxArgs ctx) "new") as [E|_].
  - apply ctxSub_of_new in E. rewrite E in H. discriminate H.
  - cbv zeta. rewrite H. reflexivity.
Qed.

Lemma handle_new cfg env ctx disk :
  ctxSub ctx = "new" -> ctxArgs ctx <> "new" ->
  handleProjectsCommand cfg env ctx disk
  = cmdNew cfg env ctx disk (buildPeerKeyFromCommandCtx ctx) (ctxArgs ctx).
Proof.
  intros H Hne. unfold handleProjectsCommand.
  destruct (String.eqb_spec (ctxArgs ctx) "new") as [E|_]; [contradiction|].
  cbv zeta. rewrite H. reflexivity.
Qed.

(** ** Arming a wipe of all projects *)

Example wipe_arms_on_fresh_store :
  handleProjectsCommand cfg0 (env0 2) (ctx0 "wipe" 2) ∅
  = ({["telegram:u1" :=
         PeerState.setPendingWipe
           (Some {| PendingWipe.nonce := "deadbeef";
                    PendingWipe.createdAtMs := 2;
                    PendingWipe.kind := KindAll;
                    PendingWipe.projectId := None;
                    PendingWipe.stamp := "20260105-093007";
                    PendingWipe.backupDir :=
                      "/home/u/.openclaw/backup_projects_ux_20260105-093007" |})
           wipeFreshPeer]},
     Returned (ArmedAll (newPending cfg0 (env0 2) KindAll None))).
Proof. vm_compute. reflexivity. Qed.

Lemma length_randomNonce_4 e : String.length (randomNonce e 4) = 8%nat.
Proof. reflexivity. Qed.


Lemma hexDigit_high b : isHexChar (Js.hexDigit (N.div (Byte.to_N b) 16)) = true.
Proof. destruct b; reflexivity. Qed.

Lemma hexDigit_low b : isHexChar (Js.hexDigit (N.modulo (Byte.to_N b) 16)) = true.
Proof. destruct b; reflexivity. Qed.

Lemma hex_shape bs :
  length (Js.chars (Js.hex bs)) = (2 * length bs)%nat
  /\ Forall (fun c => isHexChar c = true) (Js.chars (Js.hex bs)).
Proof.
  induction bs as [|b bs [IHl IHf]]; [split; [reflexivity | constructor]|].
  cbn [Js.hex Js.chars list_ascii_of_string length]. fold (Js.chars (Js.hex bs)).
  split; [rewrite IHl; cbn; lia|].
  repeat constructor; [apply hexDigit_high | apply hexDigit_low | exact IHf].
Qed.

Lemma hex_not_space c : isHexChar c = true -> Js.isSpace c = false.
Proof.
  unfold isHexChar, Js.isDigit, Js.isSpace. generalize (Js.code c). intros n H.
  destruct (Nat.leb_spec 9 n), (Nat.leb_spec n 13), (Nat.eqb_spec n 32);
    cbn; try reflexivity; exfalso; revert H;
    destruct (Nat.leb_spec 48 n), (Nat.leb_spec n 57), (Nat.leb_spec 97 n),
      (Nat.leb_spec n 102); cbn; try discriminate; lia.
Qed.






(** ** Wipe of all projects *)

Lemma ensureDefaultProject_wiped env d (messageId : option Z) :
  ensureDefaultProject env
    (PeerState.mk 1 (Some false) "" (Some "") messageId (Some "")
       (Some false) [] (Some []) None) d
  = (PeerState.mk 1 (Some false) (defaultProjectIdOf d) (Some "") messageId
       (Some (defaultProjectIdOf d)) (Some false) [defaultProject env d]
       (Some []) None, true).
Proof. reflexivity. Qed.

(** The state that [wipeProjectsUxForPeer] writes for the peer. *)
Lemma wipeProjectsUxForPeer_state cfg env (disk : Store) peerKey messageId :
  let r := wipeProjectsUxForPeer cfg env disk peerKey messageId in
  fst r = <[peerKey := snd r]> disk
  /\ PeerState.projectsEnabled (snd r) = Some false
  /\ PeerState.projects (snd r) = [defaultProject env (defaultProjectName cfg)]
  /\ PeerState.globalTokens (snd r) = Some []
  /\ PeerState.pendingWipe (snd r) = None.
Proof.
  unfold wipeProjectsUxForPeer. rewrite ensureDefaultProject_wiped.
  repeat split; reflexivity.
Qed.

(** Only the confirmation of a wipe of all projects replies [WipedAll]. *)
Lemma wipedAll_from_confirm cfg env ctx (disk disk' : Store) backupDir :
  handleProjectsCommand cfg env ctx disk = (disk', Returned (WipedAll backupDir)) ->
  exists disk1 pending,
    backupAndResetProjectsUx cfg env disk1 (buildPeerKeyFromCommandCtx ctx)
      pending (messageId ctx) = (disk', inl backupDir).
Proof.
  unfold handleProjectsCommand, cmdStatus, cmdDebug, cmdList, cmdReset,
    cmdWipe, cmdOn, cmdOff, cmdNew, cmdSwitch, withPeerState.
  cbv beta zeta. split_cases; intros H; try discriminate H.
  all: try (injection H as <- <-; eauto; fail).
  all: do 3 (simplify_eq; revert_pairs; split_cases; intros); simplify_eq.
Qed.

Example wipe_all_scenario :
  let r := handleProjectsCommand cfg0 (env0 3) (ctx0 "wipe confirm deadbeef" 3)
             (run [("new p2", 1); ("wipe", 2)] ∅) in
  snd r = Returned (WipedAll "/home/u/.openclaw/backup_projects_ux_20260105-093007")
  /\ fst r !! "telegram:u1"
     = Some {| PeerState.version := 1; PeerState.projectsEnabled := Some false;
               PeerState.activeProjectId := "proj-general";
               PeerState.previousProjectId := Some "";
               PeerState.effectiveFromMessageId := Some 3;
               PeerState.lastProjectId := Some "proj-general";
               PeerState.pendingReset := Some false;
               PeerState.projects := [generalProject];
               PeerState.globalTokens := Some [];
               PeerState.pendingWipe := None |}.
Proof. split; vm_compute; reflexivity. Qed.

(** C6: whenever the command replies that all projects were wiped, the
    store holds for that peer a state with projects disabled, exactly one
    project, named as the configured default and with an empty token
    list, an empty global token list and no pending wipe. *)
Theorem C6_wipe_all_state cfg env ctx (disk disk' : Store) backupDir :
  handleProjectsCommand cfg env ctx disk = (disk', Returned (WipedAll backupDir)) ->
  exists peer p,
    disk' !! buildPeerKeyFromCommandCtx ctx = Some peer
    /\ PeerState.projectsEnabled peer = Some false
    /\ PeerState.projects peer = [p]
    /\ Project.name p = defaultProjectName cfg
    /\ Project.tokens p = Some []
    /\ PeerState.globalTokens peer = Some []
    /\ PeerState.pendingWipe peer = None.
Proof.
  intros H. apply wipedAll_from_confirm in H as [disk1 [pending H]].
  unfold backupAndResetProjectsUx in H.
  pose proof (wipeProjectsUxForPeer_state cfg env disk1
                (buildPeerKeyFromCommandCtx ctx) (messageId ctx)) as W.
  cbv zeta in W.
  destruct (wipeProjectsUxForPeer cfg env disk1
              (buildPeerKeyFromCommandCtx ctx) (messageId ctx)) as [d peer].
  cbn [fst snd] in W. destruct W as [Hd [Hen [Hps [Hgt Hpw]]]].
  assert (disk' = d) as -> by (destruct (backupCopy env); congruence).
  exists peer, (defaultProject env (defaultProjectName cfg)).
  rewrite Hd, lookup_insert_eq. repeat split; assumption.
Qed.

Lemma C6_wipe_all_state_witness :
  exists peer p,
    fst (handleProjectsCommand cfg0 (env0 3) (ctx0 "wipe confirm deadbeef" 3)
           (run [("new p2", 1); ("wipe", 2)] ∅))
    !! "telegram:u1" = Some peer
    /\ PeerState.projectsEnabled peer = Some false
    /\ PeerState.projects peer = [p]
    /\ Project.name p = "General"
    /\ Project.tokens p = Some []
    /\ PeerState.globalTokens peer = Some []
    /\ PeerState.pendingWipe peer = None.
Proof.
  apply (C6_wipe_all_state cfg0 (env0 3) (ctx0 "wipe confirm deadbeef" 3)
           (run [("new p2", 1); ("wipe", 2)] ∅) _
           "/home/u/.openclaw/backup_projects_ux_20260105-093007").
  vm_compute. reflexivity.
Defined.

(** ** The destructive-operation guard *)

(** Only the arming branch of [wipe] replies [ArmedAll]. *)
Lemma armedAll_inv cfg env ctx (disk disk1 : Store) pending :
  handleProjectsCommand cfg env ctx disk = (disk1, Returned (ArmedAll pending)) ->
  pending = newPending cfg env KindAll None
  /\ disk1 = <[buildPeerKeyFromCommandCtx ctx :=
                PeerState.setPendingWipe (Some pending)
                  (default wipeFreshPeer
                     (disk !! buildPeerKeyFromCommandCtx ctx))]> disk.
Proof.
  unfold handleProjectsCommand, cmdStatus, cmdDebug, cmdList, cmdReset,
    cmdWipe, cmdOn, cmdOff, cmdNew, cmdSwitch, withPeerState.
  cbv beta zeta. split_cases; intros H; try discriminate H.
  all: try (injection H as <- <-; split; reflexivity).
  all: do 3 (simplify_eq; revert_pairs; split_cases; intros); simplify_eq.
Qed.

(** Only the arming branch of [reset remove] replies [ArmedProject]. *)
Lemma armedProject_from_reset cfg env ctx (disk disk1 : Store) project pending :
  handleProjectsCommand cfg env ctx disk
  = (disk1, Returned (ArmedProject project pending)) ->
  cmdReset cfg env disk (buildPeerKeyFromCommandCtx ctx) (ctxParts ctx)
  = (disk1, Returned (ArmedProject project pending)).
Proof.
  unfold handleProjectsCommand, cmdStatus, cmdDebug, cmdList,
    cmdWipe, cmdOn, cmdOff, cmdNew, cmdSwitch, withPeerState.
  cbv beta zeta. split_cases; intros H; try discriminate H.
  all: try exact H.
  all: do 3 (simplify_eq; revert_pairs; split_cases; intros); simplify_eq.
Qed.

Lemma armedProject_inv cfg env (disk disk1 : Store) peerKey parts project pending :
  cmdReset cfg env disk peerKey parts
  = (disk1, Returned (ArmedProject project pending)) ->
  exists peer0,
    disk !! peerKey = Some peer0
    /\ Js.truthy (Js.part parts 2) = true
    /\ String.eqb (Js.part parts 2) (defaultProjectId cfg) = false
    /\ List.find (fun p => hasId (Js.part parts 2) p && Project.live p)
         (PeerState.projects (healed env (defaultProjectName cfg) peer0))
       = Some project
    /\ pending = newPending cfg env KindProject (Some (Js.part parts 2))
    /\ disk1 !! peerKey
       = Some (PeerState.setPendingWipe (Some pending)
                 (healed env (defaultProjectName cfg) peer0)).
Proof.
  unfold cmdReset. cbv zeta.
  destruct (negb (Js.truthy (Js.toLowerCase (Js.part parts 1))));
    [discriminate|].
  destruct (String.eqb (Js.toLowerCase (Js.part parts 1)) "remove");
    [|discriminate].
  destruct (disk !! peerKey) as [peer0|]; [|discriminate].
  rewrite ensureDefaultProject_eq.
  destruct (Js.truthy (Js.part parts 2)) eqn:Hpid; cbn [negb].
  2: { destruct (List.filter _ _); discriminate. }
  destruct (String.eqb (Js.part parts 2) (defaultProjectId cfg)) eqn:Hdef;
    [discriminate|].
  destruct (List.find _ _) as [target|] eqn:Hfind; [|discriminate].
  intros H. injection H as <- <- <-.
  exists peer0. rewrite lookup_insert_eq. repeat split; auto.
Qed.

Lemma renameLegacy_id d p : needsRename d p = false -> renameLegacy d p = p.
Proof. intros H. unfold renameLegacy. rewrite H. reflexivity. Qed.

Lemma initTokens_id p : lacksTokens p = false -> initTokens p = p.
Proof. intros H. unfold initTokens. rewrite H. reflexivity. Qed.

Lemma existsb_false_In {A} (f : A -> bool) l x :
  existsb f l = false -> In x l -> f x = false.
Proof.
  intros H Hx. destruct (f x) eqn:E; [|reflexivity].
  rewrite <- H. symmetry. apply existsb_exists. eauto.
Qed.

(** A non-empty collection without legacy names and with all token lists
    present is left as it is. *)
Lemma healedProjects_stable env d ps :
  ps <> [] ->
  existsb (needsRename d) ps = false ->
  existsb lacksTokens ps = false ->
  healedProjects env d ps = ps.
Proof.
  intros Hne Hr Ht. destruct ps as [|p ps]; [congruence|].
  unfold healedProjects. rewrite List.map_map.
  rewrite <- (List.map_id (p :: ps)) at 2. apply List.map_ext_in.
  intros a Ha. rewrite (renameLegacy_id d a (existsb_false_In _ _ _ Hr Ha)).
  apply initTokens_id, (existsb_false_In _ _ _ Ht Ha).
Qed.

Lemma healedProjects_idem env env' d ps :
  healedProjects env' d (healedProjects env d ps) = healedProjects env d ps.
Proof.
  apply healedProjects_stable.
  - apply healedProjects_nonempty.
  - apply healedProjects_noRename.
  - apply healedProjects_hasTokens.
Qed.

(** What a confirmation of a wipe of all projects does when a wipe is
    pending. *)
Lemma cmdWipe_confirm_all cfg env ctx (disk : Store) peerKey parts peer pending :
  Js.toLowerCase (Js.part parts 1) = "confirm" ->
  disk !! peerKey = Some peer ->
  PeerState.pendingWipe peer = Some pending ->
  cmdWipe cfg env ctx disk peerKey parts
  = let cleared := <[peerKey := PeerState.setPendingWipe None peer]> disk in
    if nowMs env - PendingWipe.createdAtMs pending >? wipeConfirmTtlMs
    then (cleared, Returned (Refuse NonceExpired))
    else if negb (Js.truthy (Js.part parts 2))
            || negb (String.eqb (Js.part parts 2) (PendingWipe.nonce pending))
            || negb (isKindAll (PendingWipe.kind pending))
    then (cleared, Returned (Refuse MismatchAll))
    else match backupCopy env with
         | CopyFailed code => (cleared, Threw code)
         | _ =>
             (fst (wipeProjectsUxForPeer cfg env cleared peerKey (messageId ctx)),
              Returned (WipedAll (PendingWipe.backupDir pending)))
         end.
Proof.
  intros Hact Hpeer Hpend. unfold cmdWipe, clearPending. cbv zeta.
  rewrite Hact, Hpeer. cbn [default from_option id String.eqb Ascii.eqb
    Bool.eqb]. rewrite Hpend. cbn [fst].
  destruct (_ >? _); [reflexivity|].
  destruct (_ || _ || _); [reflexivity|].
  unfold backupAndResetProjectsUx.
  destruct (backupCopy env); try reflexivity;
    destruct (wipeProjectsUxForPeer _ _ _ _ _); reflexivity.
Qed.

(** What a confirmation of a wipe of one project does when a wipe is
    pending. *)
Lemma cmdWipe_confirm_project cfg env ctx (disk : Store) peerKey parts peer
  pending :
  Js.toLowerCase (Js.part parts 1) = "project" ->
  Js.toLowerCase (Js.part parts 2) = "confirm" ->
  disk !! peerKey = Some peer ->
  PeerState.pendingWipe peer = Some pending ->
  cmdWipe cfg env ctx disk peerKey parts
  = let cleared := <[peerKey := PeerState.setPendingWipe None peer]> disk in
    if nowMs env - PendingWipe.createdAtMs pending >? wipeConfirmTtlMs
    then (cleared, Returned (Refuse NonceExpired))
    else if negb (Js.truthy (Js.part parts 3))
            || negb (String.eqb (Js.part parts 3) (PendingWipe.nonce pending))
            || isKindAll (PendingWipe.kind pending)
            || match PendingWipe.projectId pending with
               | None => true
               | Some armed =>
                   negb (Js.truthy armed)
                   || negb (String.eqb armed (Js.part parts 4))
               end
    then (cleared, Returned (Refuse MismatchProject))
    else match backupAndWipeOneProject cfg env cleared peerKey pending
                 (Js.part parts 4) (messageId ctx) with
         | (disk, WipeOneErr e) => (disk, Returned (Refuse (WipeOneRefused e)))
         | (disk, WipeOneOk backupDir projectName projectsEnabled
                    activeProjectName) =>
             (disk, Returned (WipedProject projectName (Js.part parts 4)
                                backupDir projectsEnabled activeProjectName))
         end.
Proof.
  intros Hact Hact2 Hpeer Hpend. unfold cmdWipe, clearPending. cbv zeta.
  rewrite Hact, Hact2, Hpeer. cbn [default from_option id String.eqb Ascii.eqb
    Bool.eqb andb]. rewrite Hpend. cbn [fst].
  reflexivity.
Qed.

(** A confirmation without pending wipe is refused and changes nothing. *)
Lemma cmdWipe_confirm_none cfg env ctx (disk : Store) peerKey parts :
  Js.toLowerCase (Js.part parts 1) = "confirm"
  \/ (Js.toLowerCase (Js.part parts 1) = "project"
      /\ Js.toLowerCase (Js.part parts 2) = "confirm") ->
  pendingOf disk peerKey = None ->
  cmdWipe cfg env ctx disk peerKey parts = (disk, Returned (Refuse NoWipePending)).
Proof.
  intros Hact Hnone. unfold cmdWipe. cbv zeta.
  assert (PeerState.pendingWipe (default wipeFreshPeer (disk !! peerKey)) = None)
    as Hp.
  { unfold pendingOf in Hnone. destruct (disk !! peerKey); [exact Hnone|].
    reflexivity. }
  destruct Hact as [Hact | [Hact Hact2]];
    rewrite Hact, ?Hact2; cbn [String.eqb Ascii.eqb Bool.eqb andb];
    rewrite Hp; reflexivity.
Qed.

Lemma truthy_randomNonce_4 e : Js.truthy (randomNonce e 4) = true.
Proof. reflexivity. Qed.

Lemma projectsHealed_healed env d ps :
  projectsHealed d (healedProjects env d ps).
Proof.
  split; [apply healedProjects_nonempty|].
  split; [apply healedProjects_noRename | apply healedProjects_hasTokens].
Qed.

(** Arming, of either kind, leaves a well-armed peer in the store. *)
Lemma arm_wellArmed cfg env ctx (disk disk1 : Store) pending :
  handleProjectsCommand cfg env ctx disk = (disk1, Returned (ArmedAll pending))
  \/ (exists project,
         handleProjectsCommand cfg env ctx disk
         = (disk1, Returned (ArmedProject project pending))) ->
  exists peer1,
    disk1 !! buildPeerKeyFromCommandCtx ctx = Some peer1
    /\ wellArmed cfg peer1 pending
    /\ PendingWipe.createdAtMs pending = nowMs env.
Proof.
  intros [H | [project H]].
  - apply armedAll_inv in H as [-> ->].
    eexists. rewrite lookup_insert_eq. split; [reflexivity|].
    repeat split.
  - apply armedProject_from_reset, armedProject_inv in H
      as [peer0 [_ [Hpid [Hdef [Hfind [-> Hd1]]]]]].
    eexists. split; [exact Hd1|]. split; [|reflexivity].
    split; [reflexivity|]. split; [reflexivity|].
    cbn [newPending PendingWipe.kind PendingWipe.projectId].
    exists (Js.part (ctxParts ctx) 2), project.
    repeat split; try assumption; apply projectsHealed_healed.
Qed.

(** [backupAndWipeOneProject] on a stored peer whose healed collection
    holds a live project with the given, non-default id. *)
Lemma backupAndWipeOneProject_ok cfg env (disk : Store) peerKey pending
  projectId messageId peer target :
  (forall code, backupCopy env <> CopyFailed code) ->
  disk !! peerKey = Some peer ->
  String.eqb projectId (defaultProjectId cfg) = false ->
  List.find (fun p => hasId projectId p && Project.live p)
    (PeerState.projects
       (healed env (defaultProjectName cfg) (PeerState.setPendingWipe None peer)))
  = Some target ->
  let after :=
    healed env (defaultProjectName cfg)
      (removeProject cfg
         (healed env (defaultProjectName cfg) (PeerState.setPendingWipe None peer))
         projectId messageId) in
  exists enabled activeName,
    backupAndWipeOneProject cfg env disk peerKey pending projectId messageId
    = (<[peerKey := after]> disk,
       WipeOneOk (PendingWipe.backupDir pending) (Project.name target) enabled
         activeName).
Proof.
  intros Hcopy Hpeer Hdef Hfind after. unfold backupAndWipeOneProject.
  rewrite Hpeer, !ensureDefaultProject_eq, Hdef, Hfind. fold after.
  destruct (backupCopy env) eqn:E; [eauto | eauto |].
  exfalso. exact (Hcopy _ eq_refl).
Qed.

Lemma pendingWipe_removeProject cfg peer projectId messageId :
  PeerState.pendingWipe (removeProject cfg peer projectId messageId)
  = PeerState.pendingWipe peer.
Proof.
  unfold removeProject. cbv zeta.
  repeat match goal with
         | |- context [if ?b then _ else _] => destruct b
         | |- context [match ?x with _ => _ end] => destruct x
         end; reflexivity.
Qed.

Lemma pendingOf_insert (disk : Store) peerKey peer :
  pendingOf (<[peerKey := peer]> disk) peerKey = PeerState.pendingWipe peer.
Proof. unfold pendingOf. rewrite lookup_insert_eq. reflexivity. Qed.

Lemma isConfirm_exclusive ctx : isConfirmAll ctx -> isConfirmProject ctx -> False.
Proof. intros [_ H1] [_ [H2 _]]. rewrite H1 in H2. discriminate H2. Qed.

(** The peer that [wipeProjectsUxForPeer] writes is the reset state. *)
Lemma wipeProjectsUxForPeer_wiped cfg env (disk : Store) peerKey messageId :
  let r := wipeProjectsUxForPeer cfg env disk peerKey messageId in
  fst r !! peerKey = Some (snd r) /\ wipedAllState cfg (snd r).
Proof.
  unfold wipeProjectsUxForPeer. rewrite ensureDefaultProject_wiped.
  cbn [fst snd]. rewrite lookup_insert_eq. split; [reflexivity|].
  split; [reflexivity|]. split; [|repeat split].
  exists (defaultProject env (defaultProjectName cfg)). repeat split.
Qed.

(** What a confirmation of a wipe of all projects does to a store whose
    peer is well armed. *)
Lemma confirm_all_spec cfg env ctx (disk : Store) peer pending :
  disk !! buildPeerKeyFromCommandCtx ctx = Some peer ->
  wellArmed cfg peer pending ->
  isConfirmAll ctx ->
  let peerKey := buildPeerKeyFromCommandCtx ctx in
  let r := handleProjectsCommand cfg env ctx disk in
  (answersWiped (snd r) -> matchesArm pending (nowMs env) ctx)
  /\ (matchesArm pending (nowMs env) ctx ->
      match backupCopy env with
      | CopyFailed code =>
          aborted code (snd r)
          /\ fst r !! peerKey = Some (PeerState.setPendingWipe None peer)
      | _ =>
          exists after,
            fst r !! peerKey = Some after
            /\ carriedOut cfg pending peer after (snd r)
      end)
  /\ (~ matchesArm pending (nowMs env) ctx ->
      refused (snd r)
      /\ fst r !! peerKey = Some (PeerState.setPendingWipe None peer))
  /\ pendingOf (fst r) peerKey = None.
Proof.
  intros Hpeer [Hpend [Hnonce Hkind]] Hc. pose proof Hc as [Hsub Hact].
  cbv zeta. rewrite (handle_wipe _ _ _ _ Hsub).
  rewrite (cmdWipe_confirm_all _ _ _ _ _ _ _ _ Hact Hpeer Hpend). cbv zeta.
  destruct (Z.gtb_spec (nowMs env - PendingWipe.createdAtMs pending)
              wipeConfirmTtlMs) as [Hexp|Hexp].
  { cbn [fst snd]. rewrite pendingOf_insert, lookup_insert_eq.
    split; [intros []|]. split; [intros [Hle _]; lia|].
    split; [intros _; split; [exact I | reflexivity] | reflexivity]. }
  destruct (negb (Js.truthy (Js.part (ctxParts ctx) 2))
            || negb (String.eqb (Js.part (ctxParts ctx) 2)
                       (PendingWipe.nonce pending))
            || negb (isKindAll (PendingWipe.kind pending))) eqn:Hmis.
  { cbn [fst snd]. rewrite pendingOf_insert, lookup_insert_eq.
    split; [intros []|].
    split; [|split; [intros _; split; [exact I | reflexivity] | reflexivity]].
    intros [_ Hm]. exfalso. destruct (PendingWipe.kind pending).
    - destruct Hm as [_ Hn]. rewrite Hn, Hnonce, String.eqb_refl in Hmis.
      discriminate Hmis.
    - destruct Hm as [Hp _]. exact (isConfirm_exclusive ctx Hc Hp). }
  apply orb_false_iff in Hmis as [Hmis Hk].
  apply orb_false_iff in Hmis as [_ Hn].
  apply negb_false_iff in Hn, Hk. apply String.eqb_eq in Hn.
  destruct (PendingWipe.kind pending) eqn:Ek; [|discriminate Hk].
  assert (matchesArm pending (nowMs env) ctx) as Hm.
  { split; [exact Hexp|]. rewrite Ek. auto. }
  pose proof (wipeProjectsUxForPeer_wiped cfg env
                (<[buildPeerKeyFromCommandCtx ctx :=
                     PeerState.setPendingWipe None peer]> disk)
                (buildPeerKeyFromCommandCtx ctx) (messageId ctx)) as W.
  cbv zeta in W. destruct W as [Wd Ww].
  assert (pendingOf
            (fst (wipeProjectsUxForPeer cfg env
                    (<[buildPeerKeyFromCommandCtx ctx :=
                         PeerState.setPendingWipe None peer]> disk)
                    (buildPeerKeyFromCommandCtx ctx) (messageId ctx)))
            (buildPeerKeyFromCommandCtx ctx) = None) as Wp.
  { unfold pendingOf. rewrite Wd. apply Ww. }
  destruct (backupCopy env); cbn [fst snd].
  3: { rewrite pendingOf_insert, lookup_insert_eq.
       split; [intros []|].
       split; [intros _; split; [left; reflexivity | reflexivity]|].
       split; [intros Hn'; contradiction | reflexivity]. }
  all: split; [intros _; exact Hm|].
  all: split; [|split; [intros Hn'; contradiction | exact Wp]].
  all: intros _; eexists; split; [exact Wd|].
  all: unfold carriedOut; rewrite Ek; split; [reflexivity | exact Ww].
Qed.

Lemma existsb_filter_false {A} (f g : A -> bool) l :
  existsb f l = false -> existsb f (List.filter g l) = false.
Proof.
  intros H. apply existsb_false_forall. intros x Hx.
  apply filter_In in Hx as [Hx _]. exact (existsb_false_In _ _ _ H Hx).
Qed.

Lemma healed_setPendingWipe env d v peer :
  healed env d (PeerState.setPendingWipe v peer)
  = PeerState.setPendingWipe v (healed env d peer).
Proof. reflexivity. Qed.

(** What [removeProject] keeps. *)
Lemma removeProject_kept cfg peer projectId messageId :
  let after := removeProject cfg peer projectId messageId in
  PeerState.projects after
  = List.filter (fun p => negb (hasId projectId p)) (PeerState.projects peer)
  /\ PeerState.globalTokens after = PeerState.globalTokens peer
  /\ default false (PeerState.projectsEnabled after)
     = default false (PeerState.projectsEnabled peer)
  /\ PeerState.pendingWipe after = PeerState.pendingWipe peer.
Proof.
  unfold removeProject. cbv zeta.
  destruct peer as [v en act prev eff last reset ps gt pw].
  cbn [PeerState.activeProjectId PeerState.previousProjectId
       PeerState.lastProjectId PeerState.setProjects].
  destruct (String.eqb act projectId || isSomeStr prev projectId
            || isSomeStr last projectId);
    destruct en as [[|]|]; destruct messageId; repeat split; reflexivity.
Qed.

(** The peer after the wipe of one project, on a healed collection and
    for a target other than the default project: the target id is gone,
    the projects of another id are all there. *)
Lemma wipe_one_after cfg env h projectId messageId :
  projectsHealed (defaultProjectName cfg) (PeerState.projects h) ->
  String.eqb projectId (defaultProjectId cfg) = false ->
  let after :=
    healed env (defaultProjectName cfg)
      (removeProject cfg h projectId messageId) in
  (forall q, In q (PeerState.projects after) -> Project.id q <> projectId)
  /\ (forall q,
         In q (PeerState.projects h) -> Project.id q <> projectId ->
         In q (PeerState.projects after))
  /\ PeerState.globalTokens after
     = Some (default [] (PeerState.globalTokens h))
  /\ PeerState.projectsEnabled after
     = Some (default false (PeerState.projectsEnabled h))
  /\ PeerState.pendingWipe after = PeerState.pendingWipe h.
Proof.
  intros [Hne [Hren Htok]] Hdef after. subst after.
  destruct (removeProject_kept cfg h projectId messageId)
    as [Hps [Hgt [Hen Hpw]]].
  cbn [healed PeerState.projects PeerState.globalTokens
       PeerState.projectsEnabled PeerState.pendingWipe].
  rewrite Hps, Hgt, Hen, Hpw.
  set (rest := List.filter (fun p => negb (hasId projectId p))
                 (PeerState.projects h)).
  assert (forall q, In q rest <->
                    In q (PeerState.projects h) /\ Project.id q <> projectId)
    as Hrest.
  { intros q. unfold rest. rewrite filter_In. unfold hasId.
    destruct (String.eqb_spec (Project.id q) projectId); cbn; split;
      intros [H1 H2]; split; congruence. }
  split; [|split; [|repeat split]].
  - destruct rest as [|r rest'] eqn:E.
    + intros q [<-|[]]. cbn [healedProjects defaultProject Project.id].
      intros Heq. fold (defaultProjectId cfg) in Heq.
      rewrite <- Heq, String.eqb_refl in Hdef. discriminate Hdef.
    + rewrite <- E in *. rewrite healedProjects_stable;
        [ intros q Hq; apply Hrest in Hq; tauto
        | rewrite E; discriminate
        | apply existsb_filter_false; exact Hren
        | apply existsb_filter_false; exact Htok ].
  - intros q Hq Hid. assert (In q rest) as Hin by (apply Hrest; auto).
    rewrite healedProjects_stable;
      [ exact Hin
      | intros E; rewrite E in Hin; destruct Hin
      | apply existsb_filter_false; exact Hren
      | apply existsb_filter_false; exact Htok ].
Qed.

(** What a confirmation of a wipe of one project does to a store whose
    peer is well armed. *)
Lemma confirm_project_spec cfg env ctx (disk : Store) peer pending :
  disk !! buildPeerKeyFromCommandCtx ctx = Some peer ->
  wellArmed cfg peer pending ->
  isConfirmProject ctx ->
  let peerKey := buildPeerKeyFromCommandCtx ctx in
  let r := handleProjectsCommand cfg env ctx disk in
  (answersWiped (snd r) -> matchesArm pending (nowMs env) ctx)
  /\ (matchesArm pending (nowMs env) ctx ->
      match backupCopy env with
      | CopyFailed code =>
          aborted code (snd r)
          /\ fst r !! peerKey = Some (PeerState.setPendingWipe None peer)
      | _ =>
          exists after,
            fst r !! peerKey = Some after
            /\ carriedOut cfg pending peer after (snd r)
      end)
  /\ (~ matchesArm pending (nowMs env) ctx ->
      refused (snd r)
      /\ fst r !! peerKey = Some (PeerState.setPendingWipe None peer))
  /\ pendingOf (fst r) peerKey = None.
Proof.
  intros Hpeer [Hpend [Hnonce Hkind]] Hc. pose proof Hc as [Hsub [Hact Hact2]].
  cbv zeta. rewrite (handle_wipe _ _ _ _ Hsub).
  rewrite (cmdWipe_confirm_project _ _ _ _ _ _ _ _ Hact Hact2 Hpeer Hpend).
  cbv zeta.
  destruct (Z.gtb_spec (nowMs env - PendingWipe.createdAtMs pending)
              wipeConfirmTtlMs) as [Hexp|Hexp].
  { cbn [fst snd]. rewrite pendingOf_insert, lookup_insert_eq.
    split; [intros []|]. split; [intros [Hle _]; lia|].
    split; [intros _; split; [exact I | reflexivity] | reflexivity]. }
  match goal with
  | |- context [if ?b then _ else _] => destruct b eqn:Hmis
  end.
  { cbn [fst snd]. rewrite pendingOf_insert, lookup_insert_eq.
    split; [intros []|].
    split; [|split; [intros _; split; [exact I | reflexivity] | reflexivity]].
    intros [_ Hm]. exfalso. destruct (PendingWipe.kind pending).
    - destruct Hm as [Hp _]. exact (isConfirm_exclusive ctx Hp Hc).
    - destruct Hm as [_ [Hn Hp]].
      destruct Hkind as [pid [project [Hpid [Ht _]]]].
      rewrite Hn, Hnonce, String.eqb_refl, Hpid in Hmis.
      rewrite Hpid in Hp. injection Hp as ->.
      rewrite Ht, String.eqb_refl in Hmis. discriminate Hmis. }
  apply orb_false_iff in Hmis as [Hmis Hp].
  apply orb_false_iff in Hmis as [Hmis Hk].
  apply orb_false_iff in Hmis as [_ Hn].
  apply negb_false_iff in Hn. apply String.eqb_eq in Hn.
  destruct (PendingWipe.kind pending) eqn:Ek; [discriminate Hk|].
  destruct Hkind as [pid [project [Hpid [Ht [Hdef [[Hne [Hren Htok]] Hfind]]]]]].
  rewrite Hpid in Hp. apply orb_false_iff in Hp as [_ Hp].
  apply negb_false_iff, String.eqb_eq in Hp. subst pid.
  assert (matchesArm pending (nowMs env) ctx) as Hm.
  { split; [exact Hexp|]. rewrite Ek. auto. }
  destruct (backupCopy env) eqn:Ecopy.
  3: { unfold backupAndWipeOneProject. rewrite Ecopy. cbn [fst snd].
       rewrite pendingOf_insert, lookup_insert_eq.
       split; [intros []|].
       split; [intros _; split; [right; reflexivity | reflexivity]|].
       split; [intros Hn'; contradiction | reflexivity]. }
  all: edestruct (backupAndWipeOneProject_ok cfg env
               (<[buildPeerKeyFromCommandCtx ctx :=
                    PeerState.setPendingWipe None peer]> disk)
               (buildPeerKeyFromCommandCtx ctx) pending
               (Js.part (ctxParts ctx) 4) (messageId ctx)
               (PeerState.setPendingWipe None peer) project)
      as [en [an Hok]];
    [ intros code; rewrite Ecopy; discriminate
    | apply lookup_insert_eq
    | exact Hdef
    | cbn [healed PeerState.projects PeerState.setPendingWipe];
      rewrite (healedProjects_stable env _ _ Hne Hren Htok); exact Hfind
    | ].
  all: rewrite Hok; cbn [fst snd]; rewrite pendingOf_insert, lookup_insert_eq.
  all: destruct (wipe_one_after cfg env
                   (healed env (defaultProjectName cfg)
                      (PeerState.setPendingWipe None peer))
                   (Js.part (ctxParts ctx) 4) (messageId ctx))
      as [Wgone [Wkept [Wgt [Wen Wpw]]]];
    [ apply projectsHealed_healed | exact Hdef | ].
  all: cbn [healed PeerState.projects PeerState.globalTokens
            PeerState.projectsEnabled PeerState.pendingWipe
            PeerState.setPendingWipe default from_option id] in Wkept, Wgt, Wen, Wpw.
  all: rewrite (healedProjects_stable env _ _ Hne Hren Htok) in Wkept.
  all: split; [intros _; exact Hm|].
  all: split; [|split; [intros Hn'; contradiction | exact Wpw]].
  all: intros _; eexists; split; [reflexivity|].
  all: unfold carriedOut; rewrite Ek.
  all: apply List.find_some in Hfind as [Hin Hid].
  all: apply andb_true_iff in Hid as [Hid _]; apply String.eqb_eq in Hid.
  all: exists (Js.part (ctxParts ctx) 4), project, en, an.
  all: repeat split; assumption.
Qed.

(** Without pending wipe every confirmation is refused and the store is
    left as it is. *)
Lemma confirm_without_pending cfg env ctx (disk : Store) :
  isConfirmAll ctx \/ isConfirmProject ctx ->
  pendingOf disk (buildPeerKeyFromCommandCtx ctx) = None ->
  handleProjectsCommand cfg env ctx disk
  = (disk, Returned (Refuse NoWipePending)).
Proof.
  intros Hc Hnone.
  assert (ctxSub ctx = "wipe") as Hsub by (destruct Hc as [[H _]|[H _]]; exact H).
  rewrite (handle_wipe _ _ _ _ Hsub). apply cmdWipe_confirm_none; [|exact Hnone].
  destruct Hc as [[_ H]|[_ H]]; auto.
Qed.

Example wrong_nonce_scenario :
  let r := handleProjectsCommand cfg0 (env0 3) (ctx0 "wipe confirm deadbeee" 3)
             (run [("on", 1); ("wipe", 2)] ∅) in
  snd r = Returned (Refuse MismatchAll)
  /\ pendingOf (fst r) "telegram:u1" = None
  /\ projectsOf (fst r) "telegram:u1" = [generalProject].
Proof. repeat split; vm_compute; reflexivity. Qed.

Example expired_scenario :
  let r := handleProjectsCommand cfg0 (env0 120003)
             (ctx0 "wipe confirm deadbeef" 3)
             (run [("on", 1); ("wipe", 2)] ∅) in
  snd r = Returned (Refuse NonceExpired)
  /\ pendingOf (fst r) "telegram:u1" = None
  /\ snd (handleProjectsCommand cfg0 (env0 120002)
            (ctx0 "wipe confirm deadbeef" 3)
            (run [("on", 1); ("wipe", 2)] ∅))
     = Returned (WipedAll "/home/u/.openclaw/backup_projects_ux_20260105-093007").
Proof. repeat split; vm_compute; reflexivity. Qed.

Example cross_kind_scenario :
  let disk := run [("new p2", 1); ("reset remove proj-p2", 2)] ∅ in
  let r := handleProjectsCommand cfg0 (env0 3) (ctx0 "wipe confirm deadbeef" 3)
             disk in
  snd r = Returned (Refuse MismatchAll)
  /\ pendingOf (fst r) "telegram:u1" = None
  /\ projectsOf (fst r) "telegram:u1" = projectsOf disk "telegram:u1"
  /\ snd (handleProjectsCommand cfg0 (env0 4)
            (ctx0 "wipe project confirm deadbeef proj-p2" 4) (fst r))
     = Returned (Refuse NoWipePending).
Proof. cbv zeta. repeat split; vm_compute; reflexivity. Qed.

(** C1, as stated, fails: a confirmation that matches the arm in nonce,
    kind and time is not carried out when the backup copy fails.  The
    pending wipe has been cleared by then, so the arm is spent all the
    same; nothing else is changed. *)
Lemma C1_matching_confirm_aborts_on_backup_failure :
  let disk1 :=
    fst (handleProjectsCommand cfg0 (env0 2) (ctx0 "wipe" 2)
           (run [("new p2", 1)] ∅)) in
  let pending := newPending cfg0 (env0 2) KindAll None in
  let ctxC := ctx0 "wipe confirm deadbeef" 3 in
  let r := handleProjectsCommand cfg0 (envFail 3 "EACCES") ctxC disk1 in
  pendingOf disk1 "telegram:u1" = Some pending
  /\ matchesArm pending (nowMs (envFail 3 "EACCES")) ctxC
  /\ snd r = Threw "EACCES"
  /\ ~ answersWiped (snd r)
  /\ projectsOf (fst r) "telegram:u1" = projectsOf disk1 "telegram:u1"
  /\ List.map Project.id (projectsOf (fst r) "telegram:u1")
     = ["proj-general"; "proj-p2"]
  /\ pendingOf (fst r) "telegram:u1" = None.
Proof.
  cbv zeta. split; [vm_compute; reflexivity|]. split.
  { split; [vm_compute; discriminate|]. split; [split|]; reflexivity. }
  split; [vm_compute; reflexivity|]. split; [vm_compute; intros []|].
  repeat split; vm_compute; reflexivity.
Qed.

(** C1 (amended): take any arming step (the command replied with the armed
    wipe of all projects or of one project, [pending] being what it armed
    on the stored peer [armed] at the clock reading kept in it) followed
    by a confirmation command for the same peer.  A wipe is answered only
    if the confirmation matches the arm: it is the confirmation command
    of the armed kind, its nonce is the armed nonce, for one project its
    project id is the armed target, and at most 120000 ms have passed
    since arming.  A matching confirmation is carried out whenever the
    backup copy does not fail: the store then holds the reset state for a
    wipe of all projects and, for a wipe of one project, a collection
    without the target id that keeps every project of another id.  When
    the backup copy fails the matching confirmation aborts with the error
    of the copy, and a confirmation that does not match is refused: in
    both cases the store holds the peer as armed but without pending
    wipe.  In every case no wipe is pending afterwards, so that any later
    confirmation, with the same nonce or another, is refused as having
    nothing pending and changes nothing. *)
Theorem C1_arm_then_confirm cfg envA ctxA (disk0 disk1 : Store) pending
  envC ctxC :
  handleProjectsCommand cfg envA ctxA disk0 = (disk1, Returned (ArmedAll pending))
  \/ (exists project,
         handleProjectsCommand cfg envA ctxA disk0
         = (disk1, Returned (ArmedProject project pending))) ->
  buildPeerKeyFromCommandCtx ctxC = buildPeerKeyFromCommandCtx ctxA ->
  isConfirmAll ctxC \/ isConfirmProject ctxC ->
  let peerKey := buildPeerKeyFromCommandCtx ctxA in
  let r := handleProjectsCommand cfg envC ctxC disk1 in
  exists armed,
    disk1 !! peerKey = Some armed
    /\ PeerState.pendingWipe armed = Some pending
    /\ PendingWipe.createdAtMs pending = nowMs envA
    /\ (answersWiped (snd r) -> matchesArm pending (nowMs envC) ctxC)
    /\ (matchesArm pending (nowMs envC) ctxC ->
        (forall code, backupCopy envC <> CopyFailed code) ->
        exists after,
          fst r !! peerKey = Some after
          /\ carriedOut cfg pending armed after (snd r))
    /\ (matchesArm pending (nowMs envC) ctxC ->
        forall code, backupCopy envC = CopyFailed code ->
        aborted code (snd r)
        /\ fst r !! peerKey = Some (PeerState.setPendingWipe None armed))
    /\ (~ matchesArm pending (nowMs envC) ctxC ->
        refused (snd r)
        /\ fst r !! peerKey = Some (PeerState.setPendingWipe None armed))
    /\ pendingOf (fst r) peerKey = None
    /\ (forall envR ctxR,
           buildPeerKeyFromCommandCtx ctxR = peerKey ->
           isConfirmAll ctxR \/ isConfirmProject ctxR ->
           handleProjectsCommand cfg envR ctxR (fst r)
           = (fst r, Returned (Refuse NoWipePending))).
Proof.
  intros Harm Hkey Hc peerKey r.
  apply arm_wellArmed in Harm as [peer1 [Hpeer [Hwell Hat]]].
  subst peerKey r. exists peer1.
  assert (let r := handleProjectsCommand cfg envC ctxC disk1 in
          (answersWiped (snd r) -> matchesArm pending (nowMs envC) ctxC)
          /\ (matchesArm pending (nowMs envC) ctxC ->
              match backupCopy envC with
              | CopyFailed code =>
                  aborted code (snd r)
                  /\ fst r !! buildPeerKeyFromCommandCtx ctxC
                     = Some (PeerState.setPendingWipe None peer1)
              | _ =>
                  exists after,
                    fst r !! buildPeerKeyFromCommandCtx ctxC = Some after
                    /\ carriedOut cfg pending peer1 after (snd r)
              end)
          /\ (~ matchesArm pending (nowMs envC) ctxC ->
              refused (snd r)
              /\ fst r !! buildPeerKeyFromCommandCtx ctxC
                 = Some (PeerState.setPendingWipe None peer1))
          /\ pendingOf (fst r) (buildPeerKeyFromCommandCtx ctxC) = None)
    as Hspec.
  { rewrite <- Hkey in Hpeer.
    destruct Hc as [Hc|Hc];
      [apply confirm_all_spec | apply confirm_project_spec]; assumption. }
  cbv zeta in Hspec. rewrite Hkey in Hspec.
  destruct Hspec as [Hexec [Hmatch [Hrefuse Hclear]]].
  split; [exact Hpeer|]. split; [apply Hwell|]. split; [exact Hat|].
  split; [exact Hexec|]. split.
  { intros Hm Hcopy. specialize (Hmatch Hm).
    destruct (backupCopy envC) eqn:E; try exact Hmatch.
    exfalso. exact (Hcopy _ eq_refl). }
  split.
  { intros Hm code Hcopy. specialize (Hmatch Hm). rewrite Hcopy in Hmatch.
    exact Hmatch. }
  split; [exact Hrefuse|]. split; [exact Hclear|].
  intros envR ctxR HkeyR HcR. apply confirm_without_pending; [exact HcR|].
  rewrite HkeyR. exact Hclear.
Qed.

Lemma C1_arm_then_confirm_witness :
  let disk1 :=
    fst (handleProjectsCommand cfg0 (env0 2) (ctx0 "wipe" 2)
           (run [("new p2", 1)] ∅)) in
  (exists after,
      fst (handleProjectsCommand cfg0 (env0 120002)
             (ctx0 "wipe confirm deadbeef" 3) disk1) !! "telegram:u1"
      = Some after
      /\ PeerState.projects after = [generalProject])
  /\ refused (snd (handleProjectsCommand cfg0 (env0 120003)
                     (ctx0 "wipe confirm deadbeef" 3) disk1)).
Proof.
  intros disk1.
  pose proof (fun envC ctxC =>
    C1_arm_then_confirm cfg0 (env0 2) (ctx0 "wipe" 2) (run [("new p2", 1)] ∅)
      disk1 (newPending cfg0 (env0 2) KindAll None) envC ctxC
      (or_introl (eq_refl
         : handleProjectsCommand cfg0 (env0 2) (ctx0 "wipe" 2)
             (run [("new p2", 1)] ∅)
           = (disk1, Returned (ArmedAll (newPending cfg0 (env0 2) KindAll None))))))
    as H.
  split.
  - destruct (H (env0 120002) (ctx0 "wipe confirm deadbeef" 3) eq_refl
                (or_introl (conj eq_refl eq_refl)))
      as [armed [_ [_ [_ [_ [Hm _]]]]]].
    destruct Hm as [after [Hafter Hdone]].
    + split; [vm_compute; discriminate | split; [split|]; reflexivity].
    + intros code. discriminate.
    + exists after. split; [exact Hafter|].
      vm_compute in Hafter. injection Hafter as <-. reflexivity.
  - destruct (H (env0 120003) (ctx0 "wipe confirm deadbeef" 3) eq_refl
                (or_introl (conj eq_refl eq_refl)))
      as [armed [_ [_ [_ [_ [_ [_ [Hr _]]]]]]]].
    apply Hr. intros [Hle _]. vm_compute in Hle. apply Hle. reflexivity.
Defined.

(** ** Refused [switch] and [new] *)

(** When [ensureDefaultProject] reports no change the peer is unchanged. *)
Lemma healed_unchanged env d peer :
  healChanged d peer = false -> healed env d peer = peer.
Proof.
  unfold healChanged. intros H.
  repeat (apply orb_false_iff in H as [H ?]).
  destruct peer as [v en act prev eff last reset ps gt pw].
  cbn [PeerState.projects PeerState.globalTokens PeerState.projectsEnabled
       PeerState.activeProjectId] in *.
  destruct ps as [|p ps]; [discriminate|].
  destruct gt; [|discriminate]. destruct en; [|discriminate].
  unfold healed, healedActive.
  cbn [PeerState.projects PeerState.globalTokens PeerState.projectsEnabled
       PeerState.activeProjectId PeerState.version PeerState.previousProjectId
       PeerState.effectiveFromMessageId PeerState.lastProjectId
       PeerState.pendingReset PeerState.pendingWipe default from_option id].
  rewrite healedProjects_stable by (assumption || discriminate).
  match goal with
  | Ha : negb (Js.truthy act) = false |- _ =>
      apply negb_false_iff in Ha; rewrite Ha
  end.
  reflexivity.
Qed.

Lemma setProjectsEnabled_back v peer :
  PeerState.setProjectsEnabled (PeerState.projectsEnabled peer)
    (PeerState.setProjectsEnabled v peer) = peer.
Proof. destruct peer. reflexivity. Qed.

(** Only [switch] replies that a project was not found. *)
Lemma notFound_from_switch cfg env ctx (disk disk' : Store) key :
  handleProjectsCommand cfg env ctx disk
  = (disk', Returned (Refuse (ProjectNotFound key))) ->
  cmdSwitch cfg env ctx disk (buildPeerKeyFromCommandCtx ctx) (ctxArgs ctx)
  = (disk', Returned (Refuse (ProjectNotFound key))).
Proof.
  unfold handleProjectsCommand, cmdStatus, cmdDebug, cmdList, cmdReset,
    cmdWipe, cmdOn, cmdOff, cmdNew, withPeerState.
  cbv beta zeta. split_cases; intros H; try discriminate H.
  all: try exact H.
  all: do 3 (simplify_eq; revert_pairs; split_cases; intros); simplify_eq.
Qed.

(** Only [new] replies that the project limit is reached. *)
Lemma limit_from_new cfg env ctx (disk disk' : Store) m :
  handleProjectsCommand cfg env ctx disk
  = (disk', Returned (Refuse (ProjectLimit m))) ->
  cmdNew cfg env ctx disk (buildPeerKeyFromCommandCtx ctx) (ctxArgs ctx)
  = (disk', Returned (Refuse (ProjectLimit m))).
Proof.
  unfold handleProjectsCommand, cmdStatus, cmdDebug, cmdList, cmdReset,
    cmdWipe, cmdOn, cmdOff, cmdSwitch, withPeerState.
  cbv beta zeta. split_cases; intros H; try discriminate H.
  all: try exact H.
  all: do 3 (simplify_eq; revert_pairs; split_cases; intros); simplify_eq.
Qed.

(** What a refused [switch] or [new] writes back. *)
Lemma refused_switch_store cfg env ctx (disk disk' : Store) peerKey a key :
  cmdSwitch cfg env ctx disk peerKey a
  = (disk', Returned (Refuse (ProjectNotFound key))) ->
  disk' = <[peerKey :=
             PeerState.setProjectsEnabled (Some true)
               (healed env (defaultProjectName cfg) (startPeer disk peerKey))]>
            disk.
Proof.
  unfold cmdSwitch, withPeerState. cbv beta zeta. fold (startPeer disk peerKey).
  rewrite ensureDefaultProject_eq.
  destruct (negb (Js.truthy (Js.trim (Js.sliceFrom 6 a)))); [discriminate|].
  destruct (findProject _ _) as [[i project]|];
    [destruct (negb (Project.live project))|];
    intros H; injection H as <-; try reflexivity; discriminate.
Qed.

Lemma refused_new_store cfg env ctx (disk disk' : Store) peerKey a m :
  cmdNew cfg env ctx disk peerKey a
  = (disk', Returned (Refuse (ProjectLimit m))) ->
  disk' = <[peerKey :=
             PeerState.setProjectsEnabled (Some true)
               (healed env (defaultProjectName cfg) (startPeer disk peerKey))]>
            disk
  /\ (Z.of_nat
        (length
           (List.filter Project.live
              (healedProjects env (defaultProjectName cfg)
                 (PeerState.projects (startPeer disk peerKey)))))
      >= maxProjects cfg).
Proof.
  unfold cmdNew, withPeerState. cbv beta zeta. fold (startPeer disk peerKey).
  rewrite ensureDefaultProject_eq.
  destruct (negb (Js.truthy (Js.trim (Js.sliceFrom 3 a)))); [discriminate|].
  destruct (findIdx _ _) as [[i existing]|]; [discriminate|].
  cbn [PeerState.projects PeerState.setProjectsEnabled healed].
  destruct (Z.geb_spec
              (Z.of_nat
                 (length
                    (List.filter Project.live
                       (healedProjects env (defaultProjectName cfg)
                          (PeerState.projects (startPeer disk peerKey))))))
              (maxProjects cfg)) as [Hge|Hlt]; [|discriminate].
  intros H. injection H as <-. split; [reflexivity | lia].
Qed.

Example new_scenario :
  let r1 := handleProjectsCommand cfg0 (env0 1) (ctx0 "new Alpha" 1) ∅ in
  let r2 := handleProjectsCommand cfg0 (env0 2) (ctx0 "new alpha" 2) (fst r1) in
  (exists p, snd r1 = Returned (Created p) /\ Project.id p = "proj-alpha")
  /\ (exists p, snd r2 = Returned (SwitchedExisting p)
                /\ Project.id p = "proj-alpha")
  /\ List.map Project.id (projectsOf (fst r2) "telegram:u1")
     = ["proj-general"; "proj-alpha"].
Proof.
  cbv zeta. split; [|split].
  - eexists. split; vm_compute; reflexivity.
  - eexists. split; vm_compute; reflexivity.
  - vm_compute. reflexivity.
Qed.

Example new_limit_scenario :
  let disk := run [("off", 1)] ∅ in
  let r := handleProjectsCommand cfgOne (env0 2) (ctx0 "new p2" 2) disk in
  snd r = Returned (Refuse (ProjectLimit 1))
  /\ refusalText (ProjectLimit 1)
     = "Project limit reached (1). Archive old projects first."
  /\ projectsOf (fst r) "telegram:u1" = projectsOf disk "telegram:u1"
  /\ (PeerState.projectsEnabled <$> fst r !! "telegram:u1") = Some (Some true).
Proof. cbv zeta. repeat split; vm_compute; reflexivity. Qed.

(** C2: a refused [switch] mutates the stored state.  [switch] (and
    [new]) set [peer.projectsEnabled = true] before they look the project
    up (before they count the projects), and [withPeerState] writes the
    peer back whatever the callback returns: the refusal turns a stored
    Classic peer into a Projects one, after which the framing hook adds a
    preface and the routing hook replaces the room key, although the
    command only answered with an error.  The hooks are taken on the
    store written and, with the store file and the cache, at their first
    call, when nothing is cached. *)
Theorem C2_refused_switch_mutates :
  let disk := run [("off", 1)] ∅ in
  let r := handleProjectsCommand cfg0 (env0 2) (ctx0 "switch nope" 2) disk in
  let hook :=
    {| sessionKey := Some "agent:main:telegram:dm:u1";
       channelId := Some "telegram"; conversationId := None |} in
  let event := dmEvent 3 "agent:main:telegram:dm:u1" in
  snd r = Returned (Refuse (ProjectNotFound "nope"))
  /\ fst r !! "telegram:u1" <> disk !! "telegram:u1"
  /\ (PeerState.projectsEnabled <$> disk !! "telegram:u1") = Some (Some false)
  /\ (PeerState.projectsEnabled <$> fst r !! "telegram:u1") = Some (Some true)
  /\ snd (beforeAgentStart cfg0 (env0 3) hook disk) = None
  /\ snd (beforeAgentStart cfg0 (env0 3) hook (fst r)) <> None
  /\ snd (resolveRoomKey cfg0 (env0 3) event disk) = None
  /\ snd (resolveRoomKey cfg0 (env0 3) event (fst r))
     = Some "agent:main:telegram:dm:u1:proj:proj-general"
  /\ (let sys := {| sysFile := fileOf disk 1; sysCache := emptyCache |} in
      let sys' := {| sysFile := fileOf (fst r) 2; sysCache := emptyCache |} in
      sysHandleProjectsCommand cfg0 (env0 2) (ctx0 "switch nope" 2)
        (stampAt 2) sys
      = Some (sys', Returned (Refuse (ProjectNotFound "nope")))
      /\ snd (sysBeforeAgentStart cfg0 (env0 3) (stampAt 3) (stampAt 3) hook
                sys) = None
      /\ snd (sysBeforeAgentStart cfg0 (env0 3) (stampAt 3) (stampAt 3) hook
                sys') <> None
      /\ snd (sysResolveRoomKey cfg0 (env0 3) (stampAt 3) event sys) = None
      /\ snd (sysResolveRoomKey cfg0 (env0 3) (stampAt 3) event sys')
         = Some "agent:main:telegram:dm:u1:proj:proj-general").
Proof.
  cbv zeta. split; [vm_compute; reflexivity|].
  split; [vm_compute; discriminate|].
  split; [vm_compute; reflexivity|]. split; [vm_compute; reflexivity|].
  split; [vm_compute; reflexivity|]. split; [vm_compute; discriminate|].
  split; [vm_compute; reflexivity|]. split; [vm_compute; reflexivity|].
  split; [vm_compute; reflexivity|]. split; [vm_compute; reflexivity|].
  split; [vm_compute; discriminate|].
  split; vm_compute; reflexivity.
Qed.

(** The same slip in [new]: refused at the project limit, it has enabled
    projects already. *)
Example refused_new_mutates :
  let disk := run [("off", 1)] ∅ in
  let r := handleProjectsCommand cfgOne (env0 2) (ctx0 "new p2" 2) disk in
  snd r = Returned (Refuse (ProjectLimit 1))
  /\ (PeerState.projectsEnabled <$> disk !! "telegram:u1") = Some (Some false)
  /\ (PeerState.projectsEnabled <$> fst r !! "telegram:u1") = Some (Some true).
Proof. cbv zeta. repeat split; vm_compute; reflexivity. Qed.

(** That flag apart, the refusals keep the state: a [switch] refused
    because the project is unknown or archived, and a [new] refused because
    the limit of non-archived projects is reached, write back the stored
    state as healed by [ensureDefaultProject] (a fresh state when none of
    the supported version was stored) in every field other than the
    projects-enabled flag; when [ensureDefaultProject] has nothing to
    change, every field other than that flag is as stored. *)
Lemma refusal_keeps_healed_state cfg env ctx (disk disk' : Store) r :
  handleProjectsCommand cfg env ctx disk = (disk', Returned (Refuse r)) ->
  (exists key, r = ProjectNotFound key) \/ (exists m, r = ProjectLimit m) ->
  let peerKey := buildPeerKeyFromCommandCtx ctx in
  let start := startPeer disk peerKey in
  let h := fst (ensureDefaultProject env start (defaultProjectName cfg)) in
  exists peer',
    disk' = <[peerKey := peer']> disk
    /\ PeerState.setProjectsEnabled (PeerState.projectsEnabled h) peer' = h
    /\ (snd (ensureDefaultProject env start (defaultProjectName cfg)) = false ->
        PeerState.setProjectsEnabled (PeerState.projectsEnabled start) peer'
        = start).
Proof.
  intros H Hr peerKey start h. subst h. rewrite ensureDefaultProject_fst,
    ensureDefaultProject_snd.
  exists (PeerState.setProjectsEnabled (Some true)
            (healed env (defaultProjectName cfg) start)).
  split.
  - destruct Hr as [[key ->]|[m ->]].
    + apply notFound_from_switch in H. exact (refused_switch_store _ _ _ _ _ _ _ _ H).
    + apply limit_from_new in H. exact (proj1 (refused_new_store _ _ _ _ _ _ _ _ H)).
  - split; [apply setProjectsEnabled_back|].
    intros Hun. rewrite (healed_unchanged _ _ _ Hun).
    apply setProjectsEnabled_back.
Qed.

(** ** The default project cannot be wiped *)

Example default_project_scenario :
  let disk := run [("new p2", 1)] ∅ in
  let r := handleProjectsCommand cfg0 (env0 2)
             (ctx0 "reset remove proj-general" 2) disk in
  snd r = Returned (Refuse RefusedDefault)
  /\ List.map Project.id (projectsOf (fst r) "telegram:u1")
     = ["proj-general"; "proj-p2"].
Proof. split; vm_compute; reflexivity. Qed.

Lemma setPendingWipe_None_id peer :
  PeerState.pendingWipe peer = None -> PeerState.setPendingWipe None peer = peer.
Proof. destruct peer. cbn. intros ->. reflexivity. Qed.

(** Arming a wipe of the default project. *)
Lemma arm_default_refused cfg env ctx (disk : Store) :
  ctxSub ctx = "reset" ->
  Js.toLowerCase (Js.part (ctxParts ctx) 1) = "remove" ->
  Js.part (ctxParts ctx) 2 = defaultProjectId cfg ->
  let peerKey := buildPeerKeyFromCommandCtx ctx in
  let r := handleProjectsCommand cfg env ctx disk in
  refused (snd r)
  /\ fst r !! peerKey = healed env (defaultProjectName cfg) <$> disk !! peerKey.
Proof.
  intros Hsub Hact Hpid peerKey r. subst r peerKey.
  rewrite (handle_reset _ _ _ _ Hsub). unfold cmdReset. cbv zeta.
  rewrite Hact, Hpid. cbn [Js.toLowerCase]. cbn [negb].
  change (Js.truthy "remove") with true. cbn [negb].
  change (String.eqb "remove" "remove") with true. cbv iota.
  destruct (disk !! buildPeerKeyFromCommandCtx ctx) as [peer|] eqn:Hpeer.
  - rewrite ensureDefaultProject_eq.
    change (Js.truthy (defaultProjectId cfg)) with true. cbn [negb].
    rewrite String.eqb_refl. cbn [fst snd]. split; [exact I|].
    cbn [fmap option_fmap option_map].
    unfold persistIfChanged. destruct (healChanged _ peer) eqn:Hch.
    + apply lookup_insert_eq.
    + rewrite Hpeer, (healed_unchanged _ _ _ Hch). reflexivity.
  - cbn [fst snd]. rewrite Hpeer. split; [exact I | reflexivity].
Qed.

(** Confirming a wipe of the default project. *)
Lemma confirm_default_refused cfg env ctx (disk : Store) :
  isConfirmProject ctx ->
  Js.part (ctxParts ctx) 4 = defaultProjectId cfg ->
  let peerKey := buildPeerKeyFromCommandCtx ctx in
  let r := handleProjectsCommand cfg env ctx disk in
  refused (snd r)
  /\ fst r !! peerKey = PeerState.setPendingWipe None <$> disk !! peerKey.
Proof.
  intros Hc Hpid peerKey r. subst r peerKey.
  destruct (pendingOf disk (buildPeerKeyFromCommandCtx ctx)) as [pending|]
    eqn:Hpend.
  2: { rewrite (confirm_without_pending _ _ _ _ (or_intror Hc) Hpend).
       cbn [fst snd]. split; [exact I|]. unfold pendingOf in Hpend.
       destruct (disk !! buildPeerKeyFromCommandCtx ctx) as [peer|];
         [|reflexivity].
       cbn. rewrite (setPendingWipe_None_id _ Hpend). reflexivity. }
  unfold pendingOf in Hpend.
  destruct (disk !! buildPeerKeyFromCommandCtx ctx) as [peer|] eqn:Hpeer;
    [|discriminate].
  destruct Hc as [Hsub [Hact Hact2]].
  rewrite (handle_wipe _ _ _ _ Hsub).
  rewrite (cmdWipe_confirm_project _ _ _ _ _ _ _ _ Hact Hact2 Hpeer Hpend).
  cbv zeta. cbn [fmap option_fmap option_map].
  destruct (_ >? _); [split; [exact I | apply lookup_insert_eq]|].
  match goal with
  | |- context [if ?b then _ else _] => destruct b
  end; [split; [exact I | apply lookup_insert_eq]|].
  unfold backupAndWipeOneProject. rewrite lookup_insert_eq, Hpid.
  rewrite ensureDefaultProject_eq, String.eqb_refl.
  destruct (backupCopy env); (split; [exact I | apply lookup_insert_eq]).
Qed.

(** C4, as stated, fails: the refusal to arm a wipe of the default project
    comes after [ensureDefaultProject], whose changes are written to the
    store; here the stored collection is empty before the refusal and
    holds the default project after it. *)
Lemma C4_refused_arm_heals_collection :
  let disk := run [("wipe", 1)] ∅ in
  let r := handleProjectsCommand cfg0 (env0 2)
             (ctx0 "reset remove proj-general" 2) disk in
  snd r = Returned (Refuse RefusedDefault)
  /\ projectsOf disk "telegram:u1" = []
  /\ projectsOf (fst r) "telegram:u1" = [generalProject]
  /\ projectsOf (fst r) "telegram:u1" <> projectsOf disk "telegram:u1".
Proof.
  cbv zeta. repeat split; try (vm_compute; reflexivity).
  vm_compute. discriminate.
Qed.

(** C4 (amended): arming or confirming a wipe of one project whose target
    is the default project id is always refused, whatever wipe is or is
    not pending.  The refused confirmation leaves the stored peer as it
    was but for the pending wipe, which is cleared; the refused arming
    leaves the stored peer as [ensureDefaultProject] heals it, hence
    unchanged when there is nothing to heal.  In neither case is a
    project removed: the ids of the stored collection are kept, in
    order. *)
Theorem C4_default_project_protected cfg env ctx (disk : Store) :
  let peerKey := buildPeerKeyFromCommandCtx ctx in
  let r := handleProjectsCommand cfg env ctx disk in
  (ctxSub ctx = "reset" ->
   Js.toLowerCase (Js.part (ctxParts ctx) 1) = "remove" ->
   Js.part (ctxParts ctx) 2 = defaultProjectId cfg ->
   refused (snd r)
   /\ fst r !! peerKey = healed env (defaultProjectName cfg) <$> disk !! peerKey
   /\ (forall peer,
          disk !! peerKey = Some peer ->
          snd (ensureDefaultProject env peer (defaultProjectName cfg)) = false ->
          fst r !! peerKey = Some peer)
   /\ (projectsOf disk peerKey <> [] ->
       List.map Project.id (projectsOf (fst r) peerKey)
       = List.map Project.id (projectsOf disk peerKey)))
  /\ (isConfirmProject ctx ->
      Js.part (ctxParts ctx) 4 = defaultProjectId cfg ->
      refused (snd r)
      /\ fst r !! peerKey = PeerState.setPendingWipe None <$> disk !! peerKey
      /\ projectsOf (fst r) peerKey = projectsOf disk peerKey).
Proof.
  intros peerKey r. split.
  - intros Hsub Hact Hpid.
    destruct (arm_default_refused cfg env ctx disk Hsub Hact Hpid) as [Hr Hd].
    fold peerKey in Hd. fold r in Hr, Hd.
    split; [exact Hr|]. split; [exact Hd|]. split.
    + intros peer Hpeer Hun. rewrite Hd, Hpeer.
      rewrite ensureDefaultProject_snd in Hun.
      cbn. rewrite (healed_unchanged _ _ _ Hun). reflexivity.
    + unfold projectsOf. rewrite Hd.
      destruct (disk !! peerKey) as [peer|]; [|congruence].
      cbn [fmap option_fmap option_map healed PeerState.projects].
      destruct (PeerState.projects peer) as [|p ps]; [congruence|].
      intros _. apply healedProjects_ids.
  - intros Hc Hpid.
    destruct (confirm_default_refused cfg env ctx disk Hc Hpid) as [Hr Hd].
    fold peerKey in Hd. fold r in Hr, Hd.
    split; [exact Hr|]. split; [exact Hd|].
    unfold projectsOf. rewrite Hd.
    destruct (disk !! peerKey) as [peer|]; reflexivity.
Qed.

Lemma C4_default_project_protected_witness :
  refused (snd (handleProjectsCommand cfg0 (env0 2)
                  (ctx0 "reset remove proj-general" 2)
                  (run [("new p2", 1)] ∅)))
  /\ refused (snd (handleProjectsCommand cfg0 (env0 3)
                     (ctx0 "wipe project confirm deadbeef proj-general" 3)
                     (run [("new p2", 1); ("reset remove proj-p2", 2)] ∅))).
Proof.
  split.
  - exact (proj1 (proj1 (C4_default_project_protected cfg0 (env0 2)
                           (ctx0 "reset remove proj-general" 2)
                           (run [("new p2", 1)] ∅))
                    eq_refl eq_refl eq_refl)).
  - exact (proj1 (proj2 (C4_default_project_protected cfg0 (env0 3)
                           (ctx0 "wipe project confirm deadbeef proj-general" 3)
                           (run [("new p2", 1); ("reset remove proj-p2", 2)] ∅))
                    (conj eq_refl (conj eq_refl eq_refl)) eq_refl)).
Defined.

(** ** Wipe of one project *)

Example wipe_one_scenario :
  let disk := run [("new p2", 1); ("reset remove proj-p2", 2)] ∅ in
  let r := handleProjectsCommand cfg0 (env0 3)
             (ctx0 "wipe project confirm deadbeef proj-p2" 3) disk in
  snd r
  = Returned (WipedProject "p2" "proj-p2"
                "/home/u/.openclaw/backup_projects_ux_20260105-093007" true
                "General")
  /\ fst r !! "telegram:u1"
     = Some {| PeerState.version := 1; PeerState.projectsEnabled := Some true;
               PeerState.activeProjectId := "proj-general";
               PeerState.previousProjectId := None;
               PeerState.effectiveFromMessageId := Some 3;
               PeerState.lastProjectId := Some "proj-general";
               PeerState.pendingReset := Some true;
               PeerState.projects := [generalProject];
               PeerState.globalTokens := Some [];
               PeerState.pendingWipe := None |}.
Proof. split; vm_compute; reflexivity. Qed.

Lemma filter_all {A} (g : A -> bool) l :
  (forall x, In x l -> g x = true) -> List.filter g l = l.
Proof.
  induction l as [|a l IH]; intros H; [reflexivity|]. cbn.
  rewrite (H a (or_introl eq_refl)). f_equal. apply IH.
  intros x Hx. apply H. right. exact Hx.
Qed.

(** With unique ids, removing the projects of one id removes one project. *)
Lemma filter_unique_id projectId (l : list Project.t) target :
  List.NoDup (List.map Project.id l) ->
  In target l -> Project.id target = projectId ->
  exists l1 l2,
    l = (l1 ++ target :: l2)%list
    /\ List.filter (fun p => negb (hasId projectId p)) l = (l1 ++ l2)%list.
Proof.
  intros Hnd Hin Hid. apply in_split in Hin as [l1 [l2 ->]].
  exists l1, l2. split; [reflexivity|].
  rewrite List.map_app in Hnd. cbn [List.map] in Hnd.
  apply List.NoDup_remove_2 in Hnd. rewrite Hid in Hnd.
  assert (forall x, In x (l1 ++ l2)%list -> negb (hasId projectId x) = true)
    as Hother.
  { intros x Hx. unfold hasId. destruct (String.eqb_spec (Project.id x) projectId)
      as [E|E]; [|reflexivity].
    exfalso. apply Hnd. rewrite <- List.map_app, <- E. apply in_map. exact Hx. }
  rewrite List.filter_app. cbn [List.filter]. unfold hasId at 2.
  rewrite Hid, String.eqb_refl. cbn [negb].
  rewrite <- List.filter_app. apply filter_all. exact Hother.
Qed.

Lemma isSomeStr_true o s : isSomeStr o s = true <-> o = Some s.
Proof.
  destruct o as [x|]; cbn; [|split; discriminate].
  rewrite String.eqb_eq. split; congruence.
Qed.

(** The fields of the peer after [removeProject] on a healed state. *)
Lemma removeProject_fields cfg peer projectId messageId b :
  PeerState.projectsEnabled peer = Some b ->
  let after := removeProject cfg peer projectId messageId in
  PeerState.projects after
  = List.filter (fun p => negb (hasId projectId p)) (PeerState.projects peer)
  /\ PeerState.globalTokens after = PeerState.globalTokens peer
  /\ PeerState.projectsEnabled after = Some b
  /\ (PeerState.activeProjectId peer = projectId
      \/ PeerState.previousProjectId peer = Some projectId
      \/ PeerState.lastProjectId peer = Some projectId ->
      PeerState.activeProjectId after = defaultProjectId cfg
      /\ PeerState.previousProjectId after = None
      /\ PeerState.lastProjectId after = Some (defaultProjectId cfg)
      /\ PeerState.pendingReset after = Some true).
Proof.
  intros Hen after. subst after. unfold removeProject. cbv zeta.
  cbn [PeerState.activeProjectId PeerState.previousProjectId
       PeerState.lastProjectId PeerState.setProjects].
  set (was := String.eqb (PeerState.activeProjectId peer) projectId
              || isSomeStr (PeerState.previousProjectId peer) projectId
              || isSomeStr (PeerState.lastProjectId peer) projectId).
  assert (PeerState.activeProjectId peer = projectId
          \/ PeerState.previousProjectId peer = Some projectId
          \/ PeerState.lastProjectId peer = Some projectId -> was = true) as Hwas.
  { intros [H|[H|H]]; subst was.
    - apply String.eqb_eq in H. rewrite H. reflexivity.
    - apply isSomeStr_true in H. rewrite H. apply orb_true_iff. left.
      apply orb_true_r.
    - apply isSomeStr_true in H. rewrite H. apply orb_true_r. }
  destruct peer as [v en act prev eff last reset ps gt pw].
  cbn [PeerState.projectsEnabled] in Hen. subst en.
  destruct was eqn:E; destruct messageId; cbn;
    (split; [reflexivity|]); (split; [reflexivity|]); (split; [reflexivity|]);
    intros Hw; try (apply Hwas in Hw; discriminate Hw);
    repeat split; reflexivity.
Qed.

(** When the removed project was the previous project, the previous
    reference is cleared, not re-pointed to the default project id, and
    the active reference is moved to the default project although it
    named another project. *)
Example previous_cleared_not_repointed :
  let disk := run [("new p2", 1); ("new p3", 2); ("reset remove proj-p2", 3)] ∅ in
  let r := handleProjectsCommand cfg0 (env0 4)
             (ctx0 "wipe project confirm deadbeef proj-p2" 4) disk in
  answersWiped (snd r)
  /\ (PeerState.previousProjectId <$> disk !! "telegram:u1")
     = Some (Some "proj-p2")
  /\ (PeerState.activeProjectId <$> disk !! "telegram:u1") = Some "proj-p3"
  /\ (PeerState.previousProjectId <$> fst r !! "telegram:u1") = Some None
  /\ (PeerState.activeProjectId <$> fst r !! "telegram:u1")
     = Some "proj-general".
Proof.
  cbv zeta. split; [vm_compute; exact I|].
  repeat split; vm_compute; reflexivity.
Qed.

(** What a wipe of one project that is carried out does to the store: it
    replaces only the state of the peer.  Starting from the stored state
    as [ensureDefaultProject] heals it (the stored state itself, without
    pending wipe, when nothing needs healing), it removes every project
    whose id is the target id; when another project remains, the
    collection is what remains, untouched and in order; the global tokens
    and the projects-enabled flag are kept and no wipe is pending.  If
    the target was the active, previous or last-used project, the active
    and last-used references are the default project id, the previous
    reference is cleared, and, when another project remains, the
    pending-reset flag is set. *)
Lemma wipe_one_frame cfg env (disk disk' : Store) peerKey pending
  projectId messageId backupDir projectName enabled activeName :
  backupAndWipeOneProject cfg env disk peerKey pending projectId messageId
  = (disk', WipeOneOk backupDir projectName enabled activeName) ->
  exists peer peer',
    disk !! peerKey = Some peer
    /\ disk' = <[peerKey := peer']> disk
    /\ let h :=
         fst (ensureDefaultProject env (PeerState.setPendingWipe None peer)
                (defaultProjectName cfg)) in
       let rest :=
         List.filter (fun p => negb (hasId projectId p)) (PeerState.projects h) in
       (snd (ensureDefaultProject env (PeerState.setPendingWipe None peer)
               (defaultProjectName cfg)) = false ->
        h = PeerState.setPendingWipe None peer)
       /\ (rest <> [] -> PeerState.projects peer' = rest)
       /\ (List.NoDup (List.map Project.id (PeerState.projects h)) ->
           exists l1 target l2,
             PeerState.projects h = (l1 ++ target :: l2)%list
             /\ Project.id target = projectId
             /\ Project.name target = projectName
             /\ rest = (l1 ++ l2)%list)
       /\ PeerState.globalTokens peer' = PeerState.globalTokens h
       /\ PeerState.projectsEnabled peer' = PeerState.projectsEnabled h
       /\ PeerState.pendingWipe peer' = None
       /\ (PeerState.activeProjectId h = projectId
           \/ PeerState.previousProjectId h = Some projectId
           \/ PeerState.lastProjectId h = Some projectId ->
           PeerState.activeProjectId peer' = defaultProjectId cfg
           /\ PeerState.lastProjectId peer' = Some (defaultProjectId cfg)
           /\ PeerState.previousProjectId peer' = None
           /\ (rest <> [] -> PeerState.pendingReset peer' = Some true)).
Proof.
  unfold backupAndWipeOneProject. intros H.
  assert (exists peer target,
             disk !! peerKey = Some peer
             /\ List.find (fun p => hasId projectId p && Project.live p)
                  (PeerState.projects
                     (healed env (defaultProjectName cfg)
                        (PeerState.setPendingWipe None peer))) = Some target
             /\ projectName = Project.name target
             /\ disk' = <[peerKey :=
                           healed env (defaultProjectName cfg)
                             (removeProject cfg
                                (healed env (defaultProjectName cfg)
                                   (PeerState.setPendingWipe None peer))
                                projectId messageId)]> disk)
    as [peer [target [Hpeer [Hfind [Hname Hd]]]]].
  { destruct (disk !! peerKey) as [peer|]; [|destruct (backupCopy env);
      discriminate H].
    rewrite !ensureDefaultProject_eq in H.
    destruct (String.eqb projectId (defaultProjectId cfg));
      [destruct (backupCopy env); discriminate H|].
    destruct (List.find _ _) as [target|] eqn:Hfind;
      [|destruct (backupCopy env); discriminate H].
    exists peer, target.
    destruct (backupCopy env); [| |discriminate H];
      injection H as <- _ <- _ _; auto. }
  clear H. exists peer. eexists. split; [exact Hpeer|]. split; [exact Hd|].
  rewrite ensureDefaultProject_fst, ensureDefaultProject_snd. cbv zeta.
  set (h := healed env (defaultProjectName cfg)
              (PeerState.setPendingWipe None peer)) in *.
  destruct (removeProject_fields cfg h projectId messageId
              (default false (PeerState.projectsEnabled peer)) eq_refl)
    as [Hps [Hgt [Hen Hwas]]].
  set (after := removeProject cfg h projectId messageId) in *.
  set (rest := List.filter (fun p => negb (hasId projectId p))
                 (PeerState.projects h)) in *.
  assert (rest <> [] ->
          healedProjects env (defaultProjectName cfg) rest = rest) as Hstable.
  { intros Hne. apply healedProjects_stable; [exact Hne| |];
      apply existsb_filter_false;
      [apply healedProjects_noRename | apply healedProjects_hasTokens]. }
  split; [intros Hun; apply healed_unchanged; exact Hun|].
  split; [intros Hne; cbn [healed PeerState.projects]; rewrite Hps;
          exact (Hstable Hne)|].
  split.
  { intros Hnd. apply find_some in Hfind as [Hin Hid].
    apply andb_true_iff in Hid as [Hid _]. apply String.eqb_eq in Hid.
    destruct (filter_unique_id projectId _ target Hnd Hin Hid)
      as [l1 [l2 [E1 E2]]].
    exists l1, target, l2. auto. }
  split; [cbn [healed PeerState.globalTokens]; rewrite Hgt; reflexivity|].
  split; [cbn [healed PeerState.projectsEnabled]; rewrite Hen; reflexivity|].
  split; [cbn [healed PeerState.pendingWipe]; subst after;
          rewrite pendingWipe_removeProject; reflexivity|].
  intros Hw. specialize (Hwas Hw) as [Ha [Hp [Hl Hr]]].
  cbn [healed PeerState.activeProjectId PeerState.lastProjectId
       PeerState.previousProjectId PeerState.pendingReset].
  unfold healedActive. rewrite Ha, Hp, Hl, Hr, Hps. fold rest.
  destruct rest as [|q qs]; [|change (Js.truthy (defaultProjectId cfg)) with true];
    repeat split; try reflexivity; intros Hne; congruence.
Qed.

Example wipe_one_frame_ex :
  let disk :=
    fst (clearPending
           (run [("new p2", 1); ("new p3", 2); ("reset remove proj-p2", 3)] ∅)
           "telegram:u1"
           (default wipeFreshPeer
              (run [("new p2", 1); ("new p3", 2); ("reset remove proj-p2", 3)] ∅
               !! "telegram:u1"))) in
  exists peer peer',
    disk !! "telegram:u1" = Some peer
    /\ fst (backupAndWipeOneProject cfg0 (env0 4) disk "telegram:u1"
              (newPending cfg0 (env0 3) KindProject (Some "proj-p2"))
              "proj-p2" (Some 4))
       = <["telegram:u1" := peer']> disk
    /\ List.map Project.id (PeerState.projects peer')
       = ["proj-general"; "proj-p3"]
    /\ PeerState.previousProjectId peer' = None
    /\ PeerState.activeProjectId peer' = "proj-general".
Proof.
  intros disk.
  destruct (wipe_one_frame cfg0 (env0 4) disk
              (fst (backupAndWipeOneProject cfg0 (env0 4) disk "telegram:u1"
                      (newPending cfg0 (env0 3) KindProject (Some "proj-p2"))
                      "proj-p2" (Some 4)))
              "telegram:u1"
              (newPending cfg0 (env0 3) KindProject (Some "proj-p2"))
              "proj-p2" (Some 4)
              "/home/u/.openclaw/backup_projects_ux_20260105-093007" "p2" true
              "General")
    as [peer [peer' [Hpeer [Hd [_ [Hrest [_ [_ [_ [_ Hwas]]]]]]]]]].
  - vm_compute. reflexivity.
  - exists peer, peer'. split; [exact Hpeer|]. split; [exact Hd|].
    assert (peer = default emptyPeer (disk !! "telegram:u1")) as ->.
    { apply (inj Some). rewrite <- Hpeer. vm_compute. reflexivity. }
    split; [rewrite Hrest; [vm_compute; reflexivity | vm_compute; discriminate]|].
    destruct Hwas as [Ha [_ [Hp _]]]; [right; left; vm_compute; reflexivity|].
    split; [exact Hp | rewrite Ha; reflexivity].
Qed.

(** C5: the wipe of one project removes more than the target when ids
    are shared.  [new] makes the id from the slug of the name and compares
    only names with the projects present, so [new a b] and [new a-b]
    create two projects with the id [proj-a-b]; the wipe armed for that
    id names the project [a b] in its prompt and in its reply, and
    [peer.projects.filter((p) => p.id !== projectId)] removes the project
    [a-b] with it. *)
Theorem C5_wipe_removes_projects_sharing_id :
  let disk :=
    run [("new a b", 1); ("new a-b", 2); ("reset remove proj-a-b", 3)] ∅ in
  let r := handleProjectsCommand cfg0 (env0 4)
             (ctx0 "wipe project confirm deadbeef proj-a-b" 4) disk in
  List.map (fun p => (Project.id p, Project.name p)) (projectsOf disk "telegram:u1")
  = [("proj-general", "General"); ("proj-a-b", "a b"); ("proj-a-b", "a-b")]
  /\ (exists pending,
         pendingOf disk "telegram:u1" = Some pending
         /\ PendingWipe.kind pending = KindProject
         /\ PendingWipe.projectId pending = Some "proj-a-b")
  /\ snd r
     = Returned (WipedProject "a b" "proj-a-b"
                   "/home/u/.openclaw/backup_projects_ux_20260105-093007" true
                   "General")
  /\ List.map (fun p => (Project.id p, Project.name p))
       (projectsOf (fst r) "telegram:u1")
     = [("proj-general", "General")].
Proof.
  cbv zeta. split; [vm_compute; reflexivity|]. split.
  - eexists. split; [vm_compute; reflexivity|]. split; reflexivity.
  - split; vm_compute; reflexivity.
Qed.

(** * Further properties of the code *)

(** ** Text utilities *)

Lemma firstn_fits {A} n (l : list A) : (length l <= n)%nat -> firstn n l = l.
Proof. apply firstn_all2. Qed.

Lemma clampText_chars text maxChars :
  Js.chars (clampText text maxChars)
  = firstn (Z.to_nat maxChars) (Js.chars text).
Proof.
  unfold clampText. destruct (Z.leb_spec maxChars 0) as [Hle|Hgt].
  - replace (Z.to_nat maxChars) with O by lia. reflexivity.
  - destruct (Z.gtb_spec (Z.of_nat (String.length text)) maxChars)
      as [Hlong|Hfit].
    + unfold Js.sliceTo. apply chars_str.
    + symmetry. apply firstn_fits. rewrite length_chars. lia.
Qed.

Lemma clampText_length text maxChars :
  Z.of_nat (String.length (clampText text maxChars)) <= Z.max 0 maxChars.
Proof.
  rewrite <- length_chars, clampText_chars.
  pose proof (firstn_le_length (Z.to_nat maxChars) (Js.chars text)). lia.
Qed.

(** X1: [clampText] returns the first [maxChars] characters of the text
    (none for a limit that is not positive, the whole text when it fits);
    the result is never longer than the limit. *)
Theorem X1_clampText_prefix text maxChars :
  Js.chars (clampText text maxChars)
  = firstn (Z.to_nat maxChars) (Js.chars text)
  /\ Z.of_nat (String.length (clampText text maxChars)) <= Z.max 0 maxChars.
Proof.
  split; [apply clampText_chars | apply clampText_length].
Qed.

Lemma dropWhile_head f l c r : Js.dropWhile f l = c :: r -> f c = false.
Proof.
  induction l as [|a l IH]; cbn; [discriminate|].
  destruct (f a) eqn:E; [exact IH|]. intros H. injection H as <- _. exact E.
Qed.

Lemma dropWhile_app_last f x c :
  f c = false -> exists m, Js.dropWhile f (x ++ [c])%list = (m ++ [c])%list.
Proof.
  intros Hc. induction x as [|a x IH]; cbn.
  - rewrite Hc. exists []. reflexivity.
  - destruct (f a); [exact IH|]. exists (a :: x). reflexivity.
Qed.

(** Trimming at the end keeps a first character that is not trimmed. *)
Lemma dropWhileEnd_cons f c l :
  f c = false -> exists l', Js.dropWhileEnd f (c :: l) = c :: l'.
Proof.
  intros Hc. unfold Js.dropWhileEnd. cbn [rev].
  destruct (dropWhile_app_last f (rev l) c Hc) as [m ->].
  exists (rev m). rewrite rev_app_distr. reflexivity.
Qed.

Lemma chars_slugifyId input :
  Js.chars (slugifyId input)
  = firstn 48
      (Js.stripHyphens
         (Js.replaceRuns isSlugChar false
            (Js.chars (Js.toLowerCase (Js.trim input))))).
Proof. unfold slugifyId, Js.sliceTo. rewrite !chars_str. reflexivity. Qed.

(** X2: a slug has at most 48 characters, all from [a-z0-9-], and does
    not start with a hyphen. *)
Theorem X2_slugifyId_shape input :
  (String.length (slugifyId input) <= 48)%nat
  /\ Forall (fun c => isSlugOrHyphen c = true) (Js.chars (slugifyId input))
  /\ (forall c rest,
         Js.chars (slugifyId input) = c :: rest -> isSlugChar c = true).
Proof.
  assert (Forall (fun c => isSlugOrHyphen c = true) (Js.chars (slugifyId input)))
    as Hall.
  { rewrite chars_slugifyId. apply Forall_firstn.
    unfold Js.stripHyphens. apply Forall_dropWhileEnd, Forall_dropWhile.
    apply Forall_replaceRuns; [reflexivity|].
    intros c Hc. unfold isSlugOrHyphen. rewrite Hc. reflexivity. }
  split; [rewrite <- length_chars, chars_slugifyId; apply firstn_le_length|].
  split; [exact Hall|].
  intros c rest E.
  assert (Js.isHyphen c = false) as Hh.
  { rewrite chars_slugifyId in E. unfold Js.stripHyphens in E.
    destruct (Js.dropWhile Js.isHyphen _) as [|a l] eqn:Ed.
    - cbn in E. destruct (48%nat); discriminate E.
    - pose proof (dropWhile_head _ _ _ _ Ed) as Ha.
      destruct (dropWhileEnd_cons Js.isHyphen a l Ha) as [l' El].
      rewrite El in E. cbn in E. injection E as <- _. exact Ha. }
  rewrite E in Hall. apply Forall_cons_iff in Hall as [Hc _].
  unfold isSlugOrHyphen in Hc. rewrite Hh, orb_false_r in Hc. exact Hc.
Qed.

Lemma X2_slugifyId_shape_witness :
  Js.chars (slugifyId "My Plan") = "m"%char :: Js.chars "y-plan"
  /\ isSlugChar "m" = true.
Proof.
  split; [reflexivity|].
  apply (proj2 (proj2 (X2_slugifyId_shape "My Plan"))
           "m"%char (Js.chars "y-plan")).
  reflexivity.
Defined.

Example slugifyId_cut_ends_with_hyphen :
  slugifyId "aaaaaaaaaaaaaaaaaaaaaaaaaaaaaaaaaaaaaaaaaaaaaaa b"
  = "aaaaaaaaaaaaaaaaaaaaaaaaaaaaaaaaaaaaaaaaaaaaaaa-".
Proof. reflexivity. Qed.

(** A text whose first character is kept by every step of the pipeline
    has a non-empty routing token. *)
Lemma sanitize_keeps_head s c r :
  Js.chars s = c :: r ->
  Js.isSpace c = false ->
  isRoomKeyChar (Js.lowerChar c) = true ->
  Js.isHyphen (Js.lowerChar c) = false ->
  Js.truthy (sanitizeRoomKeySuffixToken s) = true.
Proof.
  intros Hs Hsp Hok Hh.
  unfold sanitizeRoomKeySuffixToken, Js.sliceTo, Js.toLowerCase, Js.trim,
    Js.trimChars.
  rewrite !chars_str, Hs. cbn [Js.dropWhile]. rewrite Hsp.
  destruct (dropWhileEnd_cons Js.isSpace c r Hsp) as [l1 ->].
  cbn [List.map Js.replaceRuns]. rewrite Hok.
  unfold Js.stripHyphens. cbn [Js.dropWhile]. rewrite Hh.
  destruct (dropWhileEnd_cons Js.isHyphen (Js.lowerChar c)
              (Js.replaceRuns isRoomKeyChar false (List.map Js.lowerChar l1)) Hh)
    as [l2 ->].
  reflexivity.
Qed.

(** X3: the ids that the code gives to projects, the default project's
    and those made by [new] (from the slug of the name, or random when
    the slug is empty), all have a non-empty routing token, so that
    [resolve_room_key] never drops the suffix for them. *)
Theorem X3_generated_ids_have_tokens env defaultName name :
  Js.truthy (sanitizeRoomKeySuffixToken (defaultProjectIdOf defaultName)) = true
  /\ Js.truthy (sanitizeRoomKeySuffixToken (newProjectId env name)) = true.
Proof.
  assert (forall x, Js.truthy (sanitizeRoomKeySuffixToken ("proj-" ++ x)) = true)
    as H.
  { intros x. apply (sanitize_keeps_head _ "p"%char (Js.chars ("roj-" ++ x)));
      reflexivity. }
  split; [apply H|].
  unfold newProjectId, randomId. destruct (Js.truthy (slugifyId name)); apply H.
Qed.

(** ** Nonce and backup stamp *)

(** X4: a nonce of [n] random bytes is [2 n] characters from [0-9a-f];
    in particular it contains no white space. *)
Theorem X4_randomNonce_hex entropy n :
  String.length (randomNonce entropy n) = (2 * n)%nat
  /\ Forall (fun c => isHexChar c = true /\ Js.isSpace c = false)
       (Js.chars (randomNonce entropy n)).
Proof.
  unfold randomNonce.
  destruct (hex_shape (List.map entropy (seq 0 n))) as [Hl Hf].
  split.
  - rewrite <- length_chars, Hl, length_map, length_seq. reflexivity.
  - eapply Forall_impl; [exact Hf|]. intros c Hc. split; [exact Hc|].
    apply hex_not_space, Hc.
Qed.

Lemma twoDigits_range n : 0 <= n <= 99 -> twoDigits n = true.
Proof.
  intros H.
  assert (forallb twoDigits (List.map Z.of_nat (seq 0 100)) = true) as Hall
    by (vm_compute; reflexivity).
  rewrite forallb_forall in Hall. apply Hall.
  apply in_map_iff. exists (Z.to_nat n). split; [lia|].
  apply in_seq. lia.
Qed.

Lemma fourDigits_range n : 1000 <= n <= 9999 -> fourDigits n = true.
Proof.
  intros H.
  assert (forallb fourDigits (List.map Z.of_nat (seq 1000 (90 * 100))) = true) as Hall
    by (vm_compute; reflexivity).
  rewrite forallb_forall in Hall. apply Hall.
  apply in_map_iff. exists (Z.to_nat n). split; [lia|].
  apply in_seq. lia.
Qed.

Lemma digits_spec k l :
  (length l =? k)%nat && forallb Js.isDigit l = true ->
  length l = k /\ Forall (fun c => Js.isDigit c = true) l.
Proof.
  intros H. apply andb_true_iff in H as [Hl Hd].
  apply Nat.eqb_eq in Hl. split; [exact Hl|].
  apply Forall_forall. intros c Hc. rewrite forallb_forall in Hd.
  apply Hd. apply list_elem_of_In. exact Hc.
Qed.

(** X5: for the calendar fields of a date with a four-digit year, the
    backup stamp is eight digits, a hyphen and six digits: fifteen
    characters, none of which is a path separator or white space. *)
Theorem X5_formatBackupStamp_shape d :
  dateInRange d ->
  exists day time,
    Js.chars (formatBackupStamp d) = (day ++ "-"%char :: time)%list
    /\ length day = 8%nat /\ length time = 6%nat
    /\ Forall (fun c => Js.isDigit c = true) day
    /\ Forall (fun c => Js.isDigit c = true) time.
Proof.
  intros [Hy [Hm [Hd [Hh [Hmi Hs]]]]].
  destruct (digits_spec _ _ (fourDigits_range (fullYear d) Hy)) as [Ly Fy].
  destruct (digits_spec _ _
              (twoDigits_range (month0 d + 1) ltac:(lia))) as [Lm Fm].
  destruct (digits_spec _ _ (twoDigits_range (date d) ltac:(lia)))
    as [Ld Fd].
  destruct (digits_spec _ _ (twoDigits_range (hours d) ltac:(lia)))
    as [Lh Fh].
  destruct (digits_spec _ _ (twoDigits_range (minutes d) ltac:(lia)))
    as [Lmi Fmi].
  destruct (digits_spec _ _ (twoDigits_range (seconds d) ltac:(lia)))
    as [Ls Fs].
  exists (Js.chars (Js.ofZ (fullYear d))
          ++ Js.chars (Js.padStart2 (Js.ofZ (month0 d + 1)))
          ++ Js.chars (Js.padStart2 (Js.ofZ (date d))))%list,
    (Js.chars (Js.padStart2 (Js.ofZ (hours d)))
     ++ Js.chars (Js.padStart2 (Js.ofZ (minutes d)))
     ++ Js.chars (Js.padStart2 (Js.ofZ (seconds d))))%list.
  split.
  { unfold formatBackupStamp. rewrite !chars_append, <- !app_assoc.
    reflexivity. }
  rewrite !length_app, Ly, Lm, Ld, Lh, Lmi, Ls.
  split; [reflexivity|]. split; [reflexivity|].
  split; repeat apply Forall_app_2; assumption.
Qed.

Lemma X5_formatBackupStamp_shape_witness :
  exists day time,
    Js.chars (formatBackupStamp (nowDate (env0 0)))
    = (day ++ "-"%char :: time)%list
    /\ length day = 8%nat /\ length time = 6%nat
    /\ Forall (fun c => Js.isDigit c = true) day
    /\ Forall (fun c => Js.isDigit c = true) time.
Proof.
  apply (X5_formatBackupStamp_shape (nowDate (env0 0))).
  unfold dateInRange. cbn. lia.
Defined.

(** ** What [ensureDefaultProject] keeps *)

Lemma archived_renameLegacy d p :
  Project.archived (renameLegacy d p) = Project.archived p.
Proof. unfold renameLegacy. destruct (needsRename d p); reflexivity. Qed.

Lemma archived_initTokens p :
  Project.archived (initTokens p) = Project.archived p.
Proof. unfold initTokens. destruct (lacksTokens p); reflexivity. Qed.

Lemma tokens_initTokens p :
  Project.tokens (initTokens p) = Some (default [] (Project.tokens p)).
Proof.
  unfold initTokens, lacksTokens. destruct p as [i n a c l no [t|]]; reflexivity.
Qed.

Lemma tokens_renameLegacy d p :
  Project.tokens (renameLegacy d p) = Project.tokens p.
Proof. unfold renameLegacy. destruct (needsRename d p); reflexivity. Qed.

(** X6: [ensureDefaultProject] never removes, reorders or re-identifies a
    project and never drops a token: a non-empty collection keeps its
    length, ids, archived flags and token lists (a missing list becomes
    the empty one), an empty collection becomes the default project
    alone; the version, the previous project, the effective-from id and
    the pending wipe are never touched; and when it reports no change the
    peer is exactly as it was. *)
Theorem X6_ensureDefault_preserves env peer d :
  let r := ensureDefaultProject env peer d in
  (snd r = false -> fst r = peer)
  /\ PeerState.version (fst r) = PeerState.version peer
  /\ PeerState.previousProjectId (fst r) = PeerState.previousProjectId peer
  /\ PeerState.effectiveFromMessageId (fst r)
     = PeerState.effectiveFromMessageId peer
  /\ PeerState.pendingWipe (fst r) = PeerState.pendingWipe peer
  /\ (PeerState.projects peer = [] ->
      PeerState.projects (fst r) = [defaultProject env d])
  /\ (PeerState.projects peer <> [] ->
      List.map Project.id (PeerState.projects (fst r))
      = List.map Project.id (PeerState.projects peer)
      /\ List.map Project.archived (PeerState.projects (fst r))
         = List.map Project.archived (PeerState.projects peer)
      /\ List.map Project.tokens (PeerState.projects (fst r))
         = List.map (fun p => Some (default [] (Project.tokens p)))
             (PeerState.projects peer)).
Proof.
  cbv zeta. rewrite ensureDefaultProject_eq. cbn [fst snd].
  split; [apply healed_unchanged|].
  repeat (split; [reflexivity|]).
  cbn [healed PeerState.projects].
  split; [intros ->; reflexivity|].
  intros Hne. destruct (PeerState.projects peer) as [|p ps]; [congruence|].
  split; [apply healedProjects_ids|].
  unfold healedProjects. rewrite !List.map_map.
  split; apply List.map_ext; intros a.
  - rewrite archived_initTokens. apply archived_renameLegacy.
  - rewrite tokens_initTokens, tokens_renameLegacy. reflexivity.
Qed.

Lemma X6_ensureDefault_preserves_witness :
  List.map Project.id
    (PeerState.projects (fst (ensureDefaultProject (env0 0) unsetActivePeer "General")))
  = ["proj-done"; "proj-general"]
  /\ fst (ensureDefaultProject (env0 0) danglingPeer "General") = danglingPeer
  /\ PeerState.projects (fst (ensureDefaultProject (env0 0) emptyPeer "General"))
     = [generalProject].
Proof.
  split; [|split].
  - apply (X6_ensureDefault_preserves (env0 0) unsetActivePeer "General").
    discriminate.
  - apply (X6_ensureDefault_preserves (env0 0) danglingPeer "General").
    reflexivity.
  - apply (X6_ensureDefault_preserves (env0 0) emptyPeer "General").
    reflexivity.
Defined.

Lemma healedActive_idem env env' d peer :
  healedActive env' d (healed env d peer) = healedActive env d peer.
Proof.
  unfold healedActive at 1.
  cbn [healed PeerState.projects PeerState.activeProjectId].
  rewrite healedProjects_idem.
  destruct (healedProjects env d (PeerState.projects peer)) eqn:E;
    [exfalso; exact (healedProjects_nonempty _ _ _ E)|].
  rewrite <- E.
  destruct (Js.truthy (healedActive env d peer)) eqn:Ht; [reflexivity|].
  unfold healedActive in Ht |- *.
  destruct (PeerState.projects peer) as [|q qs] eqn:Eps;
    [discriminate Ht|].
  destruct (Js.truthy (PeerState.activeProjectId peer)) eqn:Ha;
    [congruence|].
  destruct (firstLive _); reflexivity.
Qed.

(** X7: the state that [ensureDefaultProject] leaves is a fixed point:
    for every peer and default name, a second call leaves the peer as the
    first call left it (whatever its [changed] flag says). *)
Theorem X7_ensureDefault_state_idempotent env env' peer d :
  fst (ensureDefaultProject env'
         (fst (ensureDefaultProject env peer d)) d)
  = fst (ensureDefaultProject env peer d).
Proof.
  rewrite !ensureDefaultProject_fst.
  unfold healed at 1. rewrite healedActive_idem.
  cbn [healed PeerState.version PeerState.projectsEnabled
       PeerState.previousProjectId PeerState.effectiveFromMessageId
       PeerState.lastProjectId PeerState.pendingReset PeerState.projects
       PeerState.globalTokens PeerState.pendingWipe default from_option id].
  rewrite healedProjects_idem.
  destruct (healedProjects env d (PeerState.projects peer)) eqn:E;
    [exfalso; exact (healedProjects_nonempty _ _ _ E)|].
  rewrite <- E. reflexivity.
Qed.

Example ensureDefault_state_fixed_despite_flag :
  let once := fst (ensureDefaultProject (env0 0) emptyIdPeer "General") in
  ensureDefaultProject (env0 1) once "General" = (once, true).
Proof. reflexivity. Qed.

(** ** Every handler writes the entry of its own peer only *)

Lemma touched_trans peerKey (a b c : Store) :
  touched peerKey a b -> touched peerKey b c -> touched peerKey a c.
Proof. intros Hab Hbc. induction Hbc; [exact Hab | constructor; assumption]. Qed.

Lemma touched_elsewhere peerKey (disk disk' : Store) :
  touched peerKey disk disk' ->
  forall k, k <> peerKey -> disk' !! k = disk !! k.
Proof.
  induction 1 as [|d peer _ IH]; intros k Hk; [reflexivity|].
  rewrite lookup_insert_ne by congruence. apply IH, Hk.
Qed.

Lemma persistIfChanged_touched (disk : Store) peerKey peer changed :
  touched peerKey disk (persistIfChanged disk peerKey peer changed).
Proof. unfold persistIfChanged. destruct changed; repeat constructor. Qed.

Lemma clearPending_touched (disk : Store) peerKey peer :
  touched peerKey disk (fst (clearPending disk peerKey peer)).
Proof.
  unfold clearPending. destruct (PeerState.pendingWipe peer); repeat constructor.
Qed.

Lemma withPeerState_touched {T} (disk : Store) peerKey
  (fn : PeerState.t -> PeerState.t * T) :
  touched peerKey disk (fst (withPeerState disk peerKey fn)).
Proof.
  unfold withPeerState. destruct (fn _). repeat constructor.
Qed.

Lemma backupAndResetProjectsUx_touched cfg env (disk : Store) peerKey pending m :
  touched peerKey disk
    (fst (backupAndResetProjectsUx cfg env disk peerKey pending m)).
Proof.
  unfold backupAndResetProjectsUx, wipeProjectsUxForPeer.
  destruct (backupCopy env); try destruct (ensureDefaultProject _ _ _);
    repeat constructor.
Qed.

Lemma backupAndWipeOneProject_touched cfg env (disk : Store) peerKey pending
  projectId m :
  touched peerKey disk
    (fst (backupAndWipeOneProject cfg env disk peerKey pending projectId m)).
Proof.
  unfold backupAndWipeOneProject. rewrite ?ensureDefaultProject_eq.
  destruct (backupCopy env); try (repeat constructor; fail);
    (destruct (disk !! peerKey); [|repeat constructor]);
    rewrite ?ensureDefaultProject_eq;
    (destruct (String.eqb _ _); [repeat constructor|]);
    (destruct (List.find _ _); repeat constructor).
Qed.

Lemma cmdWipe_touched cfg env ctx (disk : Store) peerKey parts :
  touched peerKey disk (fst (cmdWipe cfg env ctx disk peerKey parts)).
Proof.
  unfold cmdWipe. cbv zeta.
  set (peer := default wipeFreshPeer (disk !! peerKey)).
  pose proof (clearPending_touched disk peerKey peer) as Hc.
  destruct (String.eqb _ "cancel"); [exact Hc|].
  destruct (String.eqb _ "confirm").
  { destruct (PeerState.pendingWipe peer) as [pending|]; [|constructor].
    destruct (_ >? _); [exact Hc|]. destruct (_ || _); [exact Hc|].
    pose proof (backupAndResetProjectsUx_touched cfg env
                  (fst (clearPending disk peerKey peer)) peerKey pending
                  (messageId ctx)) as Hb.
    destruct (backupAndResetProjectsUx _ _ _ _ _ _) as [d [b|c]];
      exact (touched_trans _ _ _ _ Hc Hb). }
  destruct (_ && _).
  { destruct (PeerState.pendingWipe peer) as [pending|]; [|constructor].
    destruct (_ >? _); [exact Hc|].
    match goal with
    | |- context [if ?b then _ else _] => destruct b
    end; [exact Hc|].
    pose proof (backupAndWipeOneProject_touched cfg env
                  (fst (clearPending disk peerKey peer)) peerKey pending
                  (Js.part parts 4) (messageId ctx)) as Hb.
    destruct (backupAndWipeOneProject _ _ _ _ _ _ _) as [d [? ? ? ?|e]];
      exact (touched_trans _ _ _ _ Hc Hb). }
  repeat constructor.
Qed.

Lemma cmdReset_touched cfg env (disk : Store) peerKey parts :
  touched peerKey disk (fst (cmdReset cfg env disk peerKey parts)).
Proof.
  unfold cmdReset. cbv zeta.
  destruct (negb _); [constructor|].
  destruct (String.eqb _ "remove"); [|constructor].
  destruct (disk !! peerKey) as [peer|]; [|constructor].
  rewrite ensureDefaultProject_eq.
  pose proof (persistIfChanged_touched disk peerKey
                (healed env (defaultProjectName cfg) peer)
                (healChanged (defaultProjectName cfg) peer)) as Hp.
  destruct (negb _); [destruct (List.filter _ _); exact Hp|].
  destruct (String.eqb _ _); [exact Hp|].
  destruct (List.find _ _); [constructor|]; exact Hp.
Qed.

Lemma healing_read_touched cfg env (disk : Store) peerKey :
  touched peerKey disk (fst (cmdStatus cfg env disk peerKey))
  /\ touched peerKey disk (fst (cmdDebug cfg env disk peerKey))
  /\ touched peerKey disk (fst (cmdList cfg env disk peerKey)).
Proof.
  unfold cmdStatus, cmdDebug, cmdList.
  destruct (disk !! peerKey) as [peer|]; [|repeat split; constructor].
  rewrite ensureDefaultProject_eq.
  repeat split; apply persistIfChanged_touched.
Qed.

Lemma withPeerState_commands_touched cfg env ctx (disk : Store) peerKey a :
  touched peerKey disk (fst (cmdOn cfg env ctx disk peerKey))
  /\ touched peerKey disk (fst (cmdOff cfg env ctx disk peerKey))
  /\ touched peerKey disk (fst (cmdNew cfg env ctx disk peerKey a))
  /\ touched peerKey disk (fst (cmdSwitch cfg env ctx disk peerKey a)).
Proof.
  unfold cmdOn, cmdOff, cmdNew, cmdSwitch.
  repeat split;
    try (destruct (negb _); [constructor|]);
    match goal with
    | |- context [withPeerState ?d ?k ?f] =>
        pose proof (withPeerState_touched d k f) as H;
        destruct (withPeerState d k f); exact H
    end.
Qed.

(** X8: the [projects] command writes the entry of the invoking peer
    only: whatever the arguments, the state stored for every other peer
    is as before. *)
Theorem X8_projects_command_frame cfg env ctx (disk : Store) k :
  k <> buildPeerKeyFromCommandCtx ctx ->
  fst (handleProjectsCommand cfg env ctx disk) !! k = disk !! k.
Proof.
  intros Hk. apply (touched_elsewhere (buildPeerKeyFromCommandCtx ctx));
    [|exact Hk].
  unfold handleProjectsCommand. cbv zeta.
  destruct (healing_read_touched cfg env disk (buildPeerKeyFromCommandCtx ctx))
    as [Hs [Hd Hl]].
  destruct (withPeerState_commands_touched cfg env ctx disk
              (buildPeerKeyFromCommandCtx ctx) (ctxArgs ctx))
    as [Hon [Hoff [Hnew Hsw]]].
  repeat match goal with
         | |- context [if ?b then _ else _] => destruct b
         end;
    try assumption; try constructor;
    [apply cmdReset_touched | apply cmdWipe_touched].
Qed.

Lemma X8_projects_command_frame_witness :
  fst (handleProjectsCommand cfg0 (env0 3) (ctx0 "wipe confirm deadbeef" 3)
         (<["telegram:u2" := danglingPeer]> (run [("new p2", 1); ("wipe", 2)] ∅)))
  !! "telegram:u2" = Some danglingPeer.
Proof.
  rewrite (X8_projects_command_frame cfg0 (env0 3)
             (ctx0 "wipe confirm deadbeef" 3)
             (<["telegram:u2" := danglingPeer]>
                (run [("new p2", 1); ("wipe", 2)] ∅)) "telegram:u2");
    [apply lookup_insert_eq | discriminate].
Defined.

(** ** The [memory] command *)

Example memory_scoping_scenario :
  let d1 := run [("new A", 1)] ∅ in
  let d2 := fst (handleMemoryCommand cfg0 (env0 2)
                   (ctx0 "remember SENTINEL_A=neon" 2) d1) in
  let d3 := run [("new B", 3)] d2 in
  snd (handleMemoryCommand cfg0 (env0 4) (ctx0 "list" 4) d2)
  = MemTokens "A" ["SENTINEL_A=neon"]
  /\ snd (handleMemoryCommand cfg0 (env0 4) (ctx0 "list" 4) d3) = MemNoTokens "B"
  /\ snd (handleMemoryCommand cfg0 (env0 5) (ctx0 "remember  two  words " 5) d3)
     = MemSaved "B" "two words"
  /\ snd (handleMemoryCommand cfg0 (env0 5) (ctx0 "list" 5)
            (run [("off", 5)] d3)) = MemProjectsOff.
Proof. cbv zeta. repeat split; vm_compute; reflexivity. Qed.

Lemma findIdx_spec {A} (f : A -> bool) (l : list A) i x :
  findIdx f l = Some (i, x) ->
  l !! i = Some x /\ f x = true
  /\ (forall j y, (j < i)%nat -> l !! j = Some y -> f y = false).
Proof.
  revert i. induction l as [|a l IH]; intros i H; [discriminate|].
  cbn in H. destruct (f a) eqn:Fa.
  - injection H as <- <-. repeat split; [exact Fa|]. intros j y Hj. lia.
  - destruct (findIdx f l) as [[i' x']|] eqn:E; [|discriminate].
    injection H as <- <-. destruct (IH i' eq_refl) as [Hl [Hf Hfirst]].
    repeat split; [exact Hl | exact Hf|].
    intros [|j] y Hj Hy; cbn in Hy; [congruence|].
    apply (Hfirst j y); [lia | exact Hy].
Qed.

Lemma includesToken_In tokens token :
  includesToken tokens token = true <-> In token tokens.
Proof.
  unfold includesToken. rewrite existsb_exists. split.
  - intros [x [Hx E]]. apply String.eqb_eq in E. subst. exact Hx.
  - intros H. exists token. split; [exact H | apply String.eqb_refl].
Qed.

(** [pushToken] keeps the tokens in order, adds the token at the end
    unless it is there, and keeps the list free of duplicates. *)
Lemma pushToken_spec tokens token :
  In token (pushToken tokens token)
  /\ (exists added, pushToken tokens token = (tokens ++ added)%list
                    /\ (added = [] \/ added = [token]))
  /\ (List.NoDup tokens -> List.NoDup (pushToken tokens token)).
Proof.
  unfold pushToken. destruct (includesToken tokens token) eqn:E.
  - apply includesToken_In in E. split; [exact E|]. split; [|auto].
    exists []. rewrite app_nil_r. auto.
  - assert (~ In token tokens) as Hn.
    { intros H. apply includesToken_In in H. congruence. }
    split; [apply in_or_app; right; left; reflexivity|].
    split; [exists [token]; auto|].
    intros Hnd. apply List.NoDup_app; [exact Hnd | repeat constructor; intros [] |].
    intros x Hx [<-|[]]. contradiction.
Qed.

(** What a successful project-scoped [remember] writes. *)
Lemma memSaved_inv cfg env ctx (disk disk' : Store) name token :
  handleMemoryCommand cfg env ctx disk = (disk', MemSaved name token) ->
  exists peer i active,
    disk !! buildPeerKeyFromCommandCtx ctx = Some peer
    /\ let h := healed env (defaultProjectName cfg) peer in
       PeerState.projectsEnabled h = Some true
       /\ findIdx (hasId (PeerState.activeProjectId h)) (PeerState.projects h)
          = Some (i, active)
       /\ name = Project.name active
       /\ Js.truthy token = true
       /\ disk'
          = <[buildPeerKeyFromCommandCtx ctx :=
                PeerState.setProjects
                  (<[i := Project.setTokens
                            (Some (pushToken (default [] (Project.tokens active))
                                     token)) active]>
                     (PeerState.projects h)) h]> disk.
Proof.
  unfold handleMemoryCommand. cbv zeta.
  destruct (_ || _); [discriminate|].
  destruct (disk !! buildPeerKeyFromCommandCtx ctx) as [peer|]; [|discriminate].
  rewrite ensureDefaultProject_eq.
  destruct (String.eqb (ctxSub ctx) "global").
  { split_cases; discriminate. }
  destruct (isTrue _) eqn:Hen; cbn [negb]; [|discriminate].
  destruct (findIdx _ _) as [[i active]|] eqn:Hfind; [|discriminate].
  destruct (String.eqb (ctxSub ctx) "remember").
  2: { split_cases; discriminate. }
  destruct (Js.truthy _) eqn:Ht; cbn [negb]; [|discriminate].
  intros H. injection H as <- <- <-.
  exists peer, i, active. split; [reflexivity|]. cbv zeta.
  split.
  { destruct (PeerState.projectsEnabled _) as [[|]|]; try discriminate Hen.
    reflexivity. }
  split; [exact Hfind|]. split; [reflexivity|]. split; [exact Ht|].
  unfold persistIfChanged. destruct (healChanged _ peer); [|reflexivity].
  apply insert_insert_eq.
Qed.

Lemma setProjects_back v peer :
  PeerState.setProjects (PeerState.projects peer) (PeerState.setProjects v peer)
  = peer.
Proof. destruct peer. reflexivity. Qed.

Lemma setGlobalTokens_back v peer :
  PeerState.setGlobalTokens (PeerState.globalTokens peer)
    (PeerState.setGlobalTokens v peer) = peer.
Proof. destruct peer. reflexivity. Qed.

(** X9: a project-scoped [remember] that succeeds changes one thing in the
    store: the token list of the first project whose id is the active id
    (of the self-healed peer), the project named in the reply.  That list
    keeps its tokens in order and gains the token at the end unless it
    was there, so it stays free of duplicates; every other project, a
    later one with the same id included, and every other field of the
    peer, global tokens included, is as self-healing leaves it, and the
    entries of the other peers are as they were. *)
Theorem X9_memory_remember_scoped cfg env ctx (disk disk' : Store) name token :
  handleMemoryCommand cfg env ctx disk = (disk', MemSaved name token) ->
  exists peer peer' i active tokens',
    disk !! buildPeerKeyFromCommandCtx ctx = Some peer
    /\ disk' = <[buildPeerKeyFromCommandCtx ctx := peer']> disk
    /\ (forall k, k <> buildPeerKeyFromCommandCtx ctx -> disk' !! k = disk !! k)
    /\ let h := fst (ensureDefaultProject env peer (defaultProjectName cfg)) in
       let old := default [] (Project.tokens active) in
       PeerState.projects h !! i = Some active
       /\ Project.id active = PeerState.activeProjectId h
       /\ (forall j q,
              (j < i)%nat -> PeerState.projects h !! j = Some q ->
              Project.id q <> PeerState.activeProjectId h)
       /\ Project.name active = name
       /\ PeerState.setProjects (PeerState.projects h) peer' = h
       /\ length (PeerState.projects peer') = length (PeerState.projects h)
       /\ (forall j, j <> i ->
              PeerState.projects peer' !! j = PeerState.projects h !! j)
       /\ PeerState.projects peer' !! i
          = Some (Project.setTokens (Some tokens') active)
       /\ In token tokens'
       /\ (exists added, tokens' = (old ++ added)%list
                         /\ (added = [] \/ added = [token]))
       /\ (List.NoDup old -> List.NoDup tokens').
Proof.
  intros H. apply memSaved_inv in H
    as [peer [i [active [Hpeer [_ [Hfind [Hname [_ Hd]]]]]]]].
  apply findIdx_spec in Hfind as [Hi [Hid Hfirst]].
  apply String.eqb_eq in Hid.
  destruct (pushToken_spec (default [] (Project.tokens active)) token)
    as [Hin [Hadd Hnd]].
  eexists peer, _, i, active, _. split; [exact Hpeer|]. split; [exact Hd|].
  split; [intros k Hk; rewrite Hd; apply lookup_insert_ne; congruence|].
  cbv zeta. rewrite ensureDefaultProject_fst.
  cbn [PeerState.projects PeerState.setProjects].
  split; [exact Hi|]. split; [exact Hid|]. split.
  { intros j q Hj Hq Heq. specialize (Hfirst j q Hj Hq).
    unfold hasId in Hfirst. rewrite Heq, String.eqb_refl in Hfirst.
    discriminate Hfirst. }
  split; [auto|].
  split; [apply setProjects_back|].
  split; [apply length_insert|].
  split; [intros j Hj; apply list_lookup_insert_ne; congruence|].
  split; [apply list_lookup_insert_eq; eapply lookup_lt_Some; exact Hi|].
  auto.
Qed.

Lemma X9_memory_remember_scoped_witness :
  exists peer',
    fst (handleMemoryCommand cfg0 (env0 3) (ctx0 "remember k=v" 3)
           (run [("new A", 1); ("new B", 2)] ∅)) !! "telegram:u1" = Some peer'
    /\ List.map Project.tokens (PeerState.projects peer')
       = [Some []; Some []; Some ["k=v"]].
Proof.
  destruct (X9_memory_remember_scoped cfg0 (env0 3) (ctx0 "remember k=v" 3)
              (run [("new A", 1); ("new B", 2)] ∅)
              (fst (handleMemoryCommand cfg0 (env0 3) (ctx0 "remember k=v" 3)
                      (run [("new A", 1); ("new B", 2)] ∅)))
              "B" "k=v")
    as [peer [peer' [i [active [tokens' [_ [Hd _]]]]]]].
  - vm_compute. reflexivity.
  - apply (f_equal (fun store : Store => store !! "telegram:u1")) in Hd.
    rewrite lookup_insert_eq in Hd.
    exists peer'. split; [exact Hd|].
    vm_compute in Hd. injection Hd as <-. reflexivity.
Defined.

(** X10: a [global remember] that succeeds changes only the global token
    list of the (self-healed) peer, in the same way: tokens kept in
    order, the new one at the end unless present, no duplicates added;
    the projects and their token lists are untouched.  It does not
    require projects to be enabled. *)
Theorem X10_memory_global_remember cfg env ctx (disk disk' : Store) token :
  handleMemoryCommand cfg env ctx disk = (disk', MemSavedGlobally token) ->
  exists peer peer' tokens',
    disk !! buildPeerKeyFromCommandCtx ctx = Some peer
    /\ disk' !! buildPeerKeyFromCommandCtx ctx = Some peer'
    /\ let h := fst (ensureDefaultProject env peer (defaultProjectName cfg)) in
       let old := default [] (PeerState.globalTokens h) in
       PeerState.setGlobalTokens (PeerState.globalTokens h) peer' = h
       /\ PeerState.projects peer' = PeerState.projects h
       /\ PeerState.globalTokens peer' = Some tokens'
       /\ In token tokens'
       /\ (exists added, tokens' = (old ++ added)%list
                         /\ (added = [] \/ added = [token]))
       /\ (List.NoDup old -> List.NoDup tokens').
Proof.
  unfold handleMemoryCommand. cbv zeta.
  destruct (_ || _); [discriminate|].
  destruct (disk !! buildPeerKeyFromCommandCtx ctx) as [peer|]; [|discriminate].
  rewrite ensureDefaultProject_eq.
  destruct (String.eqb (ctxSub ctx) "global").
  2: { split_cases; discriminate. }
  destruct (negb _); [discriminate|].
  destruct (String.eqb _ "remember").
  2: { split_cases; discriminate. }
  destruct (negb _); [discriminate|].
  intros H. injection H as <- <-.
  set (h := healed env (defaultProjectName cfg) peer).
  destruct (pushToken_spec (default [] (PeerState.globalTokens h))
              (Js.trim (Js.trim (String.concat " " (skipn 2 (ctxParts ctx))))))
    as [Hin [Hadd Hnd]].
  eexists peer, _, _. split; [reflexivity|].
  split; [apply lookup_insert_eq|]. cbv zeta.
  rewrite ensureDefaultProject_fst. fold h.
  split; [apply setGlobalTokens_back|].
  split; [reflexivity|]. split; [reflexivity|]. auto.
Qed.

Lemma X10_memory_global_remember_witness :
  exists peer',
    fst (handleMemoryCommand cfg0 (env0 3) (ctx0 "global remember tz=UTC" 3)
           (run [("off", 1)] ∅)) !! "telegram:u1" = Some peer'
    /\ PeerState.globalTokens peer' = Some ["tz=UTC"].
Proof.
  destruct (X10_memory_global_remember cfg0 (env0 3)
              (ctx0 "global remember tz=UTC" 3) (run [("off", 1)] ∅)
              (fst (handleMemoryCommand cfg0 (env0 3)
                      (ctx0 "global remember tz=UTC" 3) (run [("off", 1)] ∅)))
              "tz=UTC")
    as [peer [peer' [tokens' [_ [Hd _]]]]].
  - vm_compute. reflexivity.
  - exists peer'. split; [exact Hd|].
    vm_compute in Hd. injection Hd as <-. reflexivity.
Defined.

Lemma persistIfChanged_lookup (disk : Store) peerKey peer changed k :
  persistIfChanged disk peerKey peer changed !! k = disk !! k
  \/ (k = peerKey
      /\ persistIfChanged disk peerKey peer changed !! peerKey = Some peer).
Proof.
  unfold persistIfChanged. destruct changed; [|left; reflexivity].
  destruct (String.eqb_spec k peerKey) as [->|Hne].
  - right. split; [reflexivity | apply lookup_insert_eq].
  - left. apply lookup_insert_ne. congruence.
Qed.

(** X11: every [memory] invocation that does not reply that a token was
    saved is a read: it writes nothing, or only the self-healed state of
    the invoking peer.  A listing shows the token list of the first
    project whose id is the active id, and is given only while projects
    are enabled. *)
Theorem X11_memory_reads cfg env ctx (disk disk' : Store) reply :
  handleMemoryCommand cfg env ctx disk = (disk', reply) ->
  (forall name token, reply <> MemSaved name token) ->
  (forall token, reply <> MemSavedGlobally token) ->
  (forall k,
      disk' !! k = disk !! k
      \/ (k = buildPeerKeyFromCommandCtx ctx
          /\ exists peer,
               disk !! k = Some peer
               /\ disk' !! k
                  = Some (fst (ensureDefaultProject env peer
                                 (defaultProjectName cfg)))))
  /\ (forall name tokens,
         reply = MemTokens name tokens ->
         exists peer i active,
           disk !! buildPeerKeyFromCommandCtx ctx = Some peer
           /\ let h := fst (ensureDefaultProject env peer (defaultProjectName cfg)) in
              PeerState.projectsEnabled h = Some true
              /\ PeerState.projects h !! i = Some active
              /\ Project.id active = PeerState.activeProjectId h
              /\ (forall j p, (j < i)%nat -> PeerState.projects h !! j = Some p ->
                              Project.id p <> PeerState.activeProjectId h)
              /\ Project.name active = name
              /\ Project.tokens active = Some tokens).
Proof.
  unfold handleMemoryCommand. cbv zeta. intros H Hns Hng.
  destruct (_ || _).
  { injection H as <- <-. split; [left; reflexivity | discriminate]. }
  destruct (disk !! buildPeerKeyFromCommandCtx ctx) as [peer|] eqn:Hpeer.
  2: { injection H as <- <-. split; [left; reflexivity | discriminate]. }
  rewrite ensureDefaultProject_eq in H.
  assert (forall k,
             persistIfChanged disk (buildPeerKeyFromCommandCtx ctx)
               (healed env (defaultProjectName cfg) peer)
               (healChanged (defaultProjectName cfg) peer) !! k = disk !! k
             \/ (k = buildPeerKeyFromCommandCtx ctx
                 /\ exists peer0,
                      disk !! k = Some peer0
                      /\ persistIfChanged disk (buildPeerKeyFromCommandCtx ctx)
                           (healed env (defaultProjectName cfg) peer)
                           (healChanged (defaultProjectName cfg) peer) !! k
                         = Some (fst (ensureDefaultProject env peer0
                                        (defaultProjectName cfg))))) as Hread.
  { intros k. destruct (persistIfChanged_lookup disk
                          (buildPeerKeyFromCommandCtx ctx)
                          (healed env (defaultProjectName cfg) peer)
                          (healChanged (defaultProjectName cfg) peer) k)
      as [E|[-> E]]; [left; exact E|].
    right. split; [reflexivity|]. exists peer.
    rewrite ensureDefaultProject_fst. auto. }
  destruct (String.eqb (ctxSub ctx) "global").
  { revert H. split_cases; intros H; injection H as <- <-;
      try (exfalso; eapply Hng; reflexivity);
      (split; [exact Hread | discriminate]). }
  destruct (isTrue _) eqn:Hen; cbn [negb] in H.
  2: { injection H as <- <-. split; [exact Hread | discriminate]. }
  destruct (findIdx _ _) as [[i active]|] eqn:Hfind.
  2: { injection H as <- <-. split; [exact Hread | discriminate]. }
  assert (exists tokens0, Project.tokens active = Some tokens0) as [tokens0 Htok].
  { apply findIdx_spec in Hfind as [Hi _].
    apply list_elem_of_lookup_2, list_elem_of_In in Hi.
    pose proof (existsb_false_In _ _ _
                  (healedProjects_hasTokens env (defaultProjectName cfg)
                     (PeerState.projects peer)) Hi) as Hl.
    unfold lacksTokens in Hl. destruct (Project.tokens active); [eauto|].
    discriminate Hl. }
  revert H. rewrite Htok. cbn [default from_option id].
  split_cases; intros H; injection H as <- <-;
    try (exfalso; eapply Hns; reflexivity);
    (split; [exact Hread|]); try discriminate.
  intros name tokens E. injection E as <- <-.
  exists peer, i, active. split; [reflexivity|]. cbv zeta.
  rewrite ensureDefaultProject_fst.
  apply findIdx_spec in Hfind as [Hi [Hid Hfirst]].
  apply String.eqb_eq in Hid.
  split.
  { destruct (PeerState.projectsEnabled _) as [[|]|]; try discriminate Hen.
    reflexivity. }
  split; [exact Hi|]. split; [exact Hid|]. split; [|auto].
  intros j p Hj Hp E. specialize (Hfirst j p Hj Hp).
  unfold hasId in Hfirst. rewrite E, String.eqb_refl in Hfirst.
  discriminate Hfirst.
Qed.

Lemma X11_memory_reads_witness :
  let disk :=
    fst (handleMemoryCommand cfg0 (env0 2) (ctx0 "remember k=v" 2)
           (run [("new A", 1)] ∅)) in
  let r := handleMemoryCommand cfg0 (env0 3) (ctx0 "list" 3) disk in
  snd r = MemTokens "A" ["k=v"]
  /\ forall k,
       fst r !! k = disk !! k
       \/ (k = "telegram:u1"
           /\ exists peer,
                disk !! k = Some peer
                /\ fst r !! k
                   = Some (fst (ensureDefaultProject (env0 3) peer "General"))).
Proof.
  intros disk r. split; [vm_compute; reflexivity|].
  apply (X11_memory_reads cfg0 (env0 3) (ctx0 "list" 3) disk (fst r) (snd r)).
  - apply surjective_pairing.
  - intros name token. vm_compute. discriminate.
  - intros token. vm_compute. discriminate.
Defined.

(** ** Prompt framing *)

Example framing_scenario :
  let store := run [("new p2", 1)] ∅ in
  let r1 := beforeAgentStart cfg0 (env0 2) hookCtx0 store in
  let r2 := beforeAgentStart cfg0 (env0 3) hookCtx0 (fst r1) in
  snd r1
  = Some ("Active project: p2 (proj-p2)." ++ newline ++ guardrailLine)
  /\ snd r2 = Some "Active project: p2 (proj-p2)."
  /\ fst r2 = fst r1
  /\ snd (beforeAgentStart cfg0 (env0 4) hookCtx0 (run [("off", 3)] (fst r1)))
     = None.
Proof. cbv zeta. split; [|split; [|split]]; vm_compute; reflexivity. Qed.

Lemma healed_idem env env' d peer :
  healed env' d (healed env d peer) = healed env d peer.
Proof.
  unfold healed at 1. rewrite healedActive_idem.
  cbn [healed PeerState.version PeerState.projectsEnabled
       PeerState.previousProjectId PeerState.effectiveFromMessageId
       PeerState.lastProjectId PeerState.pendingReset PeerState.projects
       PeerState.globalTokens PeerState.pendingWipe default from_option id].
  rewrite healedProjects_idem.
  destruct (healedProjects env d (PeerState.projects peer)) eqn:E;
    [exfalso; exact (healedProjects_nonempty _ _ _ E)|].
  rewrite <- E. reflexivity.
Qed.

Lemma healed_setPendingReset env d v peer :
  PeerState.projects peer <> [] ->
  healed env d (PeerState.setPendingReset v peer)
  = PeerState.setPendingReset v (healed env d peer).
Proof.
  intros Hne. destruct peer as [ve en act prev eff last reset ps gt pw].
  cbn in Hne. destruct ps as [|p ps]; [congruence|]. reflexivity.
Qed.

Lemma persistIfChanged_same (disk : Store) peerKey peer changed :
  disk !! peerKey = Some peer ->
  persistIfChanged disk peerKey peer changed = disk.
Proof.
  intros H. unfold persistIfChanged. destruct changed; [|reflexivity].
  apply insert_id. exact H.
Qed.

(** What the hook does when it returns a preface. *)
Lemma beforeAgentStart_inv cfg env ctx (store store' : Store) text :
  beforeAgentStart cfg env ctx store = (store', Some text) ->
  exists peer active,
    store !! buildPeerKeyFromBeforeAgentStart ctx = Some peer
    /\ let h := healed env (defaultProjectName cfg) peer in
       isTrue (PeerState.projectsEnabled h) = true
       /\ List.find (hasId (PeerState.activeProjectId h)) (PeerState.projects h)
          = Some active
       /\ text = clampText (String.concat newline (prefixLinesOf cfg h active))
                   (maxPrefixChars cfg)
       /\ store' !! buildPeerKeyFromBeforeAgentStart ctx
          = Some (if isTrue (PeerState.pendingReset h)
                  then PeerState.setPendingReset (Some false) h else h).
Proof.
  unfold beforeAgentStart. cbv zeta.
  destruct (store !! buildPeerKeyFromBeforeAgentStart ctx) as [peer|] eqn:Hpeer;
    [|discriminate].
  rewrite ensureDefaultProject_eq.
  destruct (isTrue (PeerState.projectsEnabled _)) eqn:Hen; cbn [negb];
    [|discriminate].
  destruct (List.find _ _) as [active|] eqn:Hfind; [|discriminate].
  intros H. injection H as <- <-.
  exists peer, active. split; [reflexivity|]. cbv zeta.
  split; [exact Hen|]. split; [exact Hfind|]. split; [reflexivity|].
  cbn [healed PeerState.pendingReset].
  match goal with
  | |- context [if ?b then _ else _] => destruct b
  end; [apply lookup_insert_eq|].
  unfold persistIfChanged. destruct (healChanged _ peer) eqn:Hc;
    [apply lookup_insert_eq|].
  rewrite Hpeer, (healed_unchanged _ _ _ Hc). reflexivity.
Qed.

(** X12: when the hook returns a preface, the preface is within the
    configured budget, it is built from the active project of the
    self-healed peer, and the anti-bleed instruction is one-shot: if the
    pending-reset flag was set the instruction is the second line and the
    flag is stored as cleared; the very next call returns the same lines
    without the instruction and leaves the store as it is. *)
Theorem X12_framing_one_shot cfg env ctx (store store' : Store) text :
  beforeAgentStart cfg env ctx store = (store', Some text) ->
  Z.of_nat (String.length text) <= Z.max 0 (maxPrefixChars cfg)
  /\ exists peer peer' active,
       store !! buildPeerKeyFromBeforeAgentStart ctx = Some peer
       /\ store' !! buildPeerKeyFromBeforeAgentStart ctx = Some peer'
       /\ let h := fst (ensureDefaultProject env peer (defaultProjectName cfg)) in
          PeerState.projectsEnabled h = Some true
          /\ In active (PeerState.projects h)
          /\ Project.id active = PeerState.activeProjectId h
          /\ text = clampText (String.concat newline (prefixLinesOf cfg h active))
                      (maxPrefixChars cfg)
          /\ isTrue (PeerState.pendingReset peer') = false
          /\ PeerState.setPendingReset (PeerState.pendingReset h) peer' = h
          /\ (isTrue (PeerState.pendingReset h) = true ->
              exists base rest,
                prefixLinesOf cfg h active = base :: guardrailLine :: rest
                /\ prefixLinesOf cfg peer' active = base :: rest)
          /\ (forall env',
                 beforeAgentStart cfg env' ctx store'
                 = (store',
                    Some (clampText
                            (String.concat newline (prefixLinesOf cfg peer' active))
                            (maxPrefixChars cfg)))).
Proof.
  intros H. apply beforeAgentStart_inv in H
    as [peer [active [Hpeer [Hen [Hfind [-> Hd]]]]]].
  split; [apply clampText_length|].
  set (h := healed env (defaultProjectName cfg) peer) in *.
  assert (PeerState.projects h <> []) as Hne
    by apply healedProjects_nonempty.
  eexists peer, _, active. split; [exact Hpeer|]. split; [exact Hd|].
  cbv zeta. rewrite ensureDefaultProject_fst. fold h.
  pose proof (find_some _ _ Hfind) as [Hin Hid]. apply String.eqb_eq in Hid.
  split.
  { destruct (PeerState.projectsEnabled h) as [[|]|]; try discriminate Hen.
    reflexivity. }
  split; [exact Hin|]. split; [exact Hid|]. split; [reflexivity|].
  set (peer' := if isTrue (PeerState.pendingReset h)
                then PeerState.setPendingReset (Some false) h else h) in *.
  assert (isTrue (PeerState.pendingReset peer') = false) as Hoff.
  { subst peer'. destruct (isTrue (PeerState.pendingReset h)) eqn:E;
      [reflexivity | exact E]. }
  assert (healed env (defaultProjectName cfg) peer' = peer'
          /\ PeerState.projectsEnabled peer' = PeerState.projectsEnabled h
          /\ PeerState.activeProjectId peer' = PeerState.activeProjectId h
          /\ PeerState.projects peer' = PeerState.projects h) as Hsame.
  { subst peer'. destruct (isTrue (PeerState.pendingReset h)).
    - rewrite (healed_setPendingReset _ _ _ _ Hne). unfold h.
      rewrite healed_idem. repeat split.
    - unfold h. rewrite healed_idem. repeat split. }
  destruct Hsame as [Hheal [Hen' [Hact' Hps']]].
  split; [exact Hoff|].
  split.
  { subst peer'. destruct (isTrue (PeerState.pendingReset h));
      destruct h; reflexivity. }
  split.
  { intros Hset. unfold prefixLinesOf. rewrite Hset, Hoff.
    eexists _, _. split; reflexivity. }
  intros env'. unfold beforeAgentStart. cbv zeta. rewrite Hd.
  rewrite ensureDefaultProject_eq.
  assert (healed env' (defaultProjectName cfg) peer' = peer') as Hheal'.
  { rewrite <- Hheal. apply healed_idem. }
  rewrite Hheal', (persistIfChanged_same _ _ _ _ Hd).
  rewrite Hen', Hen, Hact', Hps', Hfind, Hoff. reflexivity.
Qed.

Lemma X12_framing_one_shot_witness :
  let store := run [("new p2", 1)] ∅ in
  let r := beforeAgentStart cfg0 (env0 2) hookCtx0 store in
  Z.of_nat (String.length (default "" (snd r))) <= 240.
Proof.
  intros store r.
  apply (X12_framing_one_shot cfg0 (env0 2) hookCtx0 store (fst r)
           (default "" (snd r))).
  vm_compute. reflexivity.
Defined.

Lemma beforeAgentStart_touched cfg env ctx (store : Store) :
  touched (buildPeerKeyFromBeforeAgentStart ctx) store
    (fst (beforeAgentStart cfg env ctx store)).
Proof.
  unfold beforeAgentStart. cbv zeta.
  destruct (store !! _) as [peer|]; [|constructor].
  rewrite ensureDefaultProject_eq.
  pose proof (persistIfChanged_touched store
                (buildPeerKeyFromBeforeAgentStart ctx)
                (healed env (defaultProjectName cfg) peer)
                (healChanged (defaultProjectName cfg) peer)) as Hp.
  destruct (negb _); [exact Hp|].
  destruct (List.find _ _); [|exact Hp].
  cbn [fst]. destruct (isTrue _); [constructor|]; exact Hp.
Qed.

Lemma resolveRoomKey_store cfg env event (store : Store) :
  let peerKey := "telegram:" ++ Js.trim (default "" (evPeerId event)) in
  fst (resolveRoomKey cfg env event store) = store
  \/ exists peer,
       store !! peerKey = Some peer
       /\ fst (resolveRoomKey cfg env event store)
          = persistIfChanged store peerKey
              (healed env (defaultProjectName cfg) peer)
              (healChanged (defaultProjectName cfg) peer).
Proof.
  unfold resolveRoomKey. cbv zeta.
  destruct (negb (hardIsolationEnabled cfg)); [left; reflexivity|].
  destruct (negb (isSomeStr _ _)); [left; reflexivity|].
  destruct (negb match evPeerKind event with Some Dm => true | _ => false end);
    [left; reflexivity|].
  destruct (negb (Js.truthy _)); [left; reflexivity|].
  destruct (store !! _) as [peer|] eqn:Hpeer; [|left; reflexivity].
  rewrite ensureDefaultProject_eq. right. exists peer. split; [reflexivity|].
  split_cases; reflexivity.
Qed.

(** On the store that [loadStoreCached] returned, the two hooks create no
    entry for a peer that has none (they then return nothing and leave
    that store as it is) and change no entry of another peer; the routing
    hook stores nothing but the self-healed state of its peer, and only
    when [ensureDefaultProject] reports a change. *)
Lemma hooks_frame_on_store cfg env ctx event (store : Store) :
  let hookKey := buildPeerKeyFromBeforeAgentStart ctx in
  let roomKey := "telegram:" ++ Js.trim (default "" (evPeerId event)) in
  (store !! hookKey = None -> beforeAgentStart cfg env ctx store = (store, None))
  /\ (forall k, k <> hookKey ->
         fst (beforeAgentStart cfg env ctx store) !! k = store !! k)
  /\ (store !! roomKey = None -> resolveRoomKey cfg env event store = (store, None))
  /\ (forall k, k <> roomKey ->
         fst (resolveRoomKey cfg env event store) !! k = store !! k)
  /\ (forall peer,
         store !! roomKey = Some peer ->
         fst (resolveRoomKey cfg env event store) !! roomKey = Some peer
         \/ (snd (ensureDefaultProject env peer (defaultProjectName cfg)) = true
             /\ fst (resolveRoomKey cfg env event store) !! roomKey
                = Some (fst (ensureDefaultProject env peer
                               (defaultProjectName cfg))))).
Proof.
  cbv zeta. split; [|split; [|split; [|split]]].
  - intros H. unfold beforeAgentStart. rewrite H. reflexivity.
  - intros k Hk. exact (touched_elsewhere _ _ _
                          (beforeAgentStart_touched cfg env ctx store) k Hk).
  - intros H. unfold resolveRoomKey. cbv zeta. rewrite H.
    split_cases; reflexivity.
  - intros k Hk. destruct (resolveRoomKey_store cfg env event store)
      as [->|[peer [_ ->]]]; [reflexivity|].
    apply touched_elsewhere with (peerKey :=
      "telegram:" ++ Js.trim (default "" (evPeerId event)));
      [apply persistIfChanged_touched | exact Hk].
  - intros peer Hpeer. destruct (resolveRoomKey_store cfg env event store)
      as [->|[peer' [Hp' ->]]]; [left; exact Hpeer|].
    cbv zeta in Hp'. rewrite Hpeer in Hp'. injection Hp' as <-.
    rewrite ensureDefaultProject_eq. cbn [fst snd].
    unfold persistIfChanged. destruct (healChanged _ peer);
      [right; split; [reflexivity | apply lookup_insert_eq] | left; exact Hpeer].
Qed.

(** ** The store cache *)

(** A cache that holds what the file holds returns it and keeps it. *)
Lemma loadStoreCached_coherent now file cache :
  cachedStore cache = Some (fileStore file) ->
  fst (loadStoreCached now file cache) = fileStore file
  /\ cachedStore (snd (loadStoreCached now file cache)) = Some (fileStore file).
Proof.
  intros H. unfold loadStoreCached. rewrite H.
  destruct (_ <? _); [split; [reflexivity | exact H]|].
  destruct (fileMtimeMs file); [destruct (_ =? _)|]; split; reflexivity.
Qed.

Lemma loadsAt_coherent times file cache :
  cachedStore cache = Some (fileStore file) ->
  Forall (fun s => s = fileStore file) (loadsAt times file cache).
Proof.
  revert cache. induction times as [|t times IH]; intros cache Hc;
    [constructor|].
  cbn [loadsAt].
  destruct (loadStoreCached_coherent t file cache Hc) as [Hs Hc'].
  destruct (loadStoreCached t file cache) as [s c]. cbn [fst snd] in *.
  constructor; [exact Hs | apply IH; exact Hc'].
Qed.

(** X14: read-your-writes.  After [writeStoreAndRefreshCache] every
    [loadStoreCached], at whatever clock readings and however many times,
    returns the store just written, as long as the file is not written by
    someone else. *)
Theorem X14_cache_read_your_writes store now mtime times :
  Forall (fun s => s = store)
    (loadsAt times (fst (writeStoreAndRefreshCache store now mtime))
       (snd (writeStoreAndRefreshCache store now mtime))).
Proof.
  apply (loadsAt_coherent times
           (fst (writeStoreAndRefreshCache store now mtime))).
  reflexivity.
Qed.

Example cache_scenario :
  let written := run [("on", 1)] ∅ in
  let wc := writeStoreAndRefreshCache written 5000 (Some 777) in
  let other := {| fileStore := run [("on", 1); ("off", 2)] ∅;
                  fileMtimeMs := Some 778 |} in
  fst (loadStoreCached 5999 other (snd wc)) = written
  /\ fst (loadStoreCached 6000 other (snd wc)) = fileStore other
  /\ fst (loadStoreCached 6000
            {| fileStore := fileStore other; fileMtimeMs := Some 777 |} (snd wc))
     = written.
Proof. cbv zeta. split; [|split]; vm_compute; reflexivity. Qed.

(** X15: staleness is bounded by the time-to-live and the modification
    time.  With a filled cache, a load less than 1000 ms after the last
    refresh returns the cached store and leaves the cache as it is,
    whatever the file holds; a load 1000 ms or more after it returns the
    cached store if the file's modification time is the recorded one, and
    otherwise what the file holds, which is then cached; an empty cache
    always loads the file.  In every case the store returned is the one
    cached afterwards. *)
Theorem X15_cache_staleness now file cache :
  let r := loadStoreCached now file cache in
  cachedStore (snd r) = Some (fst r)
  /\ (cachedStore cache = None -> fst r = fileStore file)
  /\ (forall old,
         cachedStore cache = Some old ->
         (now - cachedStoreLoadedAtMs cache < cacheTtlMs ->
          r = (old, cache))
         /\ (cacheTtlMs <= now - cachedStoreLoadedAtMs cache ->
             (fileMtimeMs file = Some (cachedStoreMtimeMs cache) ->
              fst r = old /\ cachedStoreLoadedAtMs (snd r) = now)
             /\ (fileMtimeMs file <> Some (cachedStoreMtimeMs cache) ->
                 fst r = fileStore file
                 /\ cachedStoreLoadedAtMs (snd r) = now
                 /\ cachedStoreMtimeMs (snd r) = default 0 (fileMtimeMs file)))).
Proof.
  cbv zeta. unfold loadStoreCached.
  destruct (cachedStore cache) as [old|] eqn:Hc.
  - destruct (Z.ltb_spec (now - cachedStoreLoadedAtMs cache) cacheTtlMs)
      as [Hlt|Hge].
    + cbn [fst snd]. split; [exact Hc|]. split; [discriminate|].
      intros old' E. injection E as <-. split; [reflexivity | lia].
    + destruct (fileMtimeMs file) as [m|];
        [destruct (Z.eqb_spec m (cachedStoreMtimeMs cache)) as [->|Hne]|];
        cbn [fst snd]; (split; [reflexivity|]); (split; [discriminate|]);
        intros old' E; injection E as <-; (split; [lia|]); intros _;
        (split; [intros Hm | intros Hm]);
        try (repeat split; reflexivity); try congruence.
  - destruct (fileMtimeMs file); cbn [fst snd];
      (split; [reflexivity|]); (split; [reflexivity|]); discriminate.
Qed.

Lemma X15_cache_staleness_witness :
  let cache := snd (writeStoreAndRefreshCache (run [("on", 1)] ∅) 5000 (Some 777)) in
  let other := {| fileStore := run [("on", 1); ("off", 2)] ∅;
                  fileMtimeMs := Some 778 |} in
  fst (loadStoreCached 5999 other cache) = run [("on", 1)] ∅
  /\ fst (loadStoreCached 6000 other cache) = fileStore other.
Proof.
  intros cache other. split.
  - destruct (X15_cache_staleness 5999 other cache) as [_ [_ H]].
    destruct (H (run [("on", 1)] ∅) eq_refl) as [Hin _].
    rewrite Hin; [reflexivity | vm_compute; reflexivity].
  - destruct (X15_cache_staleness 6000 other cache) as [_ [_ H]].
    destruct (H (run [("on", 1)] ∅) eq_refl) as [_ Hout].
    apply Hout; [vm_compute; discriminate | discriminate].
Defined.

(** ** Cancel *)

(** X16: [wipe cancel] always succeeds: it replies that nothing was
    deleted, leaves no wipe pending for the peer and changes nothing else
    in the peer's state; when nothing was pending the store is not
    written at all. *)
Theorem X16_cancel_clears cfg env ctx (disk : Store) :
  ctxSub ctx = "wipe" ->
  Js.toLowerCase (Js.part (ctxParts ctx) 1) = "cancel" ->
  let peerKey := buildPeerKeyFromCommandCtx ctx in
  let r := handleProjectsCommand cfg env ctx disk in
  snd r = Returned Cancelled
  /\ pendingOf (fst r) peerKey = None
  /\ fst r !! peerKey = PeerState.setPendingWipe None <$> disk !! peerKey
  /\ (pendingOf disk peerKey = None -> fst r = disk).
Proof.
  intros Hsub Hact peerKey r. subst r peerKey.
  rewrite (handle_wipe _ _ _ _ Hsub). unfold cmdWipe, clearPending. cbv zeta.
  rewrite Hact. cbn [String.eqb Ascii.eqb Bool.eqb fst snd].
  unfold pendingOf.
  destruct (disk !! buildPeerKeyFromCommandCtx ctx) as [peer|] eqn:Hpeer;
    cbn [default from_option id fmap option_fmap option_map].
  - destruct (PeerState.pendingWipe peer) as [pending|] eqn:Hp; cbn [fst].
    + rewrite lookup_insert_eq. repeat split; discriminate.
    + rewrite ?Hpeer, (setPendingWipe_None_id _ Hp). repeat split. exact Hp.
  - unfold wipeFreshPeer. cbn [PeerState.pendingWipe fst]. rewrite Hpeer.
    repeat split.
Qed.

Lemma X16_cancel_clears_witness :
  let disk := run [("new p2", 1); ("reset remove proj-p2", 2)] ∅ in
  pendingOf disk "telegram:u1" <> None
  /\ pendingOf (fst (handleProjectsCommand cfg0 (env0 3) (ctx0 "wipe Cancel" 3) disk))
       "telegram:u1" = None.
Proof.
  intros disk. split; [vm_compute; discriminate|].
  apply (X16_cancel_clears cfg0 (env0 3) (ctx0 "wipe Cancel" 3) disk);
    reflexivity.
Defined.

(** ** Turning projects on *)

Lemma handle_on cfg env ctx disk :
  ctxSub ctx = "on" ->
  handleProjectsCommand cfg env ctx disk
  = cmdOn cfg env ctx disk (buildPeerKeyFromCommandCtx ctx).
Proof.
  intros H. unfold handleProjectsCommand.
  destruct (String.eqb_spec (ctxArgs ctx) "new") as [E|_].
  - apply ctxSub_of_new in E. rewrite E in H. discriminate H.
  - cbv zeta. rewrite H. reflexivity.
Qed.

Lemma handle_off cfg env ctx disk :
  ctxSub ctx = "off" ->
  handleProjectsCommand cfg env ctx disk
  = cmdOff cfg env ctx disk (buildPeerKeyFromCommandCtx ctx).
Proof.
  intros H. unfold handleProjectsCommand.
  destruct (String.eqb_spec (ctxArgs ctx) "new") as [E|_].
  - apply ctxSub_of_new in E. rewrite E in H. discriminate H.
  - cbv zeta. rewrite H. reflexivity.
Qed.

Lemma findIdx_none {A} (f : A -> bool) l :
  findIdx f l = None -> existsb f l = false.
Proof.
  induction l as [|a l IH]; [reflexivity|]. cbn.
  destruct (f a); [discriminate|].
  destruct (findIdx f l) as [[i x]|]; [discriminate|]. intros _. apply IH.
  reflexivity.
Qed.

(** The fields that [stampMessageId] and [activate] set. *)
Lemma stampMessageId_fields ctx peer :
  PeerState.projectsEnabled (stampMessageId ctx peer)
  = PeerState.projectsEnabled peer
  /\ PeerState.activeProjectId (stampMessageId ctx peer)
     = PeerState.activeProjectId peer
  /\ PeerState.previousProjectId (stampMessageId ctx peer)
     = PeerState.previousProjectId peer
  /\ PeerState.lastProjectId (stampMessageId ctx peer)
     = PeerState.lastProjectId peer
  /\ PeerState.pendingReset (stampMessageId ctx peer)
     = PeerState.pendingReset peer
  /\ PeerState.projects (stampMessageId ctx peer) = PeerState.projects peer
  /\ PeerState.globalTokens (stampMessageId ctx peer)
     = PeerState.globalTokens peer
  /\ PeerState.pendingWipe (stampMessageId ctx peer)
     = PeerState.pendingWipe peer.
Proof.
  unfold stampMessageId.
  destruct (channel ctx) as [c|], (messageId ctx) as [m|];
    try destruct (String.eqb c "telegram"); repeat split.
Qed.

Lemma alter_ids (f : Project.t -> Project.t) i (ps : list Project.t) :
  (forall p, Project.id (f p) = Project.id p) ->
  List.map Project.id (alter f i ps) = List.map Project.id ps.
Proof.
  intros Hf. revert i. induction ps as [|p ps IH]; intros i; [reflexivity|].
  destruct i as [|i]; cbn; [rewrite Hf; reflexivity|].
  f_equal. apply IH.
Qed.

Lemma alter_lookup (f : Project.t -> Project.t) i (ps : list Project.t) p :
  ps !! i = Some p -> alter f i ps !! i = Some (f p).
Proof.
  intros H. rewrite list_lookup_alter_eq, H. reflexivity.
Qed.

Lemma alter_existsb (f : Project.t -> Project.t) (g : Project.t -> bool) i
  (ps : list Project.t) :
  (forall p, g (f p) = g p) ->
  existsb g (alter f i ps) = existsb g ps.
Proof.
  intros Hf. revert i. induction ps as [|p ps IH]; intros i; [reflexivity|].
  destruct i as [|i]; cbn; [rewrite Hf; reflexivity|].
  f_equal. apply IH.
Qed.

Lemma activate_fields env peer i c :
  let peer' := activate env peer (Some i) c in
  PeerState.projectsEnabled peer' = PeerState.projectsEnabled peer
  /\ PeerState.activeProjectId peer' = Project.id c
  /\ PeerState.lastProjectId peer' = Some (Project.id c)
  /\ PeerState.pendingReset peer' = Some true
  /\ PeerState.previousProjectId peer'
     = (if Js.truthy (PeerState.activeProjectId peer)
        then Some (PeerState.activeProjectId peer)
        else PeerState.previousProjectId peer)
  /\ PeerState.projects peer'
     = alter (Project.setLastUsedAt (Some (nowIso env))) i
         (PeerState.projects peer)
  /\ PeerState.globalTokens peer' = PeerState.globalTokens peer
  /\ PeerState.pendingWipe peer' = PeerState.pendingWipe peer.
Proof. destruct peer. repeat split. Qed.

(** The project [/projects on] settles on: the one last used, else the
    active one, else the first live one, else the first one. *)
Lemma on_choice (ps : list Project.t) (last active : option (nat * Project.t)) :
  ps <> [] ->
  (forall i c, last = Some (i, c) -> ps !! i = Some c /\ Project.live c = true) ->
  (forall i c, active = Some (i, c) -> ps !! i = Some c /\ Project.live c = true) ->
  exists i c,
    orElse last
      (orElse active (orElse (findIdx Project.live ps) (findIdx (fun _ => true) ps)))
    = Some (i, c)
    /\ ps !! i = Some c
    /\ (existsb Project.live ps = true -> Project.live c = true).
Proof.
  intros Hne Hlast Hactive.
  destruct last as [[i c]|].
  { exists i, c. destruct (Hlast i c eq_refl) as [Hl Hv]. cbn. auto. }
  destruct active as [[i c]|].
  { exists i, c. destruct (Hactive i c eq_refl) as [Hl Hv]. cbn. auto. }
  cbn [orElse]. destruct (findIdx Project.live ps) as [[i c]|] eqn:Hlive.
  { exists i, c. destruct (findIdx_spec _ _ _ _ Hlive) as [Hl [Hv _]]. auto. }
  destruct ps as [|p ps]; [contradiction|]. exists O, p.
  split; [reflexivity|]. split; [reflexivity|].
  intros H. rewrite (findIdx_none _ _ Hlive) in H. discriminate H.
Qed.

(** X17: [/projects on] always leaves the peer with projects enabled and an
    active project that is in its collection, live whenever the collection
    has a live project; it records that project as the last one used, asks
    for a fresh-start preface, and neither adds nor removes a project. *)
Theorem X17_on_activates cfg env ctx (disk : Store) :
  ctxSub ctx = "on" ->
  let peerKey := buildPeerKeyFromCommandCtx ctx in
  let r := handleProjectsCommand cfg env ctx disk in
  exists peer' chosen,
    fst r !! peerKey = Some peer'
    /\ snd r = Returned (ProjectsOn (Some chosen))
    /\ PeerState.projectsEnabled peer' = Some true
    /\ In chosen (PeerState.projects peer')
    /\ PeerState.activeProjectId peer' = Project.id chosen
    /\ PeerState.lastProjectId peer' = Some (Project.id chosen)
    /\ PeerState.pendingReset peer' = Some true
    /\ (existsb Project.live (PeerState.projects peer') = true ->
        Project.live chosen = true)
    /\ List.map Project.id (PeerState.projects peer')
       = List.map Project.id
           (healedProjects env (defaultProjectName cfg)
              (PeerState.projects (startPeer disk peerKey))).
Proof.
  intros Hsub peerKey r. subst r peerKey.
  rewrite (handle_on _ _ _ _ Hsub). unfold cmdOn, withPeerState.
  cbv beta zeta. fold (startPeer disk (buildPeerKeyFromCommandCtx ctx)).
  rewrite ensureDefaultProject_eq.
  set (h := healed env (defaultProjectName cfg)
              (startPeer disk (buildPeerKeyFromCommandCtx ctx))).
  set (peer1 := PeerState.setProjectsEnabled (Some true) h).
  assert (Hps : PeerState.projects peer1
                = healedProjects env (defaultProjectName cfg)
                    (PeerState.projects
                       (startPeer disk (buildPeerKeyFromCommandCtx ctx))))
    by reflexivity.
  set (last := match PeerState.lastProjectId peer1 with
               | Some l => if Js.truthy l
                           then findIdx (fun p => hasId l p && Project.live p)
                                  (PeerState.projects peer1)
                           else None
               | None => None end).
  set (active := if Js.truthy (PeerState.activeProjectId peer1)
                 then findIdx
                        (fun p => hasId (PeerState.activeProjectId peer1) p
                                  && Project.live p)
                        (PeerState.projects peer1)
                 else None).
  destruct (on_choice (PeerState.projects peer1) last active)
    as [i [c [Hchosen [Hlook Hlive]]]].
  - rewrite Hps. apply healedProjects_nonempty.
  - intros i c. subst last. destruct (PeerState.lastProjectId peer1) as [l|];
      [destruct (Js.truthy l)|]; try discriminate.
    intros H. destruct (findIdx_spec _ _ _ _ H) as [Hl [Hv _]].
    apply andb_true_iff in Hv. tauto.
  - intros i c. subst active.
    destruct (Js.truthy (PeerState.activeProjectId peer1)); try discriminate.
    intros H. destruct (findIdx_spec _ _ _ _ H) as [Hl [Hv _]].
    apply andb_true_iff in Hv. tauto.
  - rewrite Hchosen. cbn [fst snd option_map].
    destruct (activate_fields env peer1 i c)
      as [He [Ha [Hl [Hr [_ [Hp _]]]]]].
    destruct (stampMessageId_fields ctx (activate env peer1 (Some i) c))
      as [Se [Sa [_ [Sl [Sr [Sp _]]]]]].
    exists (stampMessageId ctx (activate env peer1 (Some i) c)),
      (Project.setLastUsedAt (Some (nowIso env)) c).
    rewrite lookup_insert_eq, Se, Sa, Sl, Sr, Sp, He, Ha, Hl, Hr, Hp.
    repeat split.
    + apply list_elem_of_In, (list_elem_of_lookup_2 _ i).
      apply alter_lookup, Hlook.
    + rewrite alter_existsb by reflexivity. exact Hlive.
    + rewrite alter_ids by reflexivity. rewrite Hps. reflexivity.
Qed.

Lemma X17_on_activates_witness :
  exists peer' chosen,
    fst (handleProjectsCommand cfg0 (env0 5) (ctx0 "on" 5)
           (<["telegram:u1" := unsetActivePeer]> ∅)) !! "telegram:u1"
    = Some peer'
    /\ PeerState.activeProjectId peer' = Project.id chosen
    /\ Project.live chosen = true.
Proof.
  destruct (X17_on_activates cfg0 (env0 5) (ctx0 "on" 5)
              (<["telegram:u1" := unsetActivePeer]> ∅) eq_refl)
    as [peer' [chosen [H1 [_ [_ [_ [H2 [_ [_ [H3 _]]]]]]]]]].
  exists peer', chosen. split; [exact H1|]. split; [exact H2|].
  apply H3. vm_compute in H1. injection H1 as <-. vm_compute. reflexivity.
Defined.

(** ** Switching and creating *)

Lemma findProject_spec peer key i q :
  findProject peer key = Some (i, q) ->
  PeerState.projects peer !! i = Some q
  /\ Js.truthy (Js.trim key) = true
  /\ (Project.id q = Js.trim key
      \/ Js.toLowerCase (Project.name q) = Js.toLowerCase (Js.trim key))
  /\ (existsb (hasId (Js.trim key)) (PeerState.projects peer) = true ->
      Project.id q = Js.trim key).
Proof.
  unfold findProject. cbv zeta.
  destruct (Js.truthy (Js.trim key)); [|discriminate]. cbn [negb].
  destruct (findIdx (fun p => String.eqb (Project.id p) (Js.trim key))
              (PeerState.projects peer)) as [[j y]|] eqn:Hid.
  - intros H. injection H as <- <-.
    destruct (findIdx_spec _ _ _ _ Hid) as [Hl [Hv _]].
    apply String.eqb_eq in Hv. auto.
  - intros H. destruct (findIdx_spec _ _ _ _ H) as [Hl [Hv _]].
    apply String.eqb_eq in Hv. repeat split; auto.
    intros Hex. apply findIdx_none in Hid. unfold hasId in Hex.
    rewrite Hid in Hex. discriminate Hex.
Qed.

Lemma switched_from_switch cfg env ctx (disk disk' : Store) p :
  handleProjectsCommand cfg env ctx disk = (disk', Returned (Switched p)) ->
  cmdSwitch cfg env ctx disk (buildPeerKeyFromCommandCtx ctx) (ctxArgs ctx)
  = (disk', Returned (Switched p)).
Proof.
  unfold handleProjectsCommand, cmdStatus, cmdDebug, cmdList, cmdReset,
    cmdWipe, cmdOn, cmdOff, cmdNew, withPeerState.
  cbv beta zeta. split_cases; intros H; try discriminate H.
  all: try exact H.
  all: do 3 (simplify_eq; revert_pairs; split_cases; intros); simplify_eq.
Qed.

Lemma created_from_new cfg env ctx (disk disk' : Store) p :
  handleProjectsCommand cfg env ctx disk = (disk', Returned (Created p)) ->
  cmdNew cfg env ctx disk (buildPeerKeyFromCommandCtx ctx) (ctxArgs ctx)
  = (disk', Returned (Created p)).
Proof.
  unfold handleProjectsCommand, cmdStatus, cmdDebug, cmdList, cmdReset,
    cmdWipe, cmdOn, cmdOff, cmdSwitch, withPeerState.
  cbv beta zeta. split_cases; intros H; try discriminate H.
  all: try exact H.
  all: do 3 (simplify_eq; revert_pairs; split_cases; intros); simplify_eq.
Qed.

(** X18: when [/projects switch <key>] answers that it switched, the
    project it names is a live project of the healed collection whose id
    is the key or whose name is the key up to case, the id match winning
    when some project has that id; the peer stored has that project
    active and last used, the project that was active before as previous,
    projects enabled and a fresh-start preface requested, and the
    collection differs only in the project's [lastUsedAt]. *)
Theorem X18_switch_success cfg env ctx (disk disk' : Store) p :
  handleProjectsCommand cfg env ctx disk = (disk', Returned (Switched p)) ->
  let peerKey := buildPeerKeyFromCommandCtx ctx in
  let h := healed env (defaultProjectName cfg) (startPeer disk peerKey) in
  let key := Js.trim (Js.trim (Js.sliceFrom 6 (ctxArgs ctx))) in
  exists i q peer',
    PeerState.projects h !! i = Some q
    /\ Project.live q = true
    /\ p = Project.setLastUsedAt (Some (nowIso env)) q
    /\ (Project.id q = key
        \/ Js.toLowerCase (Project.name q) = Js.toLowerCase key)
    /\ (existsb (hasId key) (PeerState.projects h) = true -> Project.id q = key)
    /\ disk' = <[peerKey := peer']> disk
    /\ PeerState.activeProjectId peer' = Project.id q
    /\ PeerState.lastProjectId peer' = Some (Project.id q)
    /\ PeerState.previousProjectId peer'
       = (if Js.truthy (PeerState.activeProjectId h)
          then Some (PeerState.activeProjectId h)
          else PeerState.previousProjectId h)
    /\ PeerState.projectsEnabled peer' = Some true
    /\ PeerState.pendingReset peer' = Some true
    /\ PeerState.projects peer'
       = alter (Project.setLastUsedAt (Some (nowIso env))) i
           (PeerState.projects h).
Proof.
  intros H peerKey h key. subst peerKey h key.
  apply switched_from_switch in H. revert H.
  unfold cmdSwitch, withPeerState. cbv beta zeta.
  fold (startPeer disk (buildPeerKeyFromCommandCtx ctx)).
  rewrite ensureDefaultProject_eq.
  set (h := healed env (defaultProjectName cfg)
              (startPeer disk (buildPeerKeyFromCommandCtx ctx))).
  set (peer1 := PeerState.setProjectsEnabled (Some true) h).
  destruct (negb (Js.truthy (Js.trim (Js.sliceFrom 6 (ctxArgs ctx)))));
    [discriminate|].
  destruct (findProject peer1 (Js.trim (Js.sliceFrom 6 (ctxArgs ctx))))
    as [[i q]|] eqn:Hfind; [|discriminate].
  destruct (Project.live q) eqn:Hlive; cbn [negb]; [|discriminate].
  intros H. injection H as <- <-.
  destruct (findProject_spec _ _ _ _ Hfind) as [Hl [_ [Hm Hfirst]]].
  destruct (activate_fields env peer1 i q)
    as [He [Ha [Hla [Hr [Hpr [Hp _]]]]]].
  destruct (stampMessageId_fields ctx (activate env peer1 (Some i) q))
    as [Se [Sa [Spr [Sl [Sr [Sp _]]]]]].
  exists i, q, (stampMessageId ctx (activate env peer1 (Some i) q)).
  rewrite Se, Sa, Sl, Sr, Sp, Spr, He, Ha, Hla, Hr, Hp, Hpr.
  repeat split; try assumption.
Qed.

Lemma X18_switch_success_witness :
  let disk := run [("new Alpha", 1); ("on", 2)] ∅ in
  exists peer',
    fst (handleProjectsCommand cfg0 (env0 3) (ctx0 "switch general" 3) disk)
    = <["telegram:u1" := peer']> disk
    /\ PeerState.activeProjectId peer' = "proj-general"
    /\ PeerState.previousProjectId peer' = Some "proj-alpha".
Proof.
  intros disk.
  destruct (X18_switch_success cfg0 (env0 3) (ctx0 "switch general" 3) disk
              (fst (handleProjectsCommand cfg0 (env0 3)
                      (ctx0 "switch general" 3) disk))
              (Project.setLastUsedAt (Some (nowIso (env0 3))) generalProject))
    as [i [q [peer' [Hq [_ [Hp [_ [_ [Hd [Ha [_ [Hprev _]]]]]]]]]]]].
  { vm_compute. reflexivity. }
  exists peer'. split; [exact Hd|].
  assert (Project.id q = "proj-general") as Hid.
  { change "proj-general"
      with (Project.id
              (Project.setLastUsedAt (Some (nowIso (env0 3))) generalProject)).
    rewrite Hp. destruct q. reflexivity. }
  split; [rewrite Ha; exact Hid|].
  rewrite Hprev. vm_compute. reflexivity.
Defined.

(** X19: when [/projects new <name>] answers that it created a project,
    no live project of the healed collection had that name up to case;
    the new project is appended to the collection, unarchived, with the
    trimmed name and the id made from it, and is the active and last used
    one; and the number of live projects stays within [maxProjects]. *)
Theorem X19_new_creates cfg env ctx (disk disk' : Store) p :
  handleProjectsCommand cfg env ctx disk = (disk', Returned (Created p)) ->
  let peerKey := buildPeerKeyFromCommandCtx ctx in
  let h := healed env (defaultProjectName cfg) (startPeer disk peerKey) in
  let name := Js.trim (Js.sliceFrom 3 (ctxArgs ctx)) in
  exists peer',
    disk' = <[peerKey := peer']> disk
    /\ PeerState.projects peer' = (PeerState.projects h ++ [p])%list
    /\ Project.id p = newProjectId env name
    /\ Project.name p = name
    /\ Js.truthy name = true
    /\ Project.live p = true
    /\ PeerState.activeProjectId peer' = Project.id p
    /\ PeerState.lastProjectId peer' = Some (Project.id p)
    /\ PeerState.projectsEnabled peer' = Some true
    /\ PeerState.pendingReset peer' = Some true
    /\ Z.of_nat (length (List.filter Project.live (PeerState.projects peer')))
       <= maxProjects cfg
    /\ (forall q, In q (PeerState.projects h) -> Project.live q = true ->
        Js.toLowerCase (Project.name q) <> Js.toLowerCase name).
Proof.
  intros H peerKey h name. subst peerKey h name.
  apply created_from_new in H. revert H.
  unfold cmdNew, withPeerState. cbv beta zeta.
  fold (startPeer disk (buildPeerKeyFromCommandCtx ctx)).
  rewrite ensureDefaultProject_eq.
  set (h := healed env (defaultProjectName cfg)
              (startPeer disk (buildPeerKeyFromCommandCtx ctx))).
  set (name := Js.trim (Js.sliceFrom 3 (ctxArgs ctx))).
  set (peer1 := PeerState.setProjectsEnabled (Some true) h).
  change (PeerState.projects peer1) with (PeerState.projects h).
  destruct (Js.truthy name) eqn:Hname; cbn [negb]; [|discriminate].
  destruct (findIdx _ (PeerState.projects h)) as [[i existing]|] eqn:Hdup;
    [discriminate|].
  destruct (Z.geb_spec
              (Z.of_nat (length (List.filter Project.live (PeerState.projects h))))
              (maxProjects cfg)) as [|Hlimit]; [discriminate|].
  cbv beta iota. fold (newProjectId env name).
  intros H. injection H as Hd Hp. subst disk' p.
  eexists. split; [reflexivity|].
  match goal with
  | |- context [stampMessageId ctx ?peer] =>
      destruct (stampMessageId_fields ctx peer)
        as [Se [Sa [_ [Sl [Sr [Sp _]]]]]]
  end.
  rewrite Se, Sa, Sl, Sr, Sp.
  split; [reflexivity|]. do 8 (split; [reflexivity|]). split.
  - cbn [activate PeerState.projects PeerState.setProjects
         PeerState.setPendingReset PeerState.setLastProjectId
         PeerState.setActiveProjectId PeerState.setPreviousProjectId].
    fold h. rewrite List.filter_app, List.length_app.
    cbn [List.filter Project.live Project.archived negb length
         default from_option id].
    revert Hlimit. unfold h. cbn [healed PeerState.projects]. lia.
  - intros q Hq Hlive Heq.
    apply findIdx_none in Hdup.
    apply (existsb_false_In _ _ _ Hdup) in Hq.
    rewrite Hlive, Heq, String.eqb_refl in Hq. discriminate Hq.
Qed.

Lemma X19_new_creates_witness :
  let disk := run [("on", 1)] ∅ in
  exists peer',
    fst (handleProjectsCommand cfg0 (env0 2) (ctx0 "new My Plan" 2) disk)
    = <["telegram:u1" := peer']> disk
    /\ List.map Project.id (PeerState.projects peer')
       = ["proj-general"; "proj-my-plan"].
Proof.
  intros disk.
  destruct (X19_new_creates cfg0 (env0 2) (ctx0 "new My Plan" 2) disk
              (fst (handleProjectsCommand cfg0 (env0 2)
                      (ctx0 "new My Plan" 2) disk))
              (Project.mk "proj-my-plan" "My Plan" None (nowIso (env0 2))
                 (Some (nowIso (env0 2))) None None))
    as [peer' [Hd [Hp _]]].
  { vm_compute. reflexivity. }
  exists peer'. split; [exact Hd|]. rewrite Hp. vm_compute. reflexivity.
Defined.

(** ** Arming the removal of one project *)

Lemma pendingOf_persist (disk : Store) peerKey peer peer' changed :
  disk !! peerKey = Some peer ->
  PeerState.pendingWipe peer' = PeerState.pendingWipe peer ->
  pendingOf (persistIfChanged disk peerKey peer' changed) peerKey
  = PeerState.pendingWipe peer.
Proof.
  intros Hpeer Hsame. unfold pendingOf, persistIfChanged.
  destruct changed; [rewrite lookup_insert_eq; exact Hsame|].
  rewrite Hpeer. reflexivity.
Qed.

(** X20: [/projects reset remove <id>] arms the removal exactly when the
    peer has stored state and the id is that of a live project of the
    healed collection other than the default project; the operation armed
    is then a one-project wipe of that id stamped with the current clock.
    In every other case the command is refused and the wipe pending
    before, if any, is still pending. *)
Theorem X20_reset_remove_outcome cfg env ctx (disk : Store) :
  ctxSub ctx = "reset" ->
  Js.toLowerCase (Js.part (ctxParts ctx) 1) = "remove" ->
  Js.truthy (Js.part (ctxParts ctx) 2) = true ->
  let peerKey := buildPeerKeyFromCommandCtx ctx in
  let projectId := Js.part (ctxParts ctx) 2 in
  let r := handleProjectsCommand cfg env ctx disk in
  let removable :=
    exists peer project,
      disk !! peerKey = Some peer
      /\ projectId <> defaultProjectId cfg
      /\ In project
           (PeerState.projects (healed env (defaultProjectName cfg) peer))
      /\ Project.id project = projectId
      /\ Project.live project = true in
  ((exists project pending, snd r = Returned (ArmedProject project pending))
   <-> removable)
  /\ (removable ->
      exists pending,
        pendingOf (fst r) peerKey = Some pending
        /\ PendingWipe.kind pending = KindProject
        /\ PendingWipe.projectId pending = Some projectId
        /\ PendingWipe.createdAtMs pending = nowMs env)
  /\ (~ removable ->
      refused (snd r) /\ pendingOf (fst r) peerKey = pendingOf disk peerKey).
Proof.
  intros Hsub Hact Hpid peerKey projectId r removable.
  subst r. rewrite (handle_reset _ _ _ _ Hsub). unfold cmdReset. cbv zeta.
  rewrite Hact, Hpid. fold projectId peerKey.
  change (Js.truthy "remove") with true.
  change (String.eqb "remove" "remove") with true. cbn [negb]. cbv iota.
  destruct (disk !! peerKey) as [peer|] eqn:Hpeer.
  2: { assert (~ removable) as Hno.
       { intros [peer [project [H _]]]. discriminate H. }
       cbn [fst snd]. split; [|split].
       - split; [intros [project [pending H]]; discriminate H|].
         intros H. destruct (Hno H).
       - intros H. destruct (Hno H).
       - intros _. split; [exact I | reflexivity]. }
  rewrite ensureDefaultProject_eq.
  set (h := healed env (defaultProjectName cfg) peer).
  assert (pendingOf
            (persistIfChanged disk peerKey h
               (healChanged (defaultProjectName cfg) peer)) peerKey
          = pendingOf disk peerKey) as Hkeep.
  { rewrite (pendingOf_persist _ _ peer) by (exact Hpeer || reflexivity).
    unfold pendingOf. rewrite Hpeer. reflexivity. }
  destruct (String.eqb_spec projectId (defaultProjectId cfg)) as [Hdef|Hdef].
  { assert (~ removable) as Hno.
    { intros [peer' [project [_ [H _]]]]. contradiction. }
    cbn [fst snd]. split; [|split].
    - split; [intros [project [pending H]]; discriminate H|].
      intros H. destruct (Hno H).
    - intros H. destruct (Hno H).
    - intros _. split; [exact I | exact Hkeep]. }
  destruct (List.find (fun p => hasId projectId p && Project.live p)
              (PeerState.projects h)) as [project|] eqn:Hfind.
  - assert removable as Hyes.
    { apply List.find_some in Hfind as [Hin Hp].
      apply andb_true_iff in Hp as [Hid Hlive].
      apply String.eqb_eq in Hid.
      exists peer, project. auto. }
    cbn [fst snd]. split; [|split].
    + split; [intros _; exact Hyes | intros _; eauto].
    + intros _. exists (newPending cfg env KindProject (Some projectId)).
      unfold pendingOf. rewrite lookup_insert_eq. repeat split.
    + intros Hno. destruct (Hno Hyes).
  - assert (~ removable) as Hno.
    { intros [peer' [project [Hp' [_ [Hin [Hid Hlive]]]]]].
      rewrite ?Hpeer in Hp'. injection Hp' as <-.
      apply (List.find_none _ _ Hfind) in Hin.
      unfold hasId in Hin. rewrite Hid, String.eqb_refl, Hlive in Hin.
      discriminate Hin. }
    cbn [fst snd]. split; [|split].
    + split; [intros [project [pending H]]; discriminate H|].
      intros H. destruct (Hno H).
    + intros H. destruct (Hno H).
    + intros _. split; [exact I | exact Hkeep].
Qed.

Lemma X20_reset_remove_outcome_witness :
  let disk := run [("new Alpha", 1)] ∅ in
  exists project pending,
    snd (handleProjectsCommand cfg0 (env0 2) (ctx0 "reset remove proj-alpha" 2)
           disk)
    = Returned (ArmedProject project pending).
Proof.
  intros disk.
  apply (proj1 (X20_reset_remove_outcome cfg0 (env0 2)
                  (ctx0 "reset remove proj-alpha" 2) disk
                  eq_refl eq_refl eq_refl)).
  eexists _, _. split; [vm_compute; reflexivity|].
  split; [vm_compute; discriminate|].
  split; [vm_compute; right; left; reflexivity|].
  split; vm_compute; reflexivity.
Defined.

(** ** The confirm button *)

Lemma splitWsAux_run cur t rest :
  Forall (fun c => Js.isSpace c = false) t ->
  Js.splitWsAux cur (t ++ rest) = Js.splitWsAux (rev t ++ cur) rest.
Proof.
  intros H. revert cur. induction H as [|c t Hc _ IH]; intros cur;
    [reflexivity|].
  cbn [app Js.splitWsAux rev]. rewrite Hc, IH, <- app_assoc. reflexivity.
Qed.

Lemma splitWs_token t rest :
  t <> "" -> noSpace t ->
  Js.splitWsAux [] (Js.chars t ++ " "%char :: rest)
  = t :: Js.splitWsAux [] rest.
Proof.
  intros Hne Hns. rewrite (splitWsAux_run _ _ _ Hns), app_nil_r.
  cbn [Js.splitWsAux]. change (Js.isSpace " ") with true. cbv iota.
  destruct (rev (Js.chars t)) as [|c r] eqn:E.
  - apply (f_equal (@rev ascii)) in E. rewrite rev_involutive in E.
    apply (f_equal Js.str) in E. rewrite str_chars in E. contradiction.
  - rewrite <- E, rev_involutive, str_chars. reflexivity.
Qed.

Lemma splitWs_last t :
  t <> "" -> noSpace t -> Js.splitWsAux [] (Js.chars t) = [t].
Proof.
  intros Hne Hns. rewrite <- (app_nil_r (Js.chars t)).
  rewrite (splitWsAux_run _ _ _ Hns), app_nil_r. cbn [Js.splitWsAux].
  destruct (rev (Js.chars t)) as [|c r] eqn:E.
  - apply (f_equal (@rev ascii)) in E. rewrite rev_involutive in E.
    apply (f_equal Js.str) in E. rewrite str_chars in E. contradiction.
  - rewrite <- E, rev_involutive, str_chars. reflexivity.
Qed.

(** The tokens of a split are non-empty and free of white space. *)
Lemma splitWsAux_tokens cur l :
  Forall (fun c => Js.isSpace c = false) cur ->
  Forall (fun s => s <> "" /\ noSpace s) (Js.splitWsAux cur l).
Proof.
  assert (forall cur, cur <> [] ->
            Forall (fun c => Js.isSpace c = false) cur ->
            Js.str (rev cur) <> "" /\ noSpace (Js.str (rev cur))) as Htok.
  { intros k Hne Hk. split.
    - intros E. apply (f_equal Js.chars) in E. rewrite chars_str in E.
      apply (f_equal (@rev ascii)) in E. rewrite rev_involutive in E.
      contradiction.
    - unfold noSpace. rewrite chars_str. apply Forall_rev. exact Hk. }
  revert cur. induction l as [|c l IH]; intros cur Hcur; cbn [Js.splitWsAux].
  - destruct cur as [|k ks]; [constructor|].
    constructor; [|constructor]. apply Htok; [discriminate | exact Hcur].
  - destruct (Js.isSpace c) eqn:Hc.
    + destruct cur as [|k ks]; [apply IH; constructor|].
      constructor; [|apply IH; constructor].
      apply Htok; [discriminate | exact Hcur].
    + apply IH. constructor; assumption.
Qed.

Lemma part_noSpace ctx i :
  Js.truthy (Js.part (ctxParts ctx) i) = true ->
  noSpace (Js.part (ctxParts ctx) i).
Proof.
  intros H. unfold Js.part in *.
  destruct (Nat.lt_ge_cases i (length (ctxParts ctx))) as [Hlt|Hge].
  - assert (Forall (fun s => s <> "" /\ noSpace s) (ctxParts ctx)) as Hall.
    { unfold ctxParts. destruct (Js.truthy (ctxArgs ctx)); [|constructor].
      apply splitWsAux_tokens. constructor. }
    rewrite List.Forall_forall in Hall.
    apply (Hall _ (nth_In _ "" Hlt)).
  - rewrite (nth_overflow _ _ Hge) in H. discriminate H.
Qed.

Lemma trimChars_fixed c m d :
  Js.isSpace c = false -> Js.isSpace d = false ->
  Js.trimChars (c :: m ++ [d]) = c :: m ++ [d].
Proof.
  intros Hc Hd. unfold Js.trimChars, Js.dropWhileEnd.
  cbn [Js.dropWhile]. rewrite Hc.
  change (c :: m ++ [d])%list with ((c :: m) ++ [d])%list.
  rewrite rev_app_distr. cbn [rev app Js.dropWhile]. rewrite Hd.
  cbn [rev]. rewrite rev_app_distr, rev_involutive. reflexivity.
Qed.

(** A command line that starts with a letter and ends with a token is
    left as it is by [trim]. *)
Lemma trim_command c (p t : string) :
  Js.isSpace c = false -> t <> "" -> noSpace t ->
  Js.trim (String c p ++ t) = String c p ++ t.
Proof.
  intros Hc Hne Hns. unfold Js.trim.
  rewrite <- (str_chars (String c p ++ t)) at 2. f_equal.
  rewrite chars_append.
  destruct (exists_last (l := Js.chars t)) as [m [d E]].
  { intros E. apply (f_equal Js.str) in E. rewrite str_chars in E.
    contradiction. }
  unfold noSpace in Hns. rewrite E in Hns |- *.
  apply Forall_app in Hns as [_ Hd]. inversion Hd as [|? ? Hd' _]; subst.
  change (Js.chars (String c p)) with (c :: Js.chars p).
  cbn [app]. rewrite app_assoc. apply trimChars_fixed; assumption.
Qed.

Lemma append_assoc3 (a b c : string) : a ++ b ++ c = (a ++ b) ++ c.
Proof.
  rewrite <- (str_chars (a ++ b ++ c)), <- (str_chars ((a ++ b) ++ c)).
  rewrite !chars_append, app_assoc. reflexivity.
Qed.

Lemma append_cancel (p a b : string) : p ++ a = p ++ b -> a = b.
Proof.
  intros H. apply (f_equal Js.chars) in H. rewrite !chars_append in H.
  apply app_inv_head in H. rewrite <- (str_chars a), H. apply str_chars.
Qed.

Lemma noSpace_randomNonce e n : noSpace (randomNonce e n).
Proof.
  unfold noSpace, randomNonce.
  destruct (hex_shape (List.map e (seq 0 n))) as [_ H].
  revert H. apply List.Forall_impl. intros c. apply hex_not_space.
Qed.

Lemma noSpace_append a b : noSpace a -> noSpace b -> noSpace (a ++ b).
Proof.
  unfold noSpace. rewrite chars_append. intros Ha Hb.
  apply Forall_app. split; assumption.
Qed.

(** The command that the confirm-all button sends, as the handler reads
    it. *)
Lemma parse_confirm_all ctx nonce :
  default "" (args ctx) = "wipe confirm " ++ nonce ->
  nonce <> "" -> noSpace nonce ->
  isConfirmAll ctx /\ Js.part (ctxParts ctx) 2 = nonce.
Proof.
  intros Hargs Hne Hns.
  assert (ctxArgs ctx = "wipe confirm " ++ nonce) as Ha.
  { unfold ctxArgs. rewrite Hargs. apply trim_command; auto. }
  assert (ctxParts ctx = ["wipe"; "confirm"; nonce]) as Hp.
  { unfold ctxParts. rewrite Ha.
    replace (Js.truthy ("wipe confirm " ++ nonce)) with true
      by (symmetry; apply truthy_true; discriminate).
    unfold Js.splitWs. rewrite chars_append.
    change (Js.chars "wipe confirm ")
      with (Js.chars "wipe" ++ " "%char :: Js.chars "confirm" ++ [" "%char])%list.
    repeat (rewrite <- app_assoc; cbn [app]).
    rewrite splitWs_token; [|discriminate|repeat constructor].
    repeat (rewrite <- app_assoc; cbn [app]).
    rewrite splitWs_token; [|discriminate|repeat constructor].
    rewrite splitWs_last by assumption. reflexivity. }
  unfold isConfirmAll, ctxSub. rewrite Hp. repeat split.
Qed.

(** The command that the confirm button of a one-project wipe sends. *)
Lemma parse_confirm_project ctx nonce projectId :
  default "" (args ctx) = "wipe project confirm " ++ nonce ++ " " ++ projectId ->
  nonce <> "" -> noSpace nonce -> projectId <> "" -> noSpace projectId ->
  isConfirmProject ctx
  /\ Js.part (ctxParts ctx) 3 = nonce
  /\ Js.part (ctxParts ctx) 4 = projectId.
Proof.
  intros Hargs Hne Hns Hpne Hpns.
  assert (ctxArgs ctx = "wipe project confirm " ++ nonce ++ " " ++ projectId)
    as Ha.
  { unfold ctxArgs. rewrite Hargs.
    rewrite (append_assoc3 nonce), (append_assoc3 "wipe project confirm ").
    apply (trim_command "w" ("ipe project confirm " ++ nonce ++ " ") projectId);
      auto. }
  assert (ctxParts ctx = ["wipe"; "project"; "confirm"; nonce; projectId]) as Hp.
  { unfold ctxParts. rewrite Ha.
    replace (Js.truthy ("wipe project confirm " ++ nonce ++ " " ++ projectId))
      with true by (symmetry; apply truthy_true; discriminate).
    unfold Js.splitWs. rewrite !chars_append.
    change (Js.chars "wipe project confirm ")
      with (Js.chars "wipe" ++ " "%char :: Js.chars "project"
            ++ " "%char :: Js.chars "confirm" ++ [" "%char])%list.
    change (Js.chars " ") with [" "%char].
    repeat (rewrite <- app_assoc; cbn [app]).
    rewrite splitWs_token; [|discriminate|repeat constructor].
    repeat (rewrite <- app_assoc; cbn [app]).
    rewrite splitWs_token; [|discriminate|repeat constructor].
    repeat (rewrite <- app_assoc; cbn [app]).
    rewrite splitWs_token; [|discriminate|repeat constructor].
    rewrite splitWs_token by assumption.
    rewrite splitWs_last by assumption. reflexivity. }
  unfold isConfirmProject, ctxSub. rewrite Hp. repeat split.
Qed.

(** X21: the confirm button works.  When a command arms a wipe, of all
    projects or of one, the [callback_data] of the confirm button of its
    reply, sent back for the same peer as the arguments of [/projects]
    within 120000 ms, is read as the confirmation that matches the arm:
    the command of the armed kind, with the armed nonce and, for one
    project, the armed project id, as the split on white space gives
    them back.  Hence, whenever the backup copy does not fail, the wipe
    is carried out: the store holds the reset state for a wipe of all
    projects, and for a wipe of one project a collection without the
    target id that keeps every project of another id. *)
Theorem X21_confirm_button_round_trip cfg envA ctxA (disk0 : Store) envC ctxC
  data :
  let armedBy := handleProjectsCommand cfg envA ctxA disk0 in
  confirmCallback (snd armedBy) = Some data ->
  "/projects " ++ default "" (args ctxC) = data ->
  buildPeerKeyFromCommandCtx ctxC = buildPeerKeyFromCommandCtx ctxA ->
  nowMs envC - nowMs envA <= wipeConfirmTtlMs ->
  (forall code, backupCopy envC <> CopyFailed code) ->
  let peerKey := buildPeerKeyFromCommandCtx ctxA in
  let r := handleProjectsCommand cfg envC ctxC (fst armedBy) in
  exists pending armed after,
    fst armedBy !! peerKey = Some armed
    /\ PeerState.pendingWipe armed = Some pending
    /\ matchesArm pending (nowMs envC) ctxC
    /\ fst r !! peerKey = Some after
    /\ carriedOut cfg pending armed after (snd r).
Proof.
  intros armedBy Hcb Hdata Hkey Httl Hcopy peerKey r. subst armedBy r peerKey.
  destruct (handleProjectsCommand cfg envA ctxA disk0) as [disk1 o] eqn:Harm.
  cbn [fst snd] in *.
  destruct o as [reply|code]; [|discriminate Hcb].
  destruct reply; try discriminate Hcb; cbn [confirmCallback] in Hcb;
    injection Hcb as <-.
  - destruct (arm_wellArmed cfg envA ctxA disk0 disk1 pending
                (or_intror (ex_intro _ project Harm)))
      as [peer1 [Hpeer [Hwell Hat]]].
    destruct (armedProject_inv _ _ _ _ _ _ _ _
                (armedProject_from_reset _ _ _ _ _ _ _ Harm))
      as [peer0 [_ [Hpid [_ [Hfind [Hpend _]]]]]].
    apply List.find_some in Hfind as [_ Hid].
    apply andb_true_iff in Hid as [Hid _]. apply String.eqb_eq in Hid.
    change ("/projects wipe project confirm " ++ PendingWipe.nonce pending
            ++ " " ++ Project.id project)
      with ("/projects " ++ "wipe project confirm "
            ++ PendingWipe.nonce pending ++ " " ++ Project.id project)
      in Hdata.
    apply append_cancel in Hdata.
    destruct (parse_confirm_project ctxC (PendingWipe.nonce pending)
                (Project.id project) Hdata) as [Hc [Hnonce Htarget]].
    { apply truthy_true. apply Hwell. }
    { rewrite Hpend. apply noSpace_randomNonce. }
    { rewrite Hid. apply truthy_true. exact Hpid. }
    { rewrite Hid. apply part_noSpace. exact Hpid. }
    pose proof Hpeer as Hpeer'. rewrite <- Hkey in Hpeer'.
    destruct (confirm_project_spec cfg envC ctxC disk1 peer1 pending Hpeer'
                Hwell Hc) as [_ [Hexec _]].
    assert (matchesArm pending (nowMs envC) ctxC) as Hm.
    { assert (PendingWipe.kind pending = KindProject) as Hkind
        by (rewrite Hpend; reflexivity).
      assert (PendingWipe.projectId pending = Some (Project.id project))
        as Harmed by (rewrite Hpend, Hid; reflexivity).
      unfold matchesArm. rewrite Hkind, Hat, Htarget. auto. }
    specialize (Hexec Hm). rewrite Hkey in Hexec.
    exists pending, peer1.
    destruct (backupCopy envC) eqn:Hb;
      [ destruct Hexec as [after [Ha Hd]]
      | destruct Hexec as [after [Ha Hd]]
      | destruct (Hcopy _ eq_refl) ].
    all: exists after; split; [exact Hpeer|]; split; [apply Hwell|]; auto.
  - destruct (arm_wellArmed cfg envA ctxA disk0 disk1 pending
                (or_introl Harm)) as [peer1 [Hpeer [Hwell Hat]]].
    destruct (armedAll_inv _ _ _ _ _ _ Harm) as [Hpend _].
    change ("/projects wipe confirm " ++ PendingWipe.nonce pending)
      with ("/projects " ++ "wipe confirm " ++ PendingWipe.nonce pending)
      in Hdata.
    apply append_cancel in Hdata.
    destruct (parse_confirm_all ctxC (PendingWipe.nonce pending) Hdata)
      as [Hc Hnonce].
    { apply truthy_true. apply Hwell. }
    { rewrite Hpend. apply noSpace_randomNonce. }
    pose proof Hpeer as Hpeer'. rewrite <- Hkey in Hpeer'.
    destruct (confirm_all_spec cfg envC ctxC disk1 peer1 pending Hpeer' Hwell Hc)
      as [_ [Hexec _]].
    assert (matchesArm pending (nowMs envC) ctxC) as Hm.
    { assert (PendingWipe.kind pending = KindAll) as Hkind
        by (rewrite Hpend; reflexivity).
      unfold matchesArm. rewrite Hkind, Hat. auto. }
    specialize (Hexec Hm). rewrite Hkey in Hexec.
    exists pending, peer1.
    destruct (backupCopy envC) eqn:Hb;
      [ destruct Hexec as [after [Ha Hd]]
      | destruct Hexec as [after [Ha Hd]]
      | destruct (Hcopy _ eq_refl) ].
    all: exists after; split; [exact Hpeer|]; split; [apply Hwell|]; auto.
Qed.

Lemma X21_confirm_button_round_trip_witness :
  let disk := run [("new Alpha", 1)] ∅ in
  exists after,
    fst (handleProjectsCommand cfg0 (env0 60002)
           (ctx0 "wipe project confirm deadbeef proj-alpha" 3)
           (fst (handleProjectsCommand cfg0 (env0 2)
                   (ctx0 "reset remove proj-alpha" 2) disk)))
    !! "telegram:u1" = Some after
    /\ List.map Project.id (PeerState.projects after) = ["proj-general"].
Proof.
  intros disk.
  destruct (X21_confirm_button_round_trip cfg0 (env0 2)
              (ctx0 "reset remove proj-alpha" 2) disk (env0 60002)
              (ctx0 "wipe project confirm deadbeef proj-alpha" 3)
              "/projects wipe project confirm deadbeef proj-alpha")
    as [pending [armed [after [_ [_ [_ [Hafter _]]]]]]].
  - vm_compute. reflexivity.
  - vm_compute. reflexivity.
  - reflexivity.
  - vm_compute. discriminate.
  - intros code. vm_compute. discriminate.
  - exists after. split; [exact Hafter|].
    vm_compute in Hafter. injection Hafter as <-. reflexivity.
Defined.

(** ** Commands followed by the hooks *)

Lemma healed_setProjectsEnabled env d b peer :
  healed env d (PeerState.setProjectsEnabled (Some b) peer)
  = PeerState.setProjectsEnabled (Some b) (healed env d peer).
Proof. destruct peer. reflexivity. Qed.

Lemma healed_stampMessageId env d ctx peer :
  healed env d (stampMessageId ctx peer)
  = stampMessageId ctx (healed env d peer).
Proof.
  unfold stampMessageId.
  destruct (channel ctx) as [c|], (messageId ctx) as [m|];
    try destruct (String.eqb c "telegram"); reflexivity.
Qed.

(** The peer stored by [/projects off] needs no healing. *)
Lemma healed_after_off env env' d ctx b peer :
  let stored :=
    stampMessageId ctx
      (PeerState.setProjectsEnabled (Some b) (healed env d peer)) in
  healed env' d stored = stored.
Proof.
  cbv zeta.
  rewrite healed_stampMessageId, healed_setProjectsEnabled, healed_idem.
  reflexivity.
Qed.

(** [/projects off] keeps the healed collection and active project, and
    on the store it writes, whatever the configuration and the clock, the
    [before_agent_start] hook adds no preface and the [resolve_room_key]
    hook gives no replacement key for that peer, both leaving that store
    as it is. *)
Lemma off_is_classic_on_store cfg env ctx (disk : Store) :
  ctxSub ctx = "off" ->
  let peerKey := buildPeerKeyFromCommandCtx ctx in
  let h := healed env (defaultProjectName cfg) (startPeer disk peerKey) in
  let r := handleProjectsCommand cfg env ctx disk in
  snd r = Returned ProjectsOff
  /\ (exists peer',
         fst r !! peerKey = Some peer'
         /\ PeerState.projectsEnabled peer' = Some false
         /\ PeerState.projects peer' = PeerState.projects h
         /\ PeerState.activeProjectId peer' = PeerState.activeProjectId h)
  /\ (forall envH hookCtx,
         buildPeerKeyFromBeforeAgentStart hookCtx = peerKey ->
         beforeAgentStart cfg envH hookCtx (fst r) = (fst r, None))
  /\ (forall envH event,
         "telegram:" ++ Js.trim (default "" (evPeerId event)) = peerKey ->
         resolveRoomKey cfg envH event (fst r) = (fst r, None)).
Proof.
  intros Hsub peerKey h r. subst r.
  rewrite (handle_off _ _ _ _ Hsub). unfold cmdOff, withPeerState.
  cbv beta zeta. fold peerKey. fold (startPeer disk peerKey).
  rewrite ensureDefaultProject_eq. fold h. cbn [fst snd].
  set (stored := stampMessageId ctx (PeerState.setProjectsEnabled (Some false) h)).
  assert (PeerState.projectsEnabled stored = Some false) as Hoff.
  { destruct (stampMessageId_fields ctx
                (PeerState.setProjectsEnabled (Some false) h)) as [He _].
    exact He. }
  assert (forall envH, healed envH (defaultProjectName cfg) stored = stored)
    as Hfix.
  { intros envH. apply healed_after_off. }
  split; [reflexivity|]. split; [|split].
  - exists stored. rewrite lookup_insert_eq.
    destruct (stampMessageId_fields ctx
                (PeerState.setProjectsEnabled (Some false) h))
      as [_ [Ha [_ [_ [_ [Hp _]]]]]].
    repeat split; assumption.
  - intros envH hookCtx Hk. unfold beforeAgentStart. cbv zeta.
    rewrite Hk, lookup_insert_eq, ensureDefaultProject_eq, Hfix, Hoff.
    cbn [isTrue negb].
    rewrite persistIfChanged_same by apply lookup_insert_eq. reflexivity.
  - intros envH event Hk. unfold resolveRoomKey. cbv zeta.
    destruct (negb (hardIsolationEnabled cfg)); [reflexivity|].
    destruct (negb (isSomeStr _ _)); [reflexivity|].
    destruct (negb match evPeerKind event with Some Dm => true | _ => false end);
      [reflexivity|].
    destruct (negb (Js.truthy _)); [reflexivity|].
    rewrite Hk, lookup_insert_eq, ensureDefaultProject_eq, Hfix, Hoff.
    cbn [negb].
    rewrite persistIfChanged_same by apply lookup_insert_eq. reflexivity.
Qed.

(** The peer stored by a switch to a project with a non-empty id needs no
    healing. *)
Lemma healChanged_after_activate env d ctx peer i q :
  Js.truthy (Project.id q) = true ->
  healChanged d
    (stampMessageId ctx
       (activate env
          (PeerState.setProjectsEnabled (Some true) (healed env d peer))
          (Some i) q))
  = false.
Proof.
  intros Hq.
  set (peer1 := PeerState.setProjectsEnabled (Some true) (healed env d peer)).
  destruct (stampMessageId_fields ctx (activate env peer1 (Some i) q))
    as [Se [Sa [_ [_ [_ [Sp [Sg _]]]]]]].
  destruct (activate_fields env peer1 i q)
    as [He [Ha [_ [_ [_ [Hp [Hg _]]]]]]].
  unfold healChanged. rewrite Se, Sa, Sp, Sg, He, Ha, Hp, Hg, Hq.
  cbn [peer1 healed PeerState.setProjectsEnabled PeerState.projects
       PeerState.globalTokens PeerState.projectsEnabled negb].
  rewrite !alter_existsb by (intros p; destruct p; reflexivity).
  rewrite healedProjects_noRename, healedProjects_hasTokens.
  destruct (alter _ i _) as [|p ps] eqn:E; [|reflexivity].
  apply (f_equal (@length _)) in E. rewrite length_alter in E.
  change (PeerState.projects peer1)
    with (healedProjects env d (PeerState.projects peer)) in E.
  destruct (healedProjects env d (PeerState.projects peer)) eqn:E';
    [destruct (healedProjects_nonempty _ _ _ E') | cbn in E; discriminate E].
Qed.

(** On the store that a switch to a project with a non-empty id, sent as
    Telegram message [m], has written, the [resolve_room_key] hook routes
    the direct messages of that peer numbered [m] or later to the room of
    that project, and those numbered below [m] to the room of the project
    that was active before the switch (when none was active: of the
    previous project recorded then, or of the new project when none was
    recorded); it leaves that store as it is. *)
Lemma switch_then_route_on_store cfg env ctx (disk disk' : Store) p envH event m
  msgId :
  handleProjectsCommand cfg env ctx disk = (disk', Returned (Switched p)) ->
  channel ctx = Some "telegram" ->
  messageId ctx = Some m ->
  Js.truthy (Project.id p) = true ->
  hardIsolationEnabled cfg = true ->
  evChannel event = Some "telegram" ->
  evPeerKind event = Some Dm ->
  Js.truthy (Js.trim (default "" (evPeerId event))) = true ->
  "telegram:" ++ Js.trim (default "" (evPeerId event))
  = buildPeerKeyFromCommandCtx ctx ->
  evMessageId event = Some msgId ->
  let h :=
    healed env (defaultProjectName cfg)
      (startPeer disk (buildPeerKeyFromCommandCtx ctx)) in
  let before :=
    if Js.truthy (PeerState.activeProjectId h)
    then PeerState.activeProjectId h
    else default (Project.id p) (PeerState.previousProjectId h) in
  resolveRoomKey cfg envH event disk'
  = (disk', roomKeyFor event (if msgId <? m then before else Project.id p)).
Proof.
  intros H Hchan Hmid Hidp Hhard HevCh HevKind HevPeer Hk HevMsg h before.
  subst before h.
  apply switched_from_switch in H. revert H.
  unfold cmdSwitch, withPeerState. cbv beta zeta.
  fold (startPeer disk (buildPeerKeyFromCommandCtx ctx)).
  rewrite ensureDefaultProject_eq.
  set (h := healed env (defaultProjectName cfg)
              (startPeer disk (buildPeerKeyFromCommandCtx ctx))).
  set (peer1 := PeerState.setProjectsEnabled (Some true) h).
  destruct (negb (Js.truthy (Js.trim (Js.sliceFrom 6 (ctxArgs ctx)))));
    [discriminate|].
  destruct (findProject peer1 (Js.trim (Js.sliceFrom 6 (ctxArgs ctx))))
    as [[i q]|] eqn:Hfind; [|discriminate].
  destruct (Project.live q) eqn:Hlive; cbn [negb]; [|discriminate].
  cbv beta iota. intros H. injection H as Hd Hp. subst disk' p.
  change (Project.id (Project.setLastUsedAt (Some (nowIso env)) q))
    with (Project.id q) in *.
  set (stored := stampMessageId ctx (activate env peer1 (Some i) q)).
  assert (healChanged (defaultProjectName cfg) stored = false) as Hun
    by (apply healChanged_after_activate; exact Hidp).
  assert (stored
          = PeerState.setEffectiveFromMessageId (Some m)
              (activate env peer1 (Some i) q)) as Hstored.
  { unfold stored, stampMessageId. rewrite Hchan, Hmid. reflexivity. }
  destruct (activate_fields env peer1 i q)
    as [He [Ha [_ [_ [Hprev _]]]]].
  unfold resolveRoomKey. cbv zeta.
  rewrite Hhard, HevCh, HevKind, HevPeer, Hk, HevMsg.
  cbn [negb isSomeStr].
  change (String.eqb "telegram" "telegram") with true. cbn [negb].
  rewrite lookup_insert_eq, ensureDefaultProject_eq, Hun.
  rewrite (healed_unchanged _ _ _ Hun).
  unfold persistIfChanged.
  assert (PeerState.projectsEnabled stored = Some true) as Hen
    by (rewrite Hstored; exact He).
  assert (PeerState.effectiveFromMessageId stored = Some m) as Heff
    by (rewrite Hstored; reflexivity).
  assert (PeerState.activeProjectId stored = Project.id q) as Hact
    by (rewrite Hstored; exact Ha).
  assert (PeerState.previousProjectId stored
          = (if Js.truthy (PeerState.activeProjectId h)
             then Some (PeerState.activeProjectId h)
             else PeerState.previousProjectId h)) as Hpr
    by (rewrite Hstored; exact Hprev).
  rewrite Hen, Heff, Hact, Hpr. cbn [negb].
  assert ((if msgId <? m
           then default (Project.id q)
                  (if Js.truthy (PeerState.activeProjectId h)
                   then Some (PeerState.activeProjectId h)
                   else PeerState.previousProjectId h)
           else Project.id q)
          = (if msgId <? m
             then if Js.truthy (PeerState.activeProjectId h)
                  then PeerState.activeProjectId h
                  else default (Project.id q) (PeerState.previousProjectId h)
             else Project.id q)) as ->.
  { destruct (msgId <? m); [|reflexivity].
    destruct (Js.truthy (PeerState.activeProjectId h)); reflexivity. }
  unfold roomKeyFor. cbv zeta.
  destruct (negb (Js.truthy (sanitizeRoomKeySuffixToken _))); [reflexivity|].
  destruct (negb (Js.truthy (Js.trim _))); reflexivity.
Qed.

(** ** Informational subcommands *)

Lemma read_outcome cfg env (disk : Store) peerKey peer (o : Reply) :
  disk !! peerKey = Some peer ->
  let store :=
    persistIfChanged disk peerKey (healed env (defaultProjectName cfg) peer)
      (healChanged (defaultProjectName cfg) peer) in
  store = disk
  \/ exists peer0,
       disk !! peerKey = Some peer0
       /\ healChanged (defaultProjectName cfg) peer0 = true
       /\ store = <[peerKey := healed env (defaultProjectName cfg) peer0]> disk.
Proof.
  intros Hpeer. cbv zeta. unfold persistIfChanged.
  destruct (healChanged _ peer) eqn:Hch; [|left; reflexivity].
  right. exists peer. auto.
Qed.

(** X24: every subcommand other than [reset], [wipe], [on], [off], [new]
    and [switch] (the status screen, [help], [debug], [more], [memory],
    [list] and any unknown word) only reads: it is never refused and
    never throws, and it leaves the store as it is, unless the invoking
    peer has stored state in need of healing, in which case that state,
    healed by [ensureDefaultProject], is the one thing written.  It
    creates no state for a peer that has none. *)
Theorem X24_informational_commands cfg env ctx (disk : Store) :
  ctxSub ctx <> "reset" -> ctxSub ctx <> "wipe" -> ctxSub ctx <> "on" ->
  ctxSub ctx <> "off" -> ctxSub ctx <> "new" -> ctxSub ctx <> "switch" ->
  let peerKey := buildPeerKeyFromCommandCtx ctx in
  let r := handleProjectsCommand cfg env ctx disk in
  (exists reply, snd r = Returned reply /\ forall f, reply <> Refuse f)
  /\ (fst r = disk
      \/ exists peer,
           disk !! peerKey = Some peer
           /\ healChanged (defaultProjectName cfg) peer = true
           /\ fst r = <[peerKey := healed env (defaultProjectName cfg) peer]> disk).
Proof.
  intros Hreset Hwipe Hon Hoff Hnew Hswitch peerKey r. subst r.
  unfold handleProjectsCommand. cbv zeta. fold peerKey.
  destruct (String.eqb_spec (ctxArgs ctx) "new") as [E|_];
    [destruct (Hnew (ctxSub_of_new _ E))|].
  destruct (String.eqb_spec (ctxSub ctx) "reset") as [E|_]; [contradiction|].
  destruct (String.eqb_spec (ctxSub ctx) "wipe") as [E|_]; [contradiction|].
  destruct (String.eqb_spec (ctxSub ctx) "on") as [E|_]; [contradiction|].
  destruct (String.eqb_spec (ctxSub ctx) "off") as [E|_]; [contradiction|].
  destruct (String.eqb_spec (ctxSub ctx) "new") as [E|_]; [contradiction|].
  destruct (String.eqb_spec (ctxSub ctx) "switch") as [E|_]; [contradiction|].
  unfold cmdStatus, cmdDebug, cmdList.
  destruct (disk !! peerKey) as [peer|] eqn:Hpeer.
  - rewrite ensureDefaultProject_eq.
    pose proof (read_outcome cfg env disk peerKey peer Help) as Hread.
    rewrite Hpeer in Hread. specialize (Hread eq_refl). cbv zeta in Hread.
    split_cases; cbn [fst snd]; (split; [eexists; split; [reflexivity|discriminate]|]);
      solve [left; reflexivity | exact Hread].
  - split_cases; cbn [fst snd];
      (split; [eexists; split; [reflexivity|discriminate]|]); left; reflexivity.
Qed.

Lemma X24_informational_commands_witness :
  fst (handleProjectsCommand cfg0 (env0 4) (ctx0 "list" 4)
         (<["telegram:u1" := legacyPeer]> ∅))
  = <["telegram:u1" := healed (env0 4) "General" legacyPeer]>
      (<["telegram:u1" := legacyPeer]> ∅).
Proof.
  destruct (X24_informational_commands cfg0 (env0 4) (ctx0 "list" 4)
              (<["telegram:u1" := legacyPeer]> ∅)
              ltac:(vm_compute; discriminate) ltac:(vm_compute; discriminate)
              ltac:(vm_compute; discriminate) ltac:(vm_compute; discriminate)
              ltac:(vm_compute; discriminate) ltac:(vm_compute; discriminate))
    as [_ [H|[peer [Hp [_ H]]]]].
  - exfalso. apply (f_equal (fun store : Store => store !! "telegram:u1")) in H.
    vm_compute in H. discriminate H.
  - vm_compute in Hp. injection Hp as <-. exact H.
Defined.

(** ** The hooks on the file and the cache *)

(** What [loadStoreCached] returns is what the cache then holds. *)
Lemma loadStoreCached_holds now file cache :
  cachedStore (snd (loadStoreCached now file cache))
  = Some (fst (loadStoreCached now file cache)).
Proof.
  unfold loadStoreCached.
  destruct (cachedStore cache) eqn:Hc;
    [destruct (_ <? _); [exact Hc|]|];
    (destruct (fileMtimeMs file); [try destruct (_ =? _)|]); reflexivity.
Qed.

(** [loadStoreCached] reads the file when nothing is cached, and when the
    time to live is over and [stat] fails or reports another modification
    time than the recorded one. *)
Lemma loadStoreCached_reads_file now file cache :
  cachedStore cache = None
  \/ (cacheTtlMs <= now - cachedStoreLoadedAtMs cache
      /\ fileMtimeMs file <> Some (cachedStoreMtimeMs cache)) ->
  fst (loadStoreCached now file cache) = fileStore file.
Proof.
  unfold loadStoreCached. intros [Hc|[Httl Hm]].
  - rewrite Hc. destruct (fileMtimeMs file); reflexivity.
  - destruct (cachedStore cache);
      [destruct (Z.ltb_spec (now - cachedStoreLoadedAtMs cache) cacheTtlMs);
       [lia|]|];
      (destruct (fileMtimeMs file) as [m|];
       [try destruct (Z.eqb_spec m (cachedStoreMtimeMs cache)); try congruence|]);
      reflexivity.
Qed.

(** Within the time to live [loadStoreCached] returns the cached store,
    whatever the file holds. *)
Lemma loadStoreCached_within_ttl now file cache cached :
  cachedStore cache = Some cached ->
  now - cachedStoreLoadedAtMs cache < cacheTtlMs ->
  loadStoreCached now file cache = (cached, cache).
Proof.
  intros Hc Httl. unfold loadStoreCached. rewrite Hc.
  destruct (Z.ltb_spec (now - cachedStoreLoadedAtMs cache) cacheTtlMs);
    [reflexivity | lia].
Qed.

(** The [before_agent_start] handler returns what it returns on the
    store that [loadStoreCached] gave it; it leaves the file alone or
    writes to it the store that it leaves; the cache then holds that
    store. *)
Lemma sysBeforeAgentStart_link cfg env w1 w2 ctx (sys : Sys) :
  let loaded := fst (loadStoreCached (nowMs env) (sysFile sys) (sysCache sys)) in
  let s := beforeAgentStart cfg env ctx loaded in
  let r := sysBeforeAgentStart cfg env w1 w2 ctx sys in
  snd r = snd s
  /\ cachedStore (sysCache (fst r)) = Some (fst s)
  /\ ((sysFile (fst r) = sysFile sys /\ fst s = loaded)
      \/ fileStore (sysFile (fst r)) = fst s).
Proof.
  cbv zeta. unfold sysBeforeAgentStart, sysLoadStoreCached, beforeAgentStart.
  cbv zeta.
  pose proof (loadStoreCached_holds (nowMs env) (sysFile sys) (sysCache sys))
    as Hholds.
  destruct (loadStoreCached (nowMs env) (sysFile sys) (sysCache sys))
    as [store cache]. cbn [fst snd] in *.
  destruct (store !! _) as [peer|]; [|cbn [fst snd sysFile sysCache]; auto].
  rewrite ensureDefaultProject_eq. unfold persistIfChanged.
  destruct (healChanged _ peer);
    destruct (negb (isTrue _));
    try destruct (List.find _ _);
    try destruct (isTrue (PeerState.pendingReset _));
    cbn [fst snd sysFile sysCache sysWriteStoreAndRefreshCache
         writeStoreAndRefreshCache fileStore cachedStore]; auto.
Qed.

(** The [resolve_room_key] handler returns what it returns on the store
    that [loadStoreCached] gave it; when its guards stop it, it touches
    neither the file nor the cache; otherwise it leaves the file alone or
    writes to it the store that it leaves, and the cache then holds that
    store. *)
Lemma sysResolveRoomKey_link cfg env w event (sys : Sys) :
  let loaded := fst (loadStoreCached (nowMs env) (sysFile sys) (sysCache sys)) in
  let s := resolveRoomKey cfg env event loaded in
  let r := sysResolveRoomKey cfg env w event sys in
  snd r = snd s
  /\ ((roomKeyGuards cfg event = false /\ fst r = sys /\ fst s = loaded)
      \/ (roomKeyGuards cfg event = true
          /\ cachedStore (sysCache (fst r)) = Some (fst s)
          /\ ((sysFile (fst r) = sysFile sys /\ fst s = loaded)
              \/ fileStore (sysFile (fst r)) = fst s))).
Proof.
  cbv zeta.
  unfold sysResolveRoomKey, sysLoadStoreCached, resolveRoomKey, roomKeyGuards.
  cbv zeta.
  destruct (hardIsolationEnabled cfg); cbn [negb andb]; [|auto].
  destruct (isSomeStr _ _); cbn [negb andb]; [|auto].
  destruct (match evPeerKind event with Some Dm => true | _ => false end);
    cbn [negb andb]; [|auto].
  destruct (Js.truthy (Js.trim _)); cbn [negb andb]; [|auto].
  pose proof (loadStoreCached_holds (nowMs env) (sysFile sys) (sysCache sys))
    as Hholds.
  destruct (loadStoreCached (nowMs env) (sysFile sys) (sysCache sys))
    as [store cache]. cbn [fst snd] in *.
  assert (forall (o : option string) (sys' : Sys) (store' : Store),
             cachedStore (sysCache sys') = Some store' ->
             (sysFile sys' = sysFile sys /\ store' = store)
             \/ fileStore (sysFile sys') = store' ->
             o = o
             /\ ((true = false /\ sys' = sys /\ store' = store)
                 \/ (true = true
                     /\ cachedStore (sysCache sys') = Some store'
                     /\ ((sysFile sys' = sysFile sys /\ store' = store)
                         \/ fileStore (sysFile sys') = store')))) as Hcase
    by (intros o sys' store' Hc Hf; split; [reflexivity|]; right; auto).
  destruct (store !! _) as [peer|];
    [|apply Hcase; cbn [sysFile sysCache]; auto].
  rewrite ensureDefaultProject_eq. unfold persistIfChanged.
  destruct (healChanged _ peer);
    split_cases; cbn [fst snd]; apply Hcase;
    cbn [sysFile sysCache sysWriteStoreAndRefreshCache
         writeStoreAndRefreshCache fileStore cachedStore]; auto.
Qed.

(** X13: the two hooks act on the store that [loadStoreCached] returns,
    which is the cached one within the time to live, whatever the file
    holds.  When that store has no entry for the peer they return nothing
    and leave the file as it is.  When they write, the file becomes that
    store with the entry of their own peer replaced (for the routing
    hook: by the self-healed state, and only when [ensureDefaultProject]
    reports a change), so that after a write the entries of the other
    peers are those of the store loaded, and those of the file before
    when the load returned what the file held. *)
Theorem X13_hooks_frame cfg env w1 w2 ctx event (sys : Sys) :
  let loaded := fst (loadStoreCached (nowMs env) (sysFile sys) (sysCache sys)) in
  let hookKey := buildPeerKeyFromBeforeAgentStart ctx in
  let roomKey := "telegram:" ++ Js.trim (default "" (evPeerId event)) in
  let rb := sysBeforeAgentStart cfg env w1 w2 ctx sys in
  let rr := sysResolveRoomKey cfg env w1 event sys in
  (loaded !! hookKey = None -> snd rb = None /\ sysFile (fst rb) = sysFile sys)
  /\ (loaded !! roomKey = None ->
      snd rr = None /\ sysFile (fst rr) = sysFile sys)
  /\ (sysFile (fst rb) = sysFile sys
      \/ exists peer peer',
           loaded !! hookKey = Some peer
           /\ fileStore (sysFile (fst rb)) = <[hookKey := peer']> loaded)
  /\ (sysFile (fst rr) = sysFile sys
      \/ exists peer,
           loaded !! roomKey = Some peer
           /\ healChanged (defaultProjectName cfg) peer = true
           /\ fileStore (sysFile (fst rr))
              = <[roomKey := healed env (defaultProjectName cfg) peer]> loaded)
  /\ (loaded = fileStore (sysFile sys) ->
      forall k,
        (k <> hookKey ->
         fileStore (sysFile (fst rb)) !! k = fileStore (sysFile sys) !! k)
        /\ (k <> roomKey ->
            fileStore (sysFile (fst rr)) !! k = fileStore (sysFile sys) !! k)).
Proof.
  cbv zeta.
  assert (sysFile (fst (sysBeforeAgentStart cfg env w1 w2 ctx sys)) = sysFile sys
          \/ exists peer peer',
               fst (loadStoreCached (nowMs env) (sysFile sys) (sysCache sys))
                 !! buildPeerKeyFromBeforeAgentStart ctx = Some peer
               /\ fileStore (sysFile (fst (sysBeforeAgentStart cfg env w1 w2 ctx sys)))
                  = <[buildPeerKeyFromBeforeAgentStart ctx := peer']>
                      (fst (loadStoreCached (nowMs env) (sysFile sys)
                              (sysCache sys)))) as Hb.
  { unfold sysBeforeAgentStart, sysLoadStoreCached. cbv zeta.
    destruct (loadStoreCached (nowMs env) (sysFile sys) (sysCache sys))
      as [store cache]. cbn [fst snd].
    destruct (store !! _) as [peer|] eqn:Hpeer; [|left; reflexivity].
    rewrite ensureDefaultProject_eq.
    destruct (healChanged _ peer);
      destruct (negb (isTrue _));
      try destruct (List.find _ _);
      try destruct (isTrue (PeerState.pendingReset _));
      cbn [fst snd sysFile sysWriteStoreAndRefreshCache
           writeStoreAndRefreshCache fileStore];
      try (left; reflexivity);
      right; exists peer; eexists; (split; [reflexivity|]);
      rewrite ?insert_insert_eq; reflexivity. }
  assert (sysFile (fst (sysResolveRoomKey cfg env w1 event sys)) = sysFile sys
          \/ exists peer,
               fst (loadStoreCached (nowMs env) (sysFile sys) (sysCache sys))
                 !! ("telegram:" ++ Js.trim (default "" (evPeerId event)))
               = Some peer
               /\ healChanged (defaultProjectName cfg) peer = true
               /\ fileStore (sysFile (fst (sysResolveRoomKey cfg env w1 event sys)))
                  = <["telegram:" ++ Js.trim (default "" (evPeerId event)) :=
                        healed env (defaultProjectName cfg) peer]>
                      (fst (loadStoreCached (nowMs env) (sysFile sys)
                              (sysCache sys)))) as Hr.
  { unfold sysResolveRoomKey, sysLoadStoreCached. cbv zeta.
    destruct (negb (hardIsolationEnabled cfg)); [left; reflexivity|].
    destruct (negb (isSomeStr _ _)); [left; reflexivity|].
    destruct (negb match evPeerKind event with Some Dm => true | _ => false end);
      [left; reflexivity|].
    destruct (negb (Js.truthy (Js.trim _))); [left; reflexivity|].
    destruct (loadStoreCached (nowMs env) (sysFile sys) (sysCache sys))
      as [store cache]. cbn [fst snd].
    destruct (store !! _) as [peer|] eqn:Hpeer; [|left; reflexivity].
    rewrite ensureDefaultProject_eq.
    destruct (healChanged _ peer) eqn:Hch;
      split_cases;
      cbn [fst snd sysFile sysWriteStoreAndRefreshCache
           writeStoreAndRefreshCache fileStore];
      try (left; reflexivity);
      right; exists peer; auto. }
  split; [|split; [|split; [exact Hb|split; [exact Hr|]]]].
  - intros Hnone.
    destruct (sysBeforeAgentStart_link cfg env w1 w2 ctx sys) as [Hres _].
    cbv zeta in Hres. rewrite Hres. unfold beforeAgentStart. rewrite Hnone.
    split; [reflexivity|].
    destruct Hb as [Hb|[peer [peer' [Hp _]]]]; [exact Hb | congruence].
  - intros Hnone.
    destruct (sysResolveRoomKey_link cfg env w1 event sys) as [Hres _].
    cbv zeta in Hres. rewrite Hres. split.
    + unfold resolveRoomKey. cbv zeta. rewrite Hnone. split_cases; reflexivity.
    + destruct Hr as [Hr|[peer [Hp _]]]; [exact Hr | congruence].
  - intros Hload k. split; intros Hk.
    + destruct Hb as [->|[peer [peer' [_ ->]]]]; [reflexivity|].
      rewrite Hload. apply lookup_insert_ne. congruence.
    + destruct Hr as [->|[peer [_ [_ ->]]]]; [reflexivity|].
      rewrite Hload. apply lookup_insert_ne. congruence.
Qed.

Lemma X13_hooks_frame_witness :
  let sys :=
    {| sysFile := fileOf (<["telegram:u2" := danglingPeer]>
                            (run [("new p2", 1)] ∅)) 10;
       sysCache := emptyCache |} in
  snd (sysBeforeAgentStart cfg0 (env0 2) (stampAt 3) (stampAt 4)
         {| sessionKey := Some "agent:main:telegram:dm:u3"; channelId := None;
            conversationId := None |} sys) = None
  /\ fileStore
       (sysFile (fst (sysResolveRoomKey cfg0 (env0 2) (stampAt 3)
                        (dmEvent 2 "agent:main:telegram:dm:u1") sys)))
     !! "telegram:u2" = Some danglingPeer.
Proof.
  intros sys. split.
  - apply (X13_hooks_frame cfg0 (env0 2) (stampAt 3) (stampAt 4)
             {| sessionKey := Some "agent:main:telegram:dm:u3";
                channelId := None; conversationId := None |}
             (dmEvent 2 "agent:main:telegram:dm:u1") sys).
    vm_compute. reflexivity.
  - destruct (X13_hooks_frame cfg0 (env0 2) (stampAt 3) (stampAt 4) hookCtx0
                (dmEvent 2 "agent:main:telegram:dm:u1") sys)
      as [_ [_ [_ [_ H]]]].
    destruct (H ltac:(vm_compute; reflexivity) "telegram:u2") as [_ Hk].
    rewrite Hk; [apply lookup_insert_eq | discriminate].
Defined.

(** A hook within the time to live of a cache filled before a command
    acts on the state from before the command, and its write puts that
    state back into the file: after [/projects on], a routing call fills
    the cache; [/projects new Alpha], served through [withPeerState],
    writes the file and leaves the cache; the [before_agent_start] call
    500 ms later frames the message with the project General and, clearing
    the one-shot guardrail, writes the cached store: the project Alpha is
    no longer in the file. *)
Example stale_hook_write_undoes_command :
  let sys0 := {| sysFile := fileOf (run [("on", 1)] ∅) 1; sysCache := emptyCache |} in
  let sys1 :=
    fst (sysResolveRoomKey cfg0 (env0 1000) (stampAt 1000)
           (dmEvent 1 "agent:main:telegram:dm:u1") sys0) in
  exists sys2 alpha,
    sysHandleProjectsCommand cfg0 (env0 1200) (ctx0 "new Alpha" 2)
      (stampAt 1200) sys1
    = Some (sys2, Returned (Created alpha))
    /\ Project.id alpha = "proj-alpha"
    /\ let r := sysBeforeAgentStart cfg0 (env0 1500) (stampAt 1500)
                  (stampAt 1500) hookCtx0 sys2 in
       option_map (fun peer => List.map Project.id (PeerState.projects peer))
         (fileStore (sysFile sys2) !! "telegram:u1")
       = Some ["proj-general"; "proj-alpha"]
       /\ option_map PeerState.activeProjectId
            (fileStore (sysFile sys2) !! "telegram:u1")
          = Some "proj-alpha"
       /\ snd r = Some ("Active project: General (proj-general)." ++ newline
                        ++ guardrailLine)
       /\ option_map (fun peer => List.map Project.id (PeerState.projects peer))
            (fileStore (sysFile (fst r)) !! "telegram:u1")
          = Some ["proj-general"].
Proof.
  cbv zeta. eexists. eexists. split; [vm_compute; reflexivity|].
  vm_compute. auto.
Qed.

(** The commands served through [withPeerState] write the entry of the
    invoking peer, and nothing else, to the store they read. *)
Lemma served_writes_peer cfg env ctx (disk : Store) :
  servedByWithPeerState ctx = true ->
  exists peer,
    fst (handleProjectsCommand cfg env ctx disk)
    = <[buildPeerKeyFromCommandCtx ctx := peer]> disk.
Proof.
  unfold servedByWithPeerState. intros H.
  destruct (String.eqb_spec (ctxSub ctx) "on") as [Eon|_].
  { rewrite (handle_on _ _ _ _ Eon). unfold cmdOn, withPeerState.
    cbv beta zeta. rewrite ensureDefaultProject_eq.
    eexists. reflexivity. }
  destruct (String.eqb_spec (ctxSub ctx) "off") as [Eoff|_].
  { rewrite (handle_off _ _ _ _ Eoff). unfold cmdOff, withPeerState.
    cbv beta zeta. rewrite ensureDefaultProject_eq.
    eexists. reflexivity. }
  destruct (String.eqb_spec (ctxSub ctx) "new") as [Enew|_].
  { cbn [orb andb] in H.
    destruct (Js.truthy (Js.trim (Js.sliceFrom 3 (ctxArgs ctx)))) eqn:Hname.
    - assert (ctxArgs ctx <> "new") as Hne
        by (intros E; rewrite E in Hname; vm_compute in Hname; discriminate).
      rewrite (handle_new _ _ _ _ Enew Hne). unfold cmdNew, withPeerState.
      cbv beta zeta. rewrite Hname, ensureDefaultProject_eq. cbn [negb].
      destruct (findIdx _ _) as [[i existing]|];
        [|destruct (_ >=? _)]; eexists; reflexivity.
    - rewrite Enew in H. discriminate H. }
  destruct (String.eqb_spec (ctxSub ctx) "switch") as [Eswitch|_];
    [|discriminate H].
  cbn [orb andb] in H.
  rewrite (handle_switch _ _ _ _ Eswitch). unfold cmdSwitch, withPeerState.
  cbv beta zeta. rewrite H, ensureDefaultProject_eq. cbn [negb].
  destruct (findProject _ _) as [[i project]|];
    [destruct (negb (Project.live project))|]; eexists; reflexivity.
Qed.

(** X22: [/projects off] is served through [withPeerState]: it writes the
    file and leaves the cache as it is.  In the file the peer has projects
    off and keeps the healed collection and active project.  A hook for
    that peer whose [loadStoreCached] returns what the file holds (as it
    does when nothing is cached, or when the time to live is over and the
    modification time is another than the recorded one) is back to classic
    behaviour, whatever the configuration and the clock: the
    [before_agent_start] hook adds no preface, the [resolve_room_key] hook
    gives no replacement key, and the file holds the same store
    afterwards, which [before_agent_start] leaves cached.  A hook within
    the time to live of a store cached before the command still returns
    what it returns on that cached store. *)
Theorem X22_off_is_classic cfg env ctx w (sys : Sys) :
  ctxSub ctx = "off" ->
  let peerKey := buildPeerKeyFromCommandCtx ctx in
  let h :=
    healed env (defaultProjectName cfg)
      (startPeer (fileStore (sysFile sys)) peerKey) in
  exists sys',
    sysHandleProjectsCommand cfg env ctx w sys
    = Some (sys', Returned ProjectsOff)
    /\ sysCache sys' = sysCache sys
    /\ (exists peer',
           fileStore (sysFile sys') !! peerKey = Some peer'
           /\ PeerState.projectsEnabled peer' = Some false
           /\ PeerState.projects peer' = PeerState.projects h
           /\ PeerState.activeProjectId peer' = PeerState.activeProjectId h)
    /\ (forall envH w1 w2 hookCtx,
           buildPeerKeyFromBeforeAgentStart hookCtx = peerKey ->
           fst (loadStoreCached (nowMs envH) (sysFile sys') (sysCache sys'))
           = fileStore (sysFile sys') ->
           let rb := sysBeforeAgentStart cfg envH w1 w2 hookCtx sys' in
           snd rb = None
           /\ fileStore (sysFile (fst rb)) = fileStore (sysFile sys')
           /\ cachedStore (sysCache (fst rb)) = Some (fileStore (sysFile sys')))
    /\ (forall envH wH event,
           "telegram:" ++ Js.trim (default "" (evPeerId event)) = peerKey ->
           fst (loadStoreCached (nowMs envH) (sysFile sys') (sysCache sys'))
           = fileStore (sysFile sys') ->
           let rr := sysResolveRoomKey cfg envH wH event sys' in
           snd rr = None
           /\ fileStore (sysFile (fst rr)) = fileStore (sysFile sys'))
    /\ (forall envH w1 w2 hookCtx event cached,
           cachedStore (sysCache sys) = Some cached ->
           nowMs envH - cachedStoreLoadedAtMs (sysCache sys) < cacheTtlMs ->
           snd (sysBeforeAgentStart cfg envH w1 w2 hookCtx sys')
           = snd (beforeAgentStart cfg envH hookCtx cached)
           /\ snd (sysResolveRoomKey cfg envH w1 event sys')
              = snd (resolveRoomKey cfg envH event cached)).
Proof.
  intros Hsub peerKey h.
  destruct (off_is_classic_on_store cfg env ctx (fileStore (sysFile sys)) Hsub)
    as [Hreply [Hpeer [Hbefore Hroom]]].
  fold peerKey in Hpeer, Hbefore, Hroom. fold h in Hpeer.
  set (r := handleProjectsCommand cfg env ctx (fileStore (sysFile sys))) in *.
  exists (sysWriteJsonAtomic (fst r) w sys).
  split.
  { unfold sysHandleProjectsCommand, servedByWithPeerState. rewrite Hsub.
    change (String.eqb "off" "on") with false.
    change (String.eqb "off" "off") with true. cbn [orb]. fold r.
    rewrite Hreply. reflexivity. }
  split; [reflexivity|]. split; [exact Hpeer|].
  cbn [sysWriteJsonAtomic sysFile sysCache fileStore].
  split; [|split].
  - intros envH w1 w2 hookCtx Hk Hload. cbv zeta.
    destruct (sysBeforeAgentStart_link cfg envH w1 w2 hookCtx
                (sysWriteJsonAtomic (fst r) w sys)) as [Hres [Hcache Hfile]].
    cbv zeta in Hres, Hcache, Hfile.
    cbn [sysWriteJsonAtomic sysFile sysCache fileStore] in Hres, Hcache, Hfile.
    rewrite Hload in Hres, Hcache, Hfile.
    rewrite (Hbefore envH hookCtx Hk) in Hres, Hcache, Hfile.
    cbn [fst snd] in Hres, Hcache, Hfile.
    split; [exact Hres|]. split; [|exact Hcache].
    destruct Hfile as [[-> _]| ->]; reflexivity.
  - intros envH wH event Hk Hload. cbv zeta.
    destruct (sysResolveRoomKey_link cfg envH wH event
                (sysWriteJsonAtomic (fst r) w sys)) as [Hres Hfile].
    cbv zeta in Hres, Hfile.
    cbn [sysWriteJsonAtomic sysFile sysCache fileStore] in Hres, Hfile.
    rewrite Hload in Hres, Hfile.
    rewrite (Hroom envH event Hk) in Hres, Hfile.
    cbn [fst snd] in Hres, Hfile.
    split; [exact Hres|].
    destruct Hfile as [[_ [-> _]]|[_ [_ [[-> _]| ->]]]]; reflexivity.
  - intros envH w1 w2 hookCtx event cached Hc Httl.
    destruct (sysBeforeAgentStart_link cfg envH w1 w2 hookCtx
                (sysWriteJsonAtomic (fst r) w sys)) as [Hb _].
    destruct (sysResolveRoomKey_link cfg envH w1 event
                (sysWriteJsonAtomic (fst r) w sys)) as [Hr _].
    cbv zeta in Hb, Hr. cbn [sysWriteJsonAtomic sysFile sysCache] in Hb, Hr.
    rewrite (loadStoreCached_within_ttl _ _ _ cached Hc Httl) in Hb, Hr.
    split; [exact Hb | exact Hr].
Qed.

Lemma X22_off_is_classic_witness :
  let sys :=
    {| sysFile := fileOf (run [("new Alpha", 1)] ∅) 1;
       sysCache := emptyCache |} in
  snd (sysResolveRoomKey cfg0 (env0 9) (stampAt 9)
         (dmEvent 9 "agent:main:telegram:dm:u1") sys) <> None
  /\ exists sys',
       sysHandleProjectsCommand cfg0 (env0 2) (ctx0 "off" 2) (stampAt 2) sys
       = Some (sys', Returned ProjectsOff)
       /\ snd (sysResolveRoomKey cfg0 (env0 9) (stampAt 9)
                 (dmEvent 9 "agent:main:telegram:dm:u1") sys') = None.
Proof.
  intros sys. split; [vm_compute; discriminate|].
  destruct (X22_off_is_classic cfg0 (env0 2) (ctx0 "off" 2) (stampAt 2) sys
              eq_refl)
    as [sys' [Hcmd [Hcache [_ [_ [Hroom _]]]]]].
  exists sys'. split; [exact Hcmd|].
  apply Hroom; [reflexivity|].
  apply loadStoreCached_reads_file. left. rewrite Hcache. reflexivity.
Defined.

(** X23: a switch takes effect at the message that carries it, for the
    hooks that see it.  [/projects switch] is served through
    [withPeerState]: it writes the file and leaves the cache as it is.
    After a switch sent as Telegram message [m] has answered that it
    switched to a project with a non-empty id, a [resolve_room_key] call
    for that peer, under hard isolation, whose [loadStoreCached] returns
    what the file holds routes a direct message numbered [m] or later to
    the room of that project, and one numbered below [m] to the room of
    the project that was active before the switch (when none was active:
    of the previous project recorded then, or of the new project when
    none was recorded); the file holds the same store afterwards, which
    is then the cached one.  A call within the time to live of a store
    cached before the switch returns what it returns on that cached
    store. *)
Theorem X23_switch_then_route cfg env ctx w (sys sys' : Sys) p envH wH event m
  msgId :
  sysHandleProjectsCommand cfg env ctx w sys
  = Some (sys', Returned (Switched p)) ->
  channel ctx = Some "telegram" ->
  messageId ctx = Some m ->
  Js.truthy (Project.id p) = true ->
  hardIsolationEnabled cfg = true ->
  evChannel event = Some "telegram" ->
  evPeerKind event = Some Dm ->
  Js.truthy (Js.trim (default "" (evPeerId event))) = true ->
  "telegram:" ++ Js.trim (default "" (evPeerId event))
  = buildPeerKeyFromCommandCtx ctx ->
  evMessageId event = Some msgId ->
  let h :=
    healed env (defaultProjectName cfg)
      (startPeer (fileStore (sysFile sys)) (buildPeerKeyFromCommandCtx ctx)) in
  let before :=
    if Js.truthy (PeerState.activeProjectId h)
    then PeerState.activeProjectId h
    else default (Project.id p) (PeerState.previousProjectId h) in
  let rr := sysResolveRoomKey cfg envH wH event sys' in
  sysCache sys' = sysCache sys
  /\ (fst (loadStoreCached (nowMs envH) (sysFile sys') (sysCache sys'))
      = fileStore (sysFile sys') ->
      snd rr = roomKeyFor event (if msgId <? m then before else Project.id p)
      /\ fileStore (sysFile (fst rr)) = fileStore (sysFile sys')
      /\ cachedStore (sysCache (fst rr)) = Some (fileStore (sysFile sys')))
  /\ (forall cached,
         cachedStore (sysCache sys) = Some cached ->
         nowMs envH - cachedStoreLoadedAtMs (sysCache sys) < cacheTtlMs ->
         snd rr = snd (resolveRoomKey cfg envH event cached)).
Proof.
  intros H Hchan Hmid Hidp Hhard HevCh HevKind HevPeer Hk HevMsg h before rr.
  unfold sysHandleProjectsCommand in H.
  destruct (servedByWithPeerState ctx); [|discriminate H].
  injection H as Hsys Hreply.
  assert (handleProjectsCommand cfg env ctx (fileStore (sysFile sys))
          = (fileStore (sysFile sys'), Returned (Switched p))) as Hcmd.
  { rewrite <- Hsys, <- Hreply. cbn [sysWriteJsonAtomic sysFile fileStore].
    apply surjective_pairing. }
  pose proof (switch_then_route_on_store cfg env ctx _ _ p envH event m msgId
                Hcmd Hchan Hmid Hidp Hhard HevCh HevKind HevPeer Hk HevMsg)
    as Hroute.
  cbv zeta in Hroute. fold h in Hroute. fold before in Hroute.
  assert (sysCache sys' = sysCache sys) as Hcache
    by (rewrite <- Hsys; reflexivity).
  destruct (sysResolveRoomKey_link cfg envH wH event sys') as [Hres Hfile].
  cbv zeta in Hres, Hfile. fold rr in Hres, Hfile.
  assert (roomKeyGuards cfg event = true) as Hguards.
  { unfold roomKeyGuards. rewrite Hhard, HevCh, HevKind, HevPeer.
    cbn [isSomeStr andb]. reflexivity. }
  rewrite Hguards in Hfile.
  destruct Hfile as [[Hf _]|[_ [Hholds Hfile]]]; [discriminate Hf|].
  split; [exact Hcache|]. split.
  - intros Hload. rewrite Hload, Hroute in Hres, Hholds, Hfile.
    cbn [fst snd] in Hres, Hholds, Hfile.
    split; [exact Hres|]. split; [|exact Hholds].
    destruct Hfile as [[-> _]| ->]; reflexivity.
  - intros cached Hc Httl. rewrite Hcache in Hres.
    rewrite (loadStoreCached_within_ttl _ _ _ cached Hc Httl) in Hres.
    exact Hres.
Qed.

Lemma X23_switch_then_route_witness :
  let sys :=
    {| sysFile := fileOf (run [("new Alpha", 1)] ∅) 1;
       sysCache := emptyCache |} in
  let sys' :=
    sysWriteJsonAtomic
      (fst (handleProjectsCommand cfg0 (env0 5) (ctx0 "switch general" 5)
              (fileStore (sysFile sys))))
      (stampAt 5) sys in
  snd (sysResolveRoomKey cfg0 (env0 9) (stampAt 9)
         (dmEvent 4 "agent:main:telegram:dm:u1") sys')
  = Some "agent:main:telegram:dm:u1:proj:proj-alpha"
  /\ snd (sysResolveRoomKey cfg0 (env0 9) (stampAt 9)
            (dmEvent 5 "agent:main:telegram:dm:u1") sys')
     = Some "agent:main:telegram:dm:u1:proj:proj-general".
Proof.
  intros sys sys'.
  assert (sysHandleProjectsCommand cfg0 (env0 5) (ctx0 "switch general" 5)
            (stampAt 5) sys
          = Some (sys',
                  Returned
                    (Switched
                       (Project.setLastUsedAt (Some (nowIso (env0 5)))
                          generalProject)))) as H
    by (vm_compute; reflexivity).
  assert (fst (loadStoreCached (nowMs (env0 9)) (sysFile sys') (sysCache sys'))
          = fileStore (sysFile sys')) as Hload
    by (apply loadStoreCached_reads_file; left; reflexivity).
  split.
  - destruct (X23_switch_then_route cfg0 (env0 5) (ctx0 "switch general" 5)
                (stampAt 5) sys sys' _ (env0 9) (stampAt 9)
                (dmEvent 4 "agent:main:telegram:dm:u1") 5 4 H eq_refl eq_refl
                eq_refl eq_refl eq_refl eq_refl eq_refl eq_refl eq_refl)
      as [_ [Hfresh _]].
    destruct (Hfresh Hload) as [-> _]. vm_compute. reflexivity.
  - destruct (X23_switch_then_route cfg0 (env0 5) (ctx0 "switch general" 5)
                (stampAt 5) sys sys' _ (env0 9) (stampAt 9)
                (dmEvent 5 "agent:main:telegram:dm:u1") 5 5 H eq_refl eq_refl
                eq_refl eq_refl eq_refl eq_refl eq_refl eq_refl eq_refl)
      as [_ [Hfresh _]].
    destruct (Hfresh Hload) as [-> _]. vm_compute. reflexivity.
Defined.

(** A routing call within the time to live of a store cached before a
    switch does not see the switch: with the cache filled at 1000 ms, a
    switch to General sent as message 5 at 1200 ms, and a routing call for
    message 6 at 1500 ms, the message goes to the room of Alpha, the
    project that was active before; at 2000 ms it goes to the room of
    General. *)
Example stale_cache_routes_to_old_project :
  let sys0 :=
    {| sysFile := fileOf (run [("new Alpha", 1)] ∅) 1;
       sysCache := emptyCache |} in
  let sys1 :=
    fst (sysResolveRoomKey cfg0 (env0 1000) (stampAt 1000)
           (dmEvent 2 "agent:main:telegram:dm:u1") sys0) in
  exists sys2 p,
    sysHandleProjectsCommand cfg0 (env0 1200) (ctx0 "switch general" 5)
      (stampAt 1200) sys1
    = Some (sys2, Returned (Switched p))
    /\ Project.id p = "proj-general"
    /\ snd (sysResolveRoomKey cfg0 (env0 1500) (stampAt 1500)
              (dmEvent 6 "agent:main:telegram:dm:u1") sys2)
       = Some "agent:main:telegram:dm:u1:proj:proj-alpha"
    /\ snd (sysResolveRoomKey cfg0 (env0 2000) (stampAt 2000)
              (dmEvent 6 "agent:main:telegram:dm:u1") sys2)
       = Some "agent:main:telegram:dm:u1:proj:proj-general".
Proof.
  cbv zeta. eexists. eexists. split; [vm_compute; reflexivity|].
  vm_compute. auto.
Qed.
